(** * Editor Session Engine: store, history timeline, tool registry, presets

    A shallow embedding of [src/store/editorStore.ts] (the zustand store and
    the [ToolPresetsClass] catalog that follows it in the same file) and of
    the tool registry ([ToolRegistryClass] with its built-in tools).

    JavaScript objects used as dictionaries are finite maps, arrays are
    lists, numbers are rationals, thrown exceptions are an explicit outcome.
    The fabric.js canvas, [JSON.parse]/[JSON.stringify], [generateId] and
    [Date.now] are not part of the repository: the canvas is an interface
    ([Surface]), the parser is a section variable, and fresh ids and
    timestamps are arguments of the operations that draw them.

    The canvas raises events while it is called, and the handlers that
    [CanvasRenderer] registers on it call back into the store; a load and an
    image may be ready only after the operation that asked for them has
    returned. Both are part of the embedding: see [Effect] and [Task]. *)

From Stdlib Require Import ZArith QArith Lia.
From stdpp Require Import gmap strings list fin_maps pretty.

#[local] Set Warnings "-register-all".
#[local] Open Scope Z_scope.

(** ** JavaScript values and the runtime operations the sources rely on *)

Module JS.

(** Values that [JSON.parse] can produce, plus [undefined]. A number is the
    exact rational value of a finite double. *)
Inductive jsval : Type :=
  | JUndefined
  | JNull
  | JBool (b : bool)
  | JNum (q : Q)
  | JStr (s : string)
  | JArr (l : list jsval)
  | JObj (m : gmap string jsval).

(** Result of evaluating an expression that may throw. *)
Inductive outcome (A : Type) : Type :=
  | Ret (a : A)
  | Throw.
Arguments Ret {A} a.
Arguments Throw {A}.

Definition string_nonempty (s : string) : bool :=
  match s with EmptyString => false | String _ _ => true end.

(** ToBoolean: the test behind [if (x)], [!x], [x || y] and [x && y]. *)
Definition truthy (v : jsval) : bool :=
  match v with
  | JUndefined | JNull => false
  | JBool b => b
  | JNum q => negb (Qeq_bool q 0)
  | JStr s => string_nonempty s
  | JArr _ | JObj _ => true
  end.

(** A [string] holds the UTF-16 code units of a JavaScript string, one
    character per unit (the character type limits them to units below 256).
    Spreading a string yields one property per code unit. *)
Fixpoint chars (s : string) : list jsval :=
  match s with
  | EmptyString => []
  | String c s' => JStr (String c EmptyString) :: chars s'
  end.

(** Indexed elements of an array or a string, keyed the way JavaScript keys
    them: by the decimal spelling of the index. *)
Definition indexed (l : list jsval) : gmap string jsval :=
  list_to_map (imap (fun (i : nat) v => (pretty i, v)) l).

(** Own enumerable properties: what [{...v}] copies. *)
Definition own_props (v : jsval) : gmap string jsval :=
  match v with
  | JObj m => m
  | JArr l => indexed l
  | JStr s => indexed (chars s)
  | JUndefined | JNull | JBool _ | JNum _ => ∅
  end.

(** An object literal with distinct keys. *)
Definition obj (l : list (string * jsval)) : jsval := JObj (list_to_map l).

(** [{ ...a, ...b }]: the properties of [b] win. *)
Definition spread (a b : jsval) : jsval := JObj (own_props b ∪ own_props a).

(** [v.k] for the keys the sources read (none of them is inherited from a
    prototype): reading a property of [undefined] or [null] throws a
    TypeError, a property that is absent reads as [undefined]. *)
Definition get_prop (v : jsval) (k : string) : outcome jsval :=
  match v with
  | JUndefined | JNull => Throw
  | _ => Ret (default JUndefined (own_props v !! k))
  end.

(** [v.k] when [v] is known to be an object. *)
Definition field (v : jsval) (k : string) : jsval :=
  default JUndefined (own_props v !! k).

(** Relative index of [Array.prototype.slice]. *)
Definition relative_index (len : nat) (i : Z) : nat :=
  if i <? 0 then Z.to_nat (Z.max (Z.of_nat len + i) 0)
  else Z.to_nat (Z.min i (Z.of_nat len)).

(** [l.slice(start, end)]. *)
Definition slice {A} (start end_ : Z) (l : list A) : list A :=
  let k := relative_index (length l) start in
  let final := relative_index (length l) end_ in
  take (final - k) (drop k l).

(** [l.slice(start)]. *)
Definition slice_from {A} (start : Z) (l : list A) : list A :=
  drop (relative_index (length l) start) l.

(** [l[i]]: [None] stands for [undefined]. *)
Definition index {A} (l : list A) (i : Z) : option A :=
  if i <? 0 then None else l !! Z.to_nat i.

End JS.
Import JS.

(** ** The rendering surface and the persisted-session codec (external) *)

(** The canvas events the program listens to ([CanvasRenderer.tsx], lines 39
    to 61). A selection event carries [e.selected]. *)
Inductive CanvasEvent (O : Type) : Type :=
  | selection_created (selected : list O)
  | selection_updated (selected : list O)
  | selection_cleared
  | object_modified
  | object_added
  | object_removed.
Arguments selection_created {O} selected.
Arguments selection_updated {O} selected.
Arguments selection_cleared {O}.
Arguments object_modified {O}.
Arguments object_added {O}.
Arguments object_removed {O}.

(** What a call into the canvas does: the events it raises, in order, each
    with the content of the canvas at the moment it is raised, and the
    content the call leaves. Handlers run inside the call, one event at a
    time. *)
Record Effect (O S : Type) : Type := {
  fired : list (CanvasEvent O * S);
  result : S
}.
Arguments fired {O S} e.
Arguments result {O S} e.

(** What the store asks of the fabric.js canvas. [Scene] is the content that
    [toJSON] serialises and [loadFromJSON] replaces; [renderAll] only draws
    and is left out. [loadFromJSON] empties the canvas and inserts the
    objects of the snapshot once all of them are ready, and then calls back;
    when one of them (an image) is not ready at once, all of this happens
    after the caller has returned: the load is late. The same holds of
    [clone] and of [fabric.Image.fromURL]. *)
Class Surface : Type := {
  Scene : Type;
  Obj : Type;
  SceneJSON : Type;
  canvas_toJSON : Scene -> SceneJSON;
  JSON_stringify : SceneJSON -> string;
  (** [loadFromJSON] of a serialised snapshot, of a parsed one *)
  canvas_loadFromJSON : string -> Scene -> Effect Obj Scene;
  canvas_loadFromObject : SceneJSON -> Scene -> Effect Obj Scene;
  text_loads_late : string -> bool;
  object_loads_late : SceneJSON -> bool;
  canvas_remove : Obj -> Scene -> Effect Obj Scene;
  (** [canvas.add] puts the object on top; the canvas then raises
      [object:added] *)
  canvas_add : Obj -> Scene -> Scene;
  canvas_bringToFront : Obj -> Scene -> Effect Obj Scene;
  canvas_sendToBack : Obj -> Scene -> Effect Obj Scene;
  canvas_setActiveObject : Obj -> Scene -> Effect Obj Scene;
  (** assigning [canvas.backgroundColor] raises nothing *)
  canvas_setBackgroundColor : jsval -> Scene -> Scene;
  canvas_toDataURL : string -> option Q -> Scene -> string;
  canvas_toSVG : Scene -> string;
  obj_clone : Obj -> Obj;
  clone_is_late : Obj -> bool;
  obj_left : Obj -> option Q;
  obj_top : Obj -> option Q;
  obj_set_left_top : Q -> Q -> Obj -> Obj;
  (** the sum of two doubles *)
  float_add : Q -> Q -> Q;
  (** The callback of [fabric.Image.fromURL] in [importImage]: the scaling
      and centring of the image (floating-point geometry), [canvas.add] and
      [canvas.centerObject]. *)
  image_place : string -> jsval -> Scene -> Effect Obj Scene;
  image_is_late : string -> bool
}.

Record PresetState : Type := {
  preset_id : string;
  preset_name : string;
  settings : jsval;
  thumbnail : option string;
  createdAt : Z
}.

(** The object handed to [JSON.stringify] by [saveToLocalStorage]. *)
Record SessionData `{Surface} : Type := {
  sd_presets : list PresetState;
  sd_canvasSettings : jsval;
  sd_textSettings : jsval;
  sd_canvasData : option SceneJSON
}.

(** What [loadFromLocalStorage] reads off the parsed blob: [None] for a
    falsy [presets] or [canvasData], the raw values of the two settings. *)
Record SessionRead `{Surface} : Type := {
  sr_presets : option (list PresetState);
  sr_canvasSettings : jsval;
  sr_textSettings : jsval;
  sr_canvasData : option SceneJSON
}.

Class Codec `{Surface} : Type := {
  session_stringify : SessionData -> string;
  (** [None]: [JSON.parse] throws, or the parsed value has no properties. *)
  session_parse : string -> option SessionRead
}.

(** ** The editor store ([useEditorStore]) *)

Module Store.
Section Store.
Context `{Cd : Codec}.

Record HistoryState : Type := {
  hist_id : string;
  action : string;
  timestamp : Z;
  canvasState : string
}.

(** The bound fabric canvas: its content and its pixel size. *)
Record Canvas : Type := {
  scene : Scene;
  width : jsval;
  height : jsval
}.

Record EditorState : Type := {
  canvas : option Canvas;
  activeObject : option Obj;
  selectedTool : string;
  isLoading : bool;
  history : list HistoryState;
  historyIndex : Z;
  presets : list PresetState;
  currentImage : option string;
  canvasSettings : jsval;
  textSettings : jsval;
  isDirty : bool
}.

Definition defaultCanvasSettings : jsval :=
  obj [("width", JNum 800); ("height", JNum 600);
       ("backgroundColor", JStr "#ffffff"); ("fitMode", JStr "fit")].

Definition defaultTextSettings : jsval :=
  obj [("fontFamily", JStr "Arial"); ("fontSize", JNum 32);
       ("fontWeight", JStr "normal"); ("fill", JStr "#000000");
       ("textAlign", JStr "left"); ("stroke", JStr ""); ("strokeWidth", JNum 0);
       ("shadow", JNull); ("backgroundColor", JStr "")].

Definition initial : EditorState := {|
  canvas := None;
  activeObject := None;
  selectedTool := "select";
  isLoading := false;
  history := [];
  historyIndex := -1;
  presets := [];
  currentImage := None;
  canvasSettings := defaultCanvasSettings;
  textSettings := defaultTextSettings;
  isDirty := false
|}.

(** zustand's [set({ field: v })], one function per field. *)
Definition set_canvas (v : option Canvas) (s : EditorState) : EditorState :=
  {| canvas := v; activeObject := activeObject s; selectedTool := selectedTool s;
     isLoading := isLoading s; history := history s; historyIndex := historyIndex s;
     presets := presets s; currentImage := currentImage s;
     canvasSettings := canvasSettings s; textSettings := textSettings s;
     isDirty := isDirty s |}.
Definition set_activeObject (v : option Obj) (s : EditorState) : EditorState :=
  {| canvas := canvas s; activeObject := v; selectedTool := selectedTool s;
     isLoading := isLoading s; history := history s; historyIndex := historyIndex s;
     presets := presets s; currentImage := currentImage s;
     canvasSettings := canvasSettings s; textSettings := textSettings s;
     isDirty := isDirty s |}.
Definition set_selectedTool (v : string) (s : EditorState) : EditorState :=
  {| canvas := canvas s; activeObject := activeObject s; selectedTool := v;
     isLoading := isLoading s; history := history s; historyIndex := historyIndex s;
     presets := presets s; currentImage := currentImage s;
     canvasSettings := canvasSettings s; textSettings := textSettings s;
     isDirty := isDirty s |}.
Definition set_isLoading (v : bool) (s : EditorState) : EditorState :=
  {| canvas := canvas s; activeObject := activeObject s; selectedTool := selectedTool s;
     isLoading := v; history := history s; historyIndex := historyIndex s;
     presets := presets s; currentImage := currentImage s;
     canvasSettings := canvasSettings s; textSettings := textSettings s;
     isDirty := isDirty s |}.
Definition set_history (v : list HistoryState) (s : EditorState) : EditorState :=
  {| canvas := canvas s; activeObject := activeObject s; selectedTool := selectedTool s;
     isLoading := isLoading s; history := v; historyIndex := historyIndex s;
     presets := presets s; currentImage := currentImage s;
     canvasSettings := canvasSettings s; textSettings := textSettings s;
     isDirty := isDirty s |}.
Definition set_historyIndex (v : Z) (s : EditorState) : EditorState :=
  {| canvas := canvas s; activeObject := activeObject s; selectedTool := selectedTool s;
     isLoading := isLoading s; history := history s; historyIndex := v;
     presets := presets s; currentImage := currentImage s;
     canvasSettings := canvasSettings s; textSettings := textSettings s;
     isDirty := isDirty s |}.
Definition set_presets (v : list PresetState) (s : EditorState) : EditorState :=
  {| canvas := canvas s; activeObject := activeObject s; selectedTool := selectedTool s;
     isLoading := isLoading s; history := history s; historyIndex := historyIndex s;
     presets := v; currentImage := currentImage s;
     canvasSettings := canvasSettings s; textSettings := textSettings s;
     isDirty := isDirty s |}.
Definition set_currentImage (v : option string) (s : EditorState) : EditorState :=
  {| canvas := canvas s; activeObject := activeObject s; selectedTool := selectedTool s;
     isLoading := isLoading s; history := history s; historyIndex := historyIndex s;
     presets := presets s; currentImage := v;
     canvasSettings := canvasSettings s; textSettings := textSettings s;
     isDirty := isDirty s |}.
Definition set_canvasSettings (v : jsval) (s : EditorState) : EditorState :=
  {| canvas := canvas s; activeObject := activeObject s; selectedTool := selectedTool s;
     isLoading := isLoading s; history := history s; historyIndex := historyIndex s;
     presets := presets s; currentImage := currentImage s;
     canvasSettings := v; textSettings := textSettings s;
     isDirty := isDirty s |}.
Definition set_textSettings (v : jsval) (s : EditorState) : EditorState :=
  {| canvas := canvas s; activeObject := activeObject s; selectedTool := selectedTool s;
     isLoading := isLoading s; history := history s; historyIndex := historyIndex s;
     presets := presets s; currentImage := currentImage s;
     canvasSettings := canvasSettings s; textSettings := v;
     isDirty := isDirty s |}.
Definition set_isDirty (v : bool) (s : EditorState) : EditorState :=
  {| canvas := canvas s; activeObject := activeObject s; selectedTool := selectedTool s;
     isLoading := isLoading s; history := history s; historyIndex := historyIndex s;
     presets := presets s; currentImage := currentImage s;
     canvasSettings := canvasSettings s; textSettings := textSettings s;
     isDirty := v |}.

(** A mutation of the bound canvas' content. *)
Definition on_scene (f : Scene -> Scene) (c : Canvas) : Canvas :=
  {| scene := f (scene c); width := width c; height := height c |}.

(** *** Canvas actions *)

Definition setCanvas (c : Canvas) : EditorState -> EditorState := set_canvas (Some c).
Definition setActiveObject (o : option Obj) : EditorState -> EditorState := set_activeObject o.
Definition setSelectedTool (tool : string) : EditorState -> EditorState := set_selectedTool tool.
Definition setLoading (loading : bool) : EditorState -> EditorState := set_isLoading loading.
Definition setCurrentImage (image : option string) : EditorState -> EditorState :=
  set_currentImage image.
Definition setIsDirty (dirty : bool) : EditorState -> EditorState := set_isDirty dirty.

(** *** History actions *)

(** The entry [saveToHistory] builds: [id] is the value [generateId()]
    returns, [now] the value of [Date.now()]. *)
Definition newHistoryItem (c : Canvas) (act id : string) (now : Z) : HistoryState :=
  {| hist_id := id; action := act; timestamp := now;
     canvasState := JSON_stringify (canvas_toJSON (scene c)) |}.

Definition saveToHistory (act : string) (id : string) (now : Z)
    (s : EditorState) : EditorState :=
  match canvas s with
  | None => s
  | Some c =>
      let newHistory :=
        slice 0 (historyIndex s + 1) (history s) ++ [newHistoryItem c act id now] in
      let limitedHistory := slice_from (-50) newHistory in
      set_isDirty true
        (set_historyIndex (Z.of_nat (length limitedHistory) - 1)
           (set_history limitedHistory s))
  end.

(** *** The canvas listeners *)

(** The handlers that [CanvasRenderer] registers on the canvas it creates
    and binds (lines 39 to 61); no other canvas is ever bound. [id] and [now]
    are what [generateId()] and [Date.now()] return to a handler that
    records. *)
Definition listener (ev : CanvasEvent Obj) (id : string) (now : Z)
    (s : EditorState) : EditorState :=
  match ev with
  | selection_created selected | selection_updated selected =>
      setActiveObject (head selected) s
  | selection_cleared => setActiveObject None s
  | object_modified => saveToHistory "Object modified" id now s
  | object_added => saveToHistory "Object added" id now s
  | object_removed => saveToHistory "Object removed" id now s
  end.

(** The canvas is one shared object: the store sees its content change. *)
Definition show (sc : Scene) (s : EditorState) : EditorState :=
  match canvas s with
  | Some c => set_canvas (Some (on_scene (fun _ => sc) c)) s
  | None => s
  end.

(** The handlers run for each event a call raises, on the canvas as it is
    at that moment. [fresh k] holds the id and the time that the handler of
    the [k]-th event of an operation draws. *)
Fixpoint raise (fresh : nat -> string * Z) (k : nat)
    (evs : list (CanvasEvent Obj * Scene)) (s : EditorState) : EditorState :=
  match evs with
  | [] => s
  | (ev, sc) :: rest =>
      raise fresh (S k) rest (listener ev (fresh k).1 (fresh k).2 (show sc s))
  end.

(** [canvas.add(o)]: the object is put on the canvas, then [object:added]
    is raised. *)
Definition added (o : Obj) (sc : Scene) : Effect Obj Scene :=
  {| fired := [(object_added, canvas_add o sc)]; result := canvas_add o sc |}.

(** A call into the bound canvas, seen from the store. *)
Definition perform (fresh : nat -> string * Z) (k : nat) (e : Effect Obj Scene)
    (s : EditorState) : EditorState :=
  show (result e) (raise fresh k (fired e) s).

(** *** Callbacks *)

(** [(x || 0) + 10] for a coordinate that may be [undefined]. *)
Definition offset10 (x : option Q) : Q :=
  match x with
  | Some q => if Qeq_bool q 0 then float_add 0 10 else float_add q 10
  | None => float_add 0 10
  end.

(** What is left to do once the canvas or an object is ready: the load and
    the callback of [undo] and [redo], with the cursor the callback writes;
    the load of [loadFromLocalStorage]; the callback of [clone] in
    [duplicateSelectedObject]; the callback of [fabric.Image.fromURL] in
    [importImage], with the canvas settings [importImage] read. *)
Inductive Task : Type :=
  | HistoryLoad (canvasState : string) (cursor : Z)
  | SessionLoad (canvasData : SceneJSON)
  | Clone (o : Obj)
  | ImageLoad (imageUrl : string) (canvasSettings : jsval).

Definition is_late (t : Task) : bool :=
  match t with
  | HistoryLoad text _ => text_loads_late text
  | SessionLoad canvasData => object_loads_late canvasData
  | Clone o => clone_is_late o
  | ImageLoad imageUrl _ => image_is_late imageUrl
  end.

Definition history_load (t : Task) : bool :=
  match t with HistoryLoad _ _ => true | _ => false end.

Definition session_load (t : Task) : bool :=
  match t with SessionLoad _ => true | _ => false end.

(** The task runs, at once or late. The canvas it works on is the one its
    closure holds, which is the one the store holds. *)
Definition complete (fresh : nat -> string * Z) (t : Task) (s : EditorState) : EditorState :=
  match canvas s with
  | None => s
  | Some c =>
      match t with
      | HistoryLoad text cursor =>
          set_isDirty true
            (set_activeObject None
               (set_historyIndex cursor
                  (perform fresh 0 (canvas_loadFromJSON text (scene c)) s)))
      | SessionLoad canvasData =>
          perform fresh 0 (canvas_loadFromObject canvasData (scene c)) s
      | Clone o =>
          let cloned0 := obj_clone o in
          let cloned :=
            obj_set_left_top (offset10 (obj_left cloned0)) (offset10 (obj_top cloned0))
              cloned0 in
          let selected := canvas_setActiveObject cloned (canvas_add cloned (scene c)) in
          let k := S (length (fired selected)) in
          set_activeObject (Some cloned)
            (saveToHistory "Duplicate object" (fresh k).1 (fresh k).2
               (perform fresh 1 selected (perform fresh 0 (added cloned (scene c)) s)))
      | ImageLoad imageUrl st =>
          let placed := image_place imageUrl st (scene c) in
          let k := length (fired placed) in
          set_currentImage (Some imageUrl)
            (saveToHistory "Import image" (fresh k).1 (fresh k).2
               (perform fresh 0 placed s))
      end
  end.

(** *** Undo and redo *)

(** The part of [undo] that runs before the load: the guard and the
    snapshot it picks. [Throw]: the TypeError of reading [canvasState] off
    an [undefined] entry. The cursor in the task is computed from the cursor
    read here. *)
Definition undo_request (s : EditorState) : outcome (option Task) :=
  match canvas s with
  | None => Ret None
  | Some _ =>
      if historyIndex s <=? 0 then Ret None
      else
        match index (history s) (historyIndex s - 1) with
        | None => Throw
        | Some previousState =>
            Ret (Some (HistoryLoad (canvasState previousState) (historyIndex s - 1)))
        end
  end.

Definition redo_request (s : EditorState) : outcome (option Task) :=
  match canvas s with
  | None => Ret None
  | Some _ =>
      if historyIndex s >=? Z.of_nat (length (history s)) - 1 then Ret None
      else
        match index (history s) (historyIndex s + 1) with
        | None => Throw
        | Some nextState =>
            Ret (Some (HistoryLoad (canvasState nextState) (historyIndex s + 1)))
        end
  end.

(** [undo] and [redo] when the load completes before they return. *)
Definition undo (fresh : nat -> string * Z) (s : EditorState) : outcome EditorState :=
  match undo_request s with
  | Throw => Throw
  | Ret None => Ret s
  | Ret (Some t) => Ret (complete fresh t s)
  end.

Definition redo (fresh : nat -> string * Z) (s : EditorState) : outcome EditorState :=
  match redo_request s with
  | Throw => Throw
  | Ret None => Ret s
  | Ret (Some t) => Ret (complete fresh t s)
  end.

Definition canUndo (s : EditorState) : bool := historyIndex s >? 0.

Definition canRedo (s : EditorState) : bool :=
  historyIndex s <? Z.of_nat (length (history s)) - 1.

(** *** Preset actions of the store *)

Definition savePreset (name : string) (st : jsval) (id : string) (now : Z)
    (s : EditorState) : EditorState :=
  let newPreset :=
    {| preset_id := id; preset_name := name; settings := st;
       thumbnail := None; createdAt := now |} in
  set_presets (presets s ++ [newPreset]) s.

Definition updateTextSettings (st : jsval) (s : EditorState) : EditorState :=
  set_isDirty true (set_textSettings (spread (textSettings s) st) s).

(** [Throw]: [preset.settings] is [undefined] or [null]. *)
Definition loadPreset (presetId : string) (s : EditorState) : outcome EditorState :=
  match List.find (fun p => String.eqb (preset_id p) presetId) (presets s), canvas s with
  | Some preset, Some _ =>
      match get_prop (settings preset) "textSettings" with
      | Throw => Throw
      | Ret ts => if truthy ts then Ret (updateTextSettings ts s) else Ret s
      end
  | _, _ => Ret s
  end.

Definition deletePreset (presetId : string) (s : EditorState) : EditorState :=
  set_presets
    (List.filter (fun p => negb (String.eqb (preset_id p) presetId)) (presets s)) s.

(** *** Canvas settings *)

Definition updateCanvasSettings (st : jsval) (s : EditorState) : EditorState :=
  let newSettings := spread (canvasSettings s) st in
  let canvas' :=
    match canvas s with
    | Some c =>
        Some {| scene := canvas_setBackgroundColor (field newSettings "backgroundColor")
                           (scene c);
                width := field newSettings "width";
                height := field newSettings "height" |}
    | None => None
    end in
  set_isDirty true (set_canvasSettings newSettings (set_canvas canvas' s)).

(** *** Object manipulation *)

Definition deleteSelectedObject (fresh : nat -> string * Z) (s : EditorState) : EditorState :=
  match canvas s, activeObject s with
  | Some c, Some o =>
      let removed := canvas_remove o (scene c) in
      let k := length (fired removed) in
      set_activeObject None
        (saveToHistory "Delete object" (fresh k).1 (fresh k).2 (perform fresh 0 removed s))
  | _, _ => s
  end.

(** The guard of [duplicateSelectedObject]; the rest is the [Clone] task. *)
Definition duplicate_request (s : EditorState) : option Task :=
  match canvas s, activeObject s with
  | Some _, Some o => Some (Clone o)
  | _, _ => None
  end.

Definition bringToFront (fresh : nat -> string * Z) (s : EditorState) : EditorState :=
  match canvas s, activeObject s with
  | Some c, Some o =>
      let moved := canvas_bringToFront o (scene c) in
      let k := length (fired moved) in
      saveToHistory "Bring to front" (fresh k).1 (fresh k).2 (perform fresh 0 moved s)
  | _, _ => s
  end.

Definition sendToBack (fresh : nat -> string * Z) (s : EditorState) : EditorState :=
  match canvas s, activeObject s with
  | Some c, Some o =>
      let moved := canvas_sendToBack o (scene c) in
      let k := length (fired moved) in
      saveToHistory "Send to back" (fresh k).1 (fresh k).2 (perform fresh 0 moved s)
  | _, _ => s
  end.

(** A tool or a panel adds an object to the canvas ([canvas.add]). *)
Definition canvas_edit_add (o : Obj) (fresh : nat -> string * Z) (s : EditorState)
    : EditorState :=
  match canvas s with
  | Some c => perform fresh 0 (added o (scene c)) s
  | None => s
  end.

(** *** Export and import *)

Inductive ExportFormat : Type := Png | Jpg | Svg.

Definition exportCanvas (format : ExportFormat) (s : EditorState) : option string :=
  match canvas s with
  | None => None
  | Some c =>
      match format with
      | Png => Some (canvas_toDataURL "image/png" None (scene c))
      | Jpg => Some (canvas_toDataURL "image/jpeg" (Some (9 # 10)%Q) (scene c))
      | Svg => Some (canvas_toSVG (scene c))
      end
  end.

(** The guard of [importImage]; the rest is the [ImageLoad] task. *)
Definition import_request (imageUrl : string) (s : EditorState) : option Task :=
  match canvas s with
  | None => None
  | Some _ => Some (ImageLoad imageUrl (canvasSettings s))
  end.

(** *** Local storage *)

(** The store together with the one [localStorage] slot it uses,
    ['image-editor-data'], and the callbacks that are still to come. *)
Record World : Type := {
  store : EditorState;
  localStorage : option string;
  pending : list Task
}.

Definition on_store (f : EditorState -> EditorState) (w : World) : World :=
  {| store := f (store w); localStorage := localStorage w; pending := pending w |}.

(** A task runs inside the operation that starts it, unless it is late:
    then it waits. *)
Definition launch (fresh : nat -> string * Z) (t : Task) (w : World) : World :=
  if is_late t
  then {| store := store w; localStorage := localStorage w;
          pending := pending w ++ [t] |}
  else on_store (complete fresh t) w.

(** The [k]-th waiting task runs. [restoring] tells the load of a saved
    session from the other callbacks. *)
Definition finish (restoring : bool) (k : nat) (fresh : nat -> string * Z)
    (w : World) : World :=
  match pending w !! k with
  | Some t =>
      if bool_decide (session_load t = restoring)
      then {| store := complete fresh t (store w); localStorage := localStorage w;
              pending := delete k (pending w) |}
      else w
  | None => w
  end.

(** [stored = false]: [localStorage.setItem] throws (quota, disabled
    storage), so the [set] after it is never reached. *)
Definition saveToLocalStorage (stored : bool) (w : World) : outcome World :=
  let state := store w in
  let dataToSave :=
    {| sd_presets := presets state;
       sd_canvasSettings := canvasSettings state;
       sd_textSettings := textSettings state;
       sd_canvasData :=
         match canvas state with
         | Some c => Some (canvas_toJSON (scene c))
         | None => None
         end |} in
  if stored then
    Ret {| store := set_isDirty false state;
           localStorage := Some (session_stringify dataToSave);
           pending := pending w |}
  else Throw.

(** [x || d] *)
Definition or_default (x d : jsval) : jsval := if truthy x then x else d.

Definition loadFromLocalStorage (fresh : nat -> string * Z) (w : World) : World :=
  match localStorage w with
  | None => w
  | Some saved =>
      if negb (string_nonempty saved) then w
      else
        match session_parse saved with
        | None => w
        | Some data =>
            let w1 :=
              on_store
                (fun s =>
                   set_textSettings (or_default (sr_textSettings data) defaultTextSettings)
                     (set_canvasSettings
                        (or_default (sr_canvasSettings data) defaultCanvasSettings)
                        (set_presets (default [] (sr_presets data)) s))) w in
            match sr_canvasData data, canvas (store w) with
            | Some canvasData, Some _ => launch fresh (SessionLoad canvasData) w1
            | _, _ => w1
            end
        end
  end.

Definition clearLocalStorage (w : World) : World :=
  {| store := set_isDirty false (store w); localStorage := None; pending := pending w |}.

(** *** Sequences of store operations *)

(** The actions of the store, an object added to the canvas by a tool, and
    the late callbacks. An operation during which handlers or callbacks
    record carries [fresh], the ids and times they draw. *)
Inductive Op : Type :=
  | OSetCanvas (c : Canvas)
  | OSetActiveObject (o : option Obj)
  | OSetSelectedTool (tool : string)
  | OSetLoading (loading : bool)
  | OSetCurrentImage (image : option string)
  | OSetIsDirty (dirty : bool)
  | OSaveToHistory (act id : string) (now : Z)
  | OUndo (fresh : nat -> string * Z)
  | ORedo (fresh : nat -> string * Z)
  | OSavePreset (name : string) (st : jsval) (id : string) (now : Z)
  | OLoadPreset (presetId : string)
  | ODeletePreset (presetId : string)
  | OUpdateCanvasSettings (st : jsval)
  | OUpdateTextSettings (st : jsval)
  | ODeleteSelectedObject (fresh : nat -> string * Z)
  | ODuplicateSelectedObject (fresh : nat -> string * Z)
  | OBringToFront (fresh : nat -> string * Z)
  | OSendToBack (fresh : nat -> string * Z)
  | OExportCanvas (format : ExportFormat)
  | OImportImage (imageUrl : string) (fresh : nat -> string * Z)
  | OSaveToLocalStorage (stored : bool)
  | OLoadFromLocalStorage (fresh : nat -> string * Z)
  | OClearLocalStorage
  | OCanvasAdd (o : Obj) (fresh : nat -> string * Z)
  | OCallback (k : nat) (fresh : nat -> string * Z)
  | OSessionLoaded (k : nat) (fresh : nat -> string * Z).

(** The state an operation leaves behind; one that throws leaves the state
    it found. *)
Definition settle {A} (o : outcome A) (fallback : A) : A :=
  match o with Ret a => a | Throw => fallback end.

(** An operation that may leave a task: nothing to do, or a task to launch;
    one that throws changes nothing. *)
Definition request (fresh : nat -> string * Z) (r : outcome (option Task)) (w : World)
    : World :=
  match r with
  | Ret (Some t) => launch fresh t w
  | Ret None | Throw => w
  end.

Definition exec (op : Op) (w : World) : World :=
  match op with
  | OSetCanvas c => on_store (setCanvas c) w
  | OSetActiveObject o => on_store (setActiveObject o) w
  | OSetSelectedTool tool => on_store (setSelectedTool tool) w
  | OSetLoading loading => on_store (setLoading loading) w
  | OSetCurrentImage image => on_store (setCurrentImage image) w
  | OSetIsDirty dirty => on_store (setIsDirty dirty) w
  | OSaveToHistory act id now => on_store (saveToHistory act id now) w
  | OUndo fresh => request fresh (undo_request (store w)) w
  | ORedo fresh => request fresh (redo_request (store w)) w
  | OSavePreset name st id now => on_store (savePreset name st id now) w
  | OLoadPreset presetId => on_store (fun s => settle (loadPreset presetId s) s) w
  | ODeletePreset presetId => on_store (deletePreset presetId) w
  | OUpdateCanvasSettings st => on_store (updateCanvasSettings st) w
  | OUpdateTextSettings st => on_store (updateTextSettings st) w
  | ODeleteSelectedObject fresh => on_store (deleteSelectedObject fresh) w
  | ODuplicateSelectedObject fresh => request fresh (Ret (duplicate_request (store w))) w
  | OBringToFront fresh => on_store (bringToFront fresh) w
  | OSendToBack fresh => on_store (sendToBack fresh) w
  | OExportCanvas _ => w
  | OImportImage imageUrl fresh => request fresh (Ret (import_request imageUrl (store w))) w
  | OSaveToLocalStorage stored => settle (saveToLocalStorage stored w) w
  | OLoadFromLocalStorage fresh => loadFromLocalStorage fresh w
  | OClearLocalStorage => clearLocalStorage w
  | OCanvasAdd o fresh => on_store (canvas_edit_add o fresh) w
  | OCallback k fresh => finish false k fresh w
  | OSessionLoaded k fresh => finish true k fresh w
  end.

Definition run (ops : list Op) (w : World) : World := foldl (fun w op => exec op w) w ops.

(** A fresh session: the initial store, whatever an earlier session left in
    local storage, and nothing waiting. *)
Definition start (saved : option string) : World :=
  {| store := initial; localStorage := saved; pending := [] |}.

(** Sessions that a sequence of operations leads to. [OSetCanvas] may put a
    canvas with any content at any point of a run, which covers the edits
    made on the canvas that are not listed as operations here. *)
Definition reachable (w : World) : Prop :=
  exists saved ops, w = run ops (start saved).

(** *** Notions used to state the properties of the store *)

(** The cursor is [-1] on an empty timeline and a valid index otherwise; the
    timeline holds at most 50 entries, and none before a canvas is bound. *)
Definition history_ok (s : EditorState) : Prop :=
  ((history s = [] /\ historyIndex s = -1) \/
   (0 <= historyIndex s < Z.of_nat (length (history s))))
  /\ (length (history s) <= 50)%nat
  /\ (history s <> [] -> is_Some (canvas s)).

(** What holds of the timeline whatever callbacks were late: as above,
    except that the cursor of a timeline with entries is only known not to
    be negative. *)
Definition timeline_ok (s : EditorState) : Prop :=
  ((history s = [] /\ historyIndex s = -1) \/
   (history s <> [] /\ 0 <= historyIndex s))
  /\ (length (history s) <= 50)%nat
  /\ (history s <> [] -> is_Some (canvas s)).

(** A waiting load of [undo] or [redo] was asked for on a timeline with
    entries, and the cursor its callback is going to write is not negative. *)
Definition task_ok (s : EditorState) (t : Task) : Prop :=
  match t with
  | HistoryLoad _ cursor => history s <> [] /\ 0 <= cursor
  | _ => True
  end.

Definition world_ok (w : World) : Prop :=
  timeline_ok (store w) /\ Forall (task_ok (store w)) (pending w).

(** While handlers record, the timeline keeps at least [b] entries. *)
Definition keeps (b : Z) (s : EditorState) : Prop :=
  is_Some (canvas s)
  /\ (length (history s) <= 50)%nat
  /\ b <= Z.of_nat (length (history s))
  /\ b <= historyIndex s + 2
  /\ -1 <= historyIndex s < Z.of_nat (length (history s)).

(** No load of [undo] or [redo] is waiting. *)
Definition settled (w : World) : Prop :=
  forall t, t ∈ pending w -> history_load t = false.


(** What the session edits: the canvas, the timeline and the two settings
    records. *)
Definition content (s : EditorState)
    : option Canvas * list HistoryState * Z * jsval * jsval :=
  (canvas s, history s, historyIndex s, canvasSettings s, textSettings s).

(** [op] turns a set dirty flag off. *)
Definition clears_dirty (op : Op) (w : World) : Prop :=
  isDirty (store w) = true /\ isDirty (store (exec op w)) = false.

(** The operations that write [isDirty: false]. *)
Definition writes_clean (op : Op) : Prop :=
  op = OSaveToLocalStorage true \/ op = OClearLocalStorage \/ op = OSetIsDirty false.

(** The operations that bind a canvas or restore a saved session; the load
    of [loadFromLocalStorage] is part of the restoring also when it is
    late. *)
Definition binds_or_restores (op : Op) : Prop :=
  (exists c, op = OSetCanvas c)
  \/ (exists fresh, op = OLoadFromLocalStorage fresh)
  \/ (exists k fresh, op = OSessionLoaded k fresh).

(** A run of [saveToHistory] calls. *)
Definition recordings (acts : list (string * string * Z)) : list Op :=
  List.map (fun a => OSaveToHistory a.1.1 a.1.2 a.2) acts.

End Store.
End Store.

(** ** The preset catalog ([ToolPresetsClass]) *)

Module ToolPresets.
Section ToolPresets.
Context `{Cd : Codec}.

(** [JSON.parse]: [None] when it throws a SyntaxError. *)
Variable JSON_parse : string -> option jsval.
(** Number-to-string conversion of the runtime. *)
Variable number_toString : Q -> string.
(** [JSON.stringify] of an export record [{category, preset, exportedAt,
    version}]. *)
Variable export_stringify : string -> PresetState -> Z -> string -> string.

Record PresetCategory : Type := {
  category_id : string;
  category_name : string;
  description : string;
  category_presets : list PresetState
}.

(** What [addPreset] is given: a preset without [id] and [createdAt]. *)
Record PresetDraft : Type := {
  draft_name : string;
  draft_settings : jsval;
  draft_thumbnail : option string
}.

(** [presetCategories]; the order in which a JavaScript [Map] iterates is
    not kept, so [getAllCategories] and [searchPresets] are not modelled, and
    neither is [generateThumbnail], which only draws. *)
Definition registerCategory (category : PresetCategory)
    (presetCategories : gmap string PresetCategory) : gmap string PresetCategory :=
  <[category_id category := category]> presetCategories.

Definition getCategory (categoryId : string)
    (presetCategories : gmap string PresetCategory) : option PresetCategory :=
  presetCategories !! categoryId.

Definition getPreset (categoryId presetId : string)
    (presetCategories : gmap string PresetCategory) : option PresetState :=
  match presetCategories !! categoryId with
  | Some category =>
      List.find (fun p => String.eqb (preset_id p) presetId) (category_presets category)
  | None => None
  end.

Definition with_presets (ps : list PresetState) (c : PresetCategory) : PresetCategory :=
  {| category_id := category_id c; category_name := category_name c;
     description := description c; category_presets := ps |}.

Definition addPreset (categoryId : string) (preset : PresetDraft) (id : string) (now : Z)
    (presetCategories : gmap string PresetCategory) : gmap string PresetCategory :=
  match presetCategories !! categoryId with
  | None => presetCategories
  | Some category =>
      let newPreset :=
        {| preset_id := id; preset_name := draft_name preset;
           settings := draft_settings preset; thumbnail := draft_thumbnail preset;
           createdAt := now |} in
      <[categoryId := with_presets (category_presets category ++ [newPreset]) category]>
        presetCategories
  end.

Definition removePreset (categoryId presetId : string)
    (presetCategories : gmap string PresetCategory) : gmap string PresetCategory :=
  match presetCategories !! categoryId with
  | None => presetCategories
  | Some category =>
      <[categoryId :=
          with_presets
            (List.filter (fun p => negb (String.eqb (preset_id p) presetId))
               (category_presets category))
            category]> presetCategories
  end.

Definition is_array (v : jsval) : bool :=
  match v with JArr _ => true | _ => false end.

(** Returns the preset ([Some]), [undefined] ([None]) when it is not found,
    or throws; the store is returned as the call leaves it in each case.
    The [filters] and [objects] branches have empty bodies, but calling
    [forEach] on an [objects] value that is not an array throws. *)
Definition applyPreset (categoryId presetId : string)
    (presetCategories : gmap string PresetCategory) (s : Store.EditorState)
    : outcome (option PresetState) * Store.EditorState :=
  match getPreset categoryId presetId presetCategories with
  | None => (Ret None, s)
  | Some preset =>
      match get_prop (settings preset) "textSettings" with
      | Throw => (Throw, s)
      | Ret ts =>
          let s1 := if truthy ts then Store.updateTextSettings ts s else s in
          let cs := field (settings preset) "canvasSettings" in
          let s2 := if truthy cs then Store.updateCanvasSettings cs s1 else s1 in
          let objects := field (settings preset) "objects" in
          if truthy objects && bool_decide (is_Some (Store.canvas s))
             && negb (is_array objects)
          then (Throw, s2)
          else (Ret (Some preset), s2)
      end
  end.

(** [initializeDefaultPresets]: [gen k] and [now k] are the results of the
    [k]-th call of [generateId()] and of [Date.now()] in the constructor. *)
Definition make_preset (gen : nat -> string) (now : nat -> Z) (k : nat)
    (name : string) (st : jsval) : PresetState :=
  {| preset_id := gen k; preset_name := name; settings := st;
     thumbnail := None; createdAt := now k |}.

Definition text_style (fontFamily : string) (fontSize : Q) (fontWeight fill textAlign : string)
    (stroke : string) (strokeWidth : Q) : jsval :=
  obj [("fontFamily", JStr fontFamily); ("fontSize", JNum fontSize);
       ("fontWeight", JStr fontWeight); ("fill", JStr fill);
       ("textAlign", JStr textAlign); ("stroke", JStr stroke);
       ("strokeWidth", JNum strokeWidth)].

Definition canvas_size (w h : Q) (backgroundColor fitMode : string) : jsval :=
  obj [("width", JNum w); ("height", JNum h);
       ("backgroundColor", JStr backgroundColor); ("fitMode", JStr fitMode)].

Definition textPresets (gen : nat -> string) (now : nat -> Z) : list PresetState :=
  [ make_preset gen now 0 "Headline Bold"
      (obj [("textSettings", text_style "Inter" 48 "bold" "#1a1a1a" "center" "" 0)]);
    make_preset gen now 1 "Subtitle Light"
      (obj [("textSettings", text_style "Inter" 24 "normal" "#666666" "center" "" 0)]);
    make_preset gen now 2 "Myanmar Title"
      (obj [("textSettings",
             text_style "Pyidaungsu" 36 "bold" "#2563eb" "center" "#ffffff" 1)]);
    make_preset gen now 3 "Outlined Text"
      (obj [("textSettings",
             text_style "Montserrat" 42 "bold" "#ffffff" "center" "#000000" 3)]) ].

Definition canvasPresets (gen : nat -> string) (now : nat -> Z) : list PresetState :=
  [ make_preset gen now 4 "Instagram Post"
      (obj [("canvasSettings", canvas_size 1080 1080 "#ffffff" "fill")]);
    make_preset gen now 5 "Instagram Story"
      (obj [("canvasSettings", canvas_size 1080 1920 "#000000" "fit")]);
    make_preset gen now 6 "Facebook Cover"
      (obj [("canvasSettings", canvas_size 1200 630 "#f8f9fa" "fill")]);
    make_preset gen now 7 "YouTube Thumbnail"
      (obj [("canvasSettings", canvas_size 1280 720 "#ff0000" "fill")]) ].

Definition brandPresets (gen : nat -> string) (now : nat -> Z) : list PresetState :=
  [ make_preset gen now 8 "Modern Blue"
      (obj [("textSettings",
             obj [("fontFamily", JStr "Inter"); ("fontSize", JNum 32);
                  ("fontWeight", JStr "600"); ("fill", JStr "#2563eb");
                  ("textAlign", JStr "left")]);
            ("canvasSettings", obj [("backgroundColor", JStr "#f1f5f9")])]);
    make_preset gen now 9 "Elegant Gold"
      (obj [("textSettings",
             text_style "Georgia" 36 "normal" "#d4af37" "center" "#1a1a1a" 0.5);
            ("canvasSettings", obj [("backgroundColor", JStr "#1a1a1a")])]) ].

Definition initializeDefaultPresets (gen : nat -> string) (now : nat -> Z)
    : gmap string PresetCategory :=
  registerCategory
    {| category_id := "brand"; category_name := "Brand Themes";
       description := "Complete brand styling presets";
       category_presets := brandPresets gen now |}
    (registerCategory
       {| category_id := "canvas"; category_name := "Canvas Sizes";
          description := "Standard canvas dimensions for social media";
          category_presets := canvasPresets gen now |}
       (registerCategory
          {| category_id := "text"; category_name := "Text Styles";
             description := "Pre-configured text styling presets";
             category_presets := textPresets gen now |}
          ∅)).

Definition exportPreset (categoryId presetId : string) (now : Z)
    (presetCategories : gmap string PresetCategory) : option string :=
  match getPreset categoryId presetId presetCategories with
  | None => None
  | Some preset => Some (export_stringify categoryId preset now "1.0")
  end.

(** ToString, as [v + ' (Imported)'] applies it to [v]. *)
Fixpoint to_string (v : jsval) : string :=
  match v with
  | JUndefined => "undefined"
  | JNull => "null"
  | JBool true => "true"
  | JBool false => "false"
  | JNum q => number_toString q
  | JStr s => s
  | JArr l =>
      String.concat ","
        (List.map (fun e => match e with
                            | JUndefined | JNull => ""
                            | _ => to_string e
                            end) l)
  | JObj _ => "[object Object]"
  end.

(** [Map.prototype.get] with a key that need not be a string: the catalog
    has string keys only. *)
Definition addPreset_any (categoryId : jsval) (preset : PresetDraft) (id : string) (now : Z)
    (presetCategories : gmap string PresetCategory) : gmap string PresetCategory :=
  match categoryId with
  | JStr k => addPreset k preset id now presetCategories
  | _ => presetCategories
  end.

(** Every exception of the [try] block ends in [return false]. Past the
    check both values are truthy, so reading their properties cannot throw. *)
Definition importPreset (data : string) (id : string) (now : Z)
    (presetCategories : gmap string PresetCategory)
    : bool * gmap string PresetCategory :=
  match JSON_parse data with
  | None => (false, presetCategories)
  | Some parsed =>
      match get_prop parsed "category" with
      | Throw => (false, presetCategories)
      | Ret category =>
          let preset := field parsed "preset" in
          if negb (truthy category) || negb (truthy preset)
          then (false, presetCategories)
          else
            (true,
             addPreset_any category
               {| draft_name := to_string (field preset "name") +:+ " (Imported)";
                  draft_settings := field preset "settings";
                  draft_thumbnail := None |}
               id now presetCategories)
      end
  end.

End ToolPresets.
End ToolPresets.

(** ** The tool registry ([ToolRegistryClass]) *)

Module ToolRegistry.
Section ToolRegistry.
(** The fabric canvas as the tool hooks see it, and the pointer event they
    are handed. *)
Context {Canvas : Type} {Event : Type}.

Inductive ToolCategory : Type :=
  | selection_cat | drawing | text_cat | shapes | adjustments | ai | branding.

Record ToolHandler : Type := {
  activate : Canvas -> Canvas;
  deactivate : Canvas -> Canvas;
  onMouseDown : option (Event -> Canvas -> Canvas);
  onMouseMove : option (Event -> Canvas -> Canvas);
  onMouseUp : option (Event -> Canvas -> Canvas)
}.

(** The optional React [component] is presentation only and is left out. *)
Record ToolDefinition : Type := {
  tool_id : string;
  tool_name : string;
  icon : string;
  category : ToolCategory;
  tool_description : string;
  shortcut : option string;
  handler : option ToolHandler
}.

(** Canvases are objects: the registry keeps a reference, hooks mutate the
    object behind it. *)
Definition ref : Type := nat.

Record Registry : Type := {
  tools : gmap string ToolDefinition;
  activeTool : option string;
  activeCanvas : option ref
}.

(** A hook invocation: which tool's hook, on which canvas. *)
Inductive HookCall : Type :=
  | Deactivate (tool : string) (canvas : ref)
  | Activate (tool : string) (canvas : ref).

(** Everything a call can affect outside the registry: the canvas objects
    and the log of hook invocations, oldest first. *)
Record Env : Type := {
  canvases : gmap ref Canvas;
  calls : list HookCall
}.

Definition empty_registry : Registry :=
  {| tools := ∅; activeTool := None; activeCanvas := None |}.

Definition register (tool : ToolDefinition) (r : Registry) : Registry :=
  {| tools := <[tool_id tool := tool]> (tools r);
     activeTool := activeTool r; activeCanvas := activeCanvas r |}.

Definition unregister (toolId : string) (r : Registry) : Registry :=
  {| tools := delete toolId (tools r);
     activeTool := activeTool r; activeCanvas := activeCanvas r |}.

(** [getAllTools] and [getToolsByCategory] list the catalog in insertion
    order, which the map does not keep; they are not modelled. *)
Definition getTool (toolId : string) (r : Registry) : option ToolDefinition :=
  tools r !! toolId.

(** Invoking a hook on the canvas behind [c], and logging it. *)
Definition invoke (hook : Canvas -> Canvas) (call : HookCall) (c : ref) (e : Env) : Env :=
  {| canvases := alter hook c (canvases e); calls := calls e ++ [call] |}.

(** The first block of [activateTool]: "Deactivate current tool". The guard
    [this.activeTool && this.activeCanvas] is a truthiness test, which an
    empty id fails. *)
Definition deactivateCurrent (r : Registry) (e : Env) : Env :=
  match activeTool r, activeCanvas r with
  | Some current, Some c =>
      if string_nonempty current then
        match tools r !! current with
        | Some currentTool =>
            match handler currentTool with
            | Some h => invoke (deactivate h) (Deactivate current c) c e
            | None => e
            end
        | None => e
        end
      else e
  | _, _ => e
  end.

Definition activateTool (toolId : string) (canvas : ref) (r : Registry) (e : Env)
    : Registry * Env :=
  let e1 := deactivateCurrent r e in
  match tools r !! toolId with
  | Some tool =>
      match handler tool with
      | Some h =>
          ({| tools := tools r; activeTool := Some toolId; activeCanvas := Some canvas |},
           invoke (activate h) (Activate toolId canvas) canvas e1)
      | None => (r, e1)
      end
  | None => (r, e1)
  end.

Definition getActiveTool (r : Registry) : option string := activeTool r.

Definition isToolActive (toolId : string) (r : Registry) : bool :=
  bool_decide (activeTool r = Some toolId).

End ToolRegistry.

Arguments ToolHandler : clear implicits.
Arguments ToolDefinition : clear implicits.
Arguments Registry : clear implicits.
Arguments Env : clear implicits.

(** *** Built-in tools *)

Inductive Shape : Type :=
  | IText (text : string) (left top : Q) (fontFamily : string) (fontSize : Q) (fill : string)
  | Rect (left top width height : Q) (fill stroke : string) (strokeWidth : Q)
  | Circle (left top radius : Q) (fill stroke : string) (strokeWidth : Q).

(** The canvas properties the built-in hooks read and write. *)
Record FabricCanvas : Type := {
  isDrawingMode : bool;
  selection : bool;
  defaultCursor : string;
  objects : list Shape;
  activeShape : option Shape
}.

(** [canvas.getPointer(event.e)] *)
Record Pointer : Type := { pointer_x : Q; pointer_y : Q }.

Definition configure (drawing sel : bool) (cursor : option string) (c : FabricCanvas)
    : FabricCanvas :=
  {| isDrawingMode := drawing; selection := sel;
     defaultCursor := default (defaultCursor c) cursor;
     objects := objects c; activeShape := activeShape c |}.

(** [canvas.add(o); canvas.setActiveObject(o)] *)
Definition add_active (o : Shape) (c : FabricCanvas) : FabricCanvas :=
  {| isDrawingMode := isDrawingMode c; selection := selection c;
     defaultCursor := defaultCursor c;
     objects := objects c ++ [o]; activeShape := Some o |}.

Definition discardActiveObject (c : FabricCanvas) : FabricCanvas :=
  {| isDrawingMode := isDrawingMode c; selection := selection c;
     defaultCursor := defaultCursor c;
     objects := objects c; activeShape := None |}.

Definition shape_tool_deactivate (c : FabricCanvas) : FabricCanvas :=
  configure (isDrawingMode c) true (Some "default") c.

Definition selectTool : ToolDefinition FabricCanvas Pointer := {|
  tool_id := "select"; tool_name := "Select"; icon := "MousePointer";
  category := selection_cat; tool_description := "Select and move objects";
  shortcut := Some "V";
  handler := Some {|
    activate := configure false true (Some "default");
    deactivate := discardActiveObject;
    onMouseDown := None; onMouseMove := None; onMouseUp := None |} |}.

Definition textTool : ToolDefinition FabricCanvas Pointer := {|
  tool_id := "text"; tool_name := "Text"; icon := "Type";
  category := text_cat; tool_description := "Add text to your design";
  shortcut := Some "T";
  handler := Some {|
    activate := configure false false (Some "text");
    deactivate := shape_tool_deactivate;
    (* [text.enterEditing()] only opens the caret and is left out *)
    onMouseDown := Some (fun p =>
      add_active (IText "Edit text" (pointer_x p) (pointer_y p) "Arial" 32 "#000000"));
    onMouseMove := None; onMouseUp := None |} |}.

Definition rectangleTool : ToolDefinition FabricCanvas Pointer := {|
  tool_id := "rectangle"; tool_name := "Rectangle"; icon := "Square";
  category := shapes; tool_description := "Draw rectangles";
  shortcut := Some "R";
  handler := Some {|
    activate := configure false false (Some "crosshair");
    deactivate := shape_tool_deactivate;
    onMouseDown := Some (fun p =>
      add_active (Rect (pointer_x p) (pointer_y p) 100 100
                    "rgba(0, 123, 255, 0.3)" "#007bff" 2));
    onMouseMove := None; onMouseUp := None |} |}.

Definition circleTool : ToolDefinition FabricCanvas Pointer := {|
  tool_id := "circle"; tool_name := "Circle"; icon := "Circle";
  category := shapes; tool_description := "Draw circles";
  shortcut := Some "C";
  handler := Some {|
    activate := configure false false (Some "crosshair");
    deactivate := shape_tool_deactivate;
    onMouseDown := Some (fun p =>
      add_active (Circle (pointer_x p) (pointer_y p) 50
                    "rgba(40, 167, 69, 0.3)" "#28a745" 2));
    onMouseMove := None; onMouseUp := None |} |}.

Definition cropTool : ToolDefinition FabricCanvas Pointer := {|
  tool_id := "crop"; tool_name := "Crop"; icon := "Crop";
  category := adjustments; tool_description := "Crop your image";
  shortcut := Some "P";
  handler := Some {|
    activate := configure false false None;
    deactivate := fun c => configure (isDrawingMode c) true None c;
    onMouseDown := None; onMouseMove := None; onMouseUp := None |} |}.

(** The registry once the module has registered its built-in tools. *)
Definition ToolRegistry : Registry FabricCanvas Pointer :=
  register cropTool (register circleTool (register rectangleTool
    (register textTool (register selectTool empty_registry)))).

(** A freshly created fabric canvas ([selection: true], no objects). *)
Definition blank_canvas : FabricCanvas :=
  {| isDrawingMode := false; selection := true; defaultCursor := "default";
     objects := []; activeShape := None |}.

End ToolRegistry.

(** ** Runs of registry operations *)

Module RegistryRuns.
Import ToolRegistry.
Section RegistryRuns.
Context {Canvas Event : Type}.

(** The three operations that change a registry. *)
Inductive RegistryOp : Type :=
  | ORegister (tool : ToolDefinition Canvas Event)
  | OUnregister (toolId : string)
  | OActivateTool (toolId : string) (canvas : ref).

Definition exec_op (op : RegistryOp) (st : Registry Canvas Event * Env Canvas)
    : Registry Canvas Event * Env Canvas :=
  match op with
  | ORegister tool => (register tool st.1, st.2)
  | OUnregister toolId => (unregister toolId st.1, st.2)
  | OActivateTool toolId canvas => activateTool toolId canvas st.1 st.2
  end.

Definition run_ops (ops : list RegistryOp) (st : Registry Canvas Event * Env Canvas)
    : Registry Canvas Event * Env Canvas :=
  foldl (fun st op => exec_op op st) st ops.

(** A run of [activateTool] calls. *)
Definition activations (l : list (string * ref)) : list RegistryOp :=
  List.map (fun a => OActivateTool a.1 a.2) l.

(** No handler is registered under the empty id. *)
Definition no_nameless (r : Registry Canvas Event) : Prop :=
  forall t, tools r !! "" = Some t -> handler t = None.

(** The tool and canvas the registry holds as active. *)
Definition current (r : Registry Canvas Event) : option (string * ref) :=
  match activeTool r, activeCanvas r with
  | Some a, Some c => Some (a, c)
  | _, _ => None
  end.

(** Reading a log of hook invocations: which tool was activated last, and
    whether its [deactivate] hook has run since. [None] when the log breaks
    the discipline: an [activate] while the last activated tool has not been
    deactivated, or a [deactivate] of anything but the last activated tool on
    its canvas. *)
Definition track (st : option (option (string * ref) * bool)) (call : HookCall)
    : option (option (string * ref) * bool) :=
  match st, call with
  | None, _ => None
  | Some (None, _), Activate b s => Some (Some (b, s), false)
  | Some (Some _, true), Activate b s => Some (Some (b, s), false)
  | Some (Some _, false), Activate _ _ => None
  | Some (Some (a', c'), _), Deactivate a c =>
      if bool_decide (a = a' /\ c = c') then Some (Some (a', c'), true) else None
  | Some (None, _), Deactivate _ _ => None
  end.

Definition exclusive (log : list HookCall) : Prop :=
  is_Some (foldl track (Some (None, false)) log).

(** A registry in which the deactivation block always finds the active
    tool, together with a log that respects the hook discipline and ends
    with the tool the registry holds as active. *)
Definition disciplined (st : Registry Canvas Event * Env Canvas) : Prop :=
  no_nameless st.1
  /\ (forall a, activeTool st.1 = Some a ->
        string_nonempty a = true /\ is_Some (activeCanvas st.1)
        /\ exists t h, tools st.1 !! a = Some t /\ handler t = Some h)
  /\ exists d, foldl track (Some (None, false)) (calls st.2) = Some (current st.1, d).

End RegistryRuns.
End RegistryRuns.

(** ** The editor layout's tool selection ([handleToolSelect]) *)

Module EditorLayout.
Import ToolRegistry.
Section EditorLayout.
Context `{Sf : Surface} {FCanvas Event : Type}.

(** The two singletons the layout drives: the store and the tool registry
    with the canvas objects its hooks act on. *)
Record App : Type := {
  app_store : Store.EditorState;
  app_registry : Registry FCanvas Event;
  app_env : Env FCanvas
}.

(** The function closes over [canvas] as the store held it when the
    component was rendered: [captured] is that value, the reference of the
    canvas object or [None] for [null]. A button calls the closure of the
    latest render; the [keydown] listener keeps the closure of the render in
    which [activeObject] last changed (the effect's dependency list), and so
    may hold [None] while the store holds a canvas. *)
Definition handleToolSelect (captured : option ref) (toolId : string) (a : App) : App :=
  match captured with
  | Some canvasRef =>
      {| app_store := Store.setSelectedTool toolId (app_store a);
         app_registry := (activateTool toolId canvasRef (app_registry a) (app_env a)).1;
         app_env := (activateTool toolId canvasRef (app_registry a) (app_env a)).2 |}
  | None => a
  end.

End EditorLayout.
End EditorLayout.

(** ** The export panel ([handleExport]) *)

Module ExportPanel.
Section ExportPanel.

(** The canvas properties [handleExport] reads and writes. *)
Record ExportCanvas : Type := {
  canvas_backgroundColor : jsval;
  canvas_width : Q;
  canvas_height : Q;
  canvas_zoom : Q
}.

(** Floating-point product and quotient, and the canvas renderers, each of
    which may throw (a tainted canvas, for one). *)
Variable fmul fdiv : Q -> Q -> Q.
Variable canvas_toSVG : ExportCanvas -> outcome string.
Variable canvas_toDataURL : string -> Q -> ExportCanvas -> outcome string.
(** [URL.createObjectURL(new Blob([svg], ...))] *)
Variable createObjectURL : string -> string.

Inductive Format : Type := png | jpg | svg.

Record ExportSettings : Type := {
  format : Format;
  quality : Q;
  scale : Q;
  backgroundColor : string;
  transparent : bool
}.

Record Toast : Type := {
  title : string;
  toast_description : string;
  destructive : bool
}.

(** The panel: the canvas it took from the store, its [isExporting] flag,
    and what it has shown and downloaded so far. *)
Record Panel : Type := {
  canvas : option ExportCanvas;
  isExporting : bool;
  toasts : list Toast;
  downloads : list (string * string)
}.

Definition format_name (f : Format) : string :=
  match f with png => "png" | jpg => "jpg" | svg => "svg" end.

Definition is_svg (f : Format) : bool :=
  match f with svg => true | _ => false end.

Definition set_background (v : jsval) (c : ExportCanvas) : ExportCanvas :=
  {| canvas_backgroundColor := v; canvas_width := canvas_width c;
     canvas_height := canvas_height c; canvas_zoom := canvas_zoom c |}.

(** [canvas.setDimensions({width, height}); canvas.setZoom(z)] *)
Definition resize (w h z : Q) (c : ExportCanvas) : ExportCanvas :=
  {| canvas_backgroundColor := canvas_backgroundColor c; canvas_width := w;
     canvas_height := h; canvas_zoom := z |}.

(** [settings.scale !== 1] *)
Definition scaled (st : ExportSettings) : bool := negb (Qeq_bool (scale st) 1).

(** "Apply export settings". *)
Definition apply_background (st : ExportSettings) (c : ExportCanvas) : ExportCanvas :=
  if negb (transparent st) && negb (is_svg (format st))
  then set_background (JStr (backgroundColor st)) c
  else if transparent st then set_background (JStr "transparent") c
  else c.

(** The body of the [try] block up to the point where the background is
    restored: the data URL, or the exception, with the canvas as it is left. *)
Definition render (st : ExportSettings) (c : ExportCanvas) : outcome string * ExportCanvas :=
  let c1 := apply_background st c in
  if is_svg (format st) then
    match canvas_toSVG c1 with
    | Ret text => (Ret (createObjectURL text), c1)
    | Throw => (Throw, c1)
    end
  else
    let c2 :=
      if scaled st
      then resize (fmul (canvas_width c1) (scale st)) (fmul (canvas_height c1) (scale st))
             (scale st) c1
      else c1 in
    let mimeType := match format st with png => "image/png" | _ => "image/jpeg" end in
    match canvas_toDataURL mimeType (quality st) c2 with
    | Ret url =>
        (Ret url,
         if scaled st
         then resize (fdiv (canvas_width c2) (scale st)) (fdiv (canvas_height c2) (scale st))
                1 c2
         else c2)
    | Throw => (Throw, c2)
    end.

Definition handleExport (st : ExportSettings) (p : Panel) : Panel :=
  match canvas p with
  | None =>
      {| canvas := None; isExporting := isExporting p;
         toasts := toasts p ++
           [{| title := "Export Failed";
               toast_description := "No canvas found to export";
               destructive := true |}];
         downloads := downloads p |}
  | Some c =>
      let originalBackground := canvas_backgroundColor c in
      match render st c with
      | (Ret dataUrl, c') =>
          let filename := "image-editor-export." +:+ format_name (format st) in
          let restored := Some (set_background originalBackground c') in
          if string_nonempty dataUrl then
            {| canvas := restored; isExporting := false;
               toasts := toasts p ++
                 [{| title := "Export Successful";
                     toast_description := "Image exported as " +:+ filename;
                     destructive := false |}];
               downloads := downloads p ++ [(dataUrl, filename)] |}
          else
            {| canvas := restored; isExporting := false;
               toasts := toasts p; downloads := downloads p |}
      | (Throw, c') =>
          {| canvas := Some c'; isExporting := false;
             toasts := toasts p ++
               [{| title := "Export Failed";
                   toast_description := "An error occurred while exporting the image";
                   destructive := true |}];
             downloads := downloads p |}
      end
  end.

End ExportPanel.
End ExportPanel.

(** ** The earlier store (the second [useEditorStore], without a history cap) *)

(** None of this store's actions writes the timeline or the cursor after a
    call into the canvas, so what a handler on the canvas does during such a
    call ([saveToHistory], [setActiveObject]) is the same as an operation of
    its own right after it: handlers are the operations [OSaveToHistory] and
    [OSetActiveObject] of a run, and a call into the canvas leaves its
    [result]. *)

Module DraftStore.
Section DraftStore.
Context `{Sf : Surface}.

(** [JSON.parse] of the saved project; [None] when it throws. *)
Variable scene_parse : string -> option SceneJSON.

Record HistoryEntry : Type := {
  json : option SceneJSON;
  action : string;
  timestamp : Z
}.

Record State : Type := {
  history : list HistoryEntry;
  historyIndex : Z;
  activeObject : option Obj;
  isDirty : bool;
  isLoading : bool;
  presets : list PresetState;
  canvas : option Store.Canvas;
  canvasSettings : jsval;
  textSettings : jsval
}.

Definition initial : State := {|
  history := [];
  historyIndex := 0;
  activeObject := None;
  isDirty := false;
  isLoading := false;
  presets := [];
  canvas := None;
  canvasSettings :=
    obj [("width", JNum 800); ("height", JNum 600); ("backgroundColor", JStr "#fff")];
  textSettings := obj []
|}.

(** [set({ historyIndex: i, isDirty: true })] *)
Definition move_cursor (i : Z) (s : State) : State :=
  {| history := history s; historyIndex := i; activeObject := activeObject s;
     isDirty := true; isLoading := isLoading s; presets := presets s;
     canvas := canvas s; canvasSettings := canvasSettings s;
     textSettings := textSettings s |}.

(** A canvas mutation followed by [set({ activeObject: o, isDirty: d })]. *)
Definition edit (c : option Store.Canvas) (o : option Obj) (d : bool) (s : State) : State :=
  {| history := history s; historyIndex := historyIndex s; activeObject := o;
     isDirty := d; isLoading := isLoading s; presets := presets s;
     canvas := c; canvasSettings := canvasSettings s;
     textSettings := textSettings s |}.

Definition canUndo (s : State) : bool := historyIndex s >? 0.

Definition canRedo (s : State) : bool :=
  historyIndex s <? Z.of_nat (length (history s)) - 1.

(** "Load previous state (implement as needed)": only the cursor moves. *)
Definition undo (s : State) : State :=
  if (historyIndex s >? 0) && bool_decide (is_Some (canvas s))
  then move_cursor (historyIndex s - 1) s
  else s.

Definition redo (s : State) : State :=
  if (historyIndex s <? Z.of_nat (length (history s)) - 1)
     && bool_decide (is_Some (canvas s))
  then move_cursor (historyIndex s + 1) s
  else s.

Definition deleteSelectedObject (s : State) : State :=
  match canvas s, activeObject s with
  | Some c, Some o =>
      edit (Some (Store.on_scene (fun sc => result (canvas_remove o sc)) c)) None true s
  | _, _ => s
  end.

(** [(activeObject.left || 0) + 20] *)
Definition offset20 (x : option Q) : Q :=
  match x with
  | Some q => if Qeq_bool q 0 then float_add 0 20 else float_add q 20
  | None => float_add 0 20
  end.

Definition duplicateSelectedObject (s : State) : State :=
  match canvas s, activeObject s with
  | Some c, Some o =>
      let cloned :=
        obj_set_left_top (offset20 (obj_left o)) (offset20 (obj_top o)) (obj_clone o) in
      edit (Some (Store.on_scene (canvas_add cloned) c)) (Some cloned) true s
  | _, _ => s
  end.

Definition bringToFront (s : State) : State :=
  match canvas s, activeObject s with
  | Some c, Some o =>
      edit (Some (Store.on_scene (fun sc => result (canvas_bringToFront o sc)) c))
        (activeObject s) true s
  | _, _ => s
  end.

(** The store and the local-storage slot ['photoEditorV4Project']. *)
Record World : Type := {
  store : State;
  localStorage : option string
}.

Definition on_store (f : State -> State) (w : World) : World :=
  {| store := f (store w); localStorage := localStorage w |}.

(** [stored = false]: [localStorage.setItem] throws. *)
Definition saveToLocalStorage (stored : bool) (w : World) : outcome World :=
  match canvas (store w) with
  | Some c =>
      if stored then
        Ret {| store := edit (canvas (store w)) (activeObject (store w)) false (store w);
               localStorage := Some (JSON_stringify (canvas_toJSON (Store.scene c))) |}
      else Throw
  | None => Ret w
  end.

Definition updateCanvasSettings (st : jsval) (s : State) : State :=
  let newSettings := spread (canvasSettings s) st in
  {| history := history s; historyIndex := historyIndex s; activeObject := activeObject s;
     isDirty := true; isLoading := isLoading s; presets := presets s;
     canvas :=
       match canvas s with
       | Some c =>
           Some {| Store.scene :=
                     canvas_setBackgroundColor (field newSettings "backgroundColor")
                       (Store.scene c);
                   Store.width := field newSettings "width";
                   Store.height := field newSettings "height" |}
       | None => None
       end;
     canvasSettings := newSettings; textSettings := textSettings s |}.

Definition updateTextSettings (st : jsval) (s : State) : State :=
  {| history := history s; historyIndex := historyIndex s; activeObject := activeObject s;
     isDirty := true; isLoading := isLoading s; presets := presets s;
     canvas := canvas s; canvasSettings := canvasSettings s;
     textSettings := spread (textSettings s) st |}.

Definition setActiveObject (o : option Obj) (s : State) : State :=
  edit (canvas s) o (isDirty s) s.

Definition setCanvas (c : Store.Canvas) (s : State) : State :=
  edit (Some c) (activeObject s) (isDirty s) s.

(** Records whether or not a canvas is bound, and never trims. *)
Definition saveToHistory (act : string) (now : Z) (s : State) : State :=
  let newHistory :=
    slice 0 (historyIndex s + 1) (history s)
      ++ [{| json := match canvas s with
                     | Some c => Some (canvas_toJSON (Store.scene c))
                     | None => None
                     end;
             action := act; timestamp := now |}] in
  {| history := newHistory; historyIndex := Z.of_nat (length newHistory) - 1;
     activeObject := activeObject s; isDirty := true; isLoading := isLoading s;
     presets := presets s; canvas := canvas s; canvasSettings := canvasSettings s;
     textSettings := textSettings s |}.

(** [Throw]: the saved text does not parse; nothing catches it here. *)
Definition loadFromLocalStorage (w : World) : outcome World :=
  match canvas (store w), localStorage w with
  | Some c, Some data =>
      if string_nonempty data then
        match scene_parse data with
        | Some j =>
            Ret (on_store
                   (edit (Some (Store.on_scene
                                  (fun sc => result (canvas_loadFromObject j sc)) c))
                      (activeObject (store w)) (isDirty (store w))) w)
        | None => Throw
        end
      else Ret w
  | _, _ => Ret w
  end.

Inductive Op : Type :=
  | OUndo
  | ORedo
  | ODeleteSelectedObject
  | ODuplicateSelectedObject
  | OBringToFront
  | OSaveToLocalStorage (stored : bool)
  | OUpdateCanvasSettings (st : jsval)
  | OUpdateTextSettings (st : jsval)
  | OSetActiveObject (o : option Obj)
  | OSetCanvas (c : Store.Canvas)
  | OSaveToHistory (act : string) (now : Z)
  | OLoadFromLocalStorage.

Definition exec (op : Op) (w : World) : World :=
  match op with
  | OUndo => on_store undo w
  | ORedo => on_store redo w
  | ODeleteSelectedObject => on_store deleteSelectedObject w
  | ODuplicateSelectedObject => on_store duplicateSelectedObject w
  | OBringToFront => on_store bringToFront w
  | OSaveToLocalStorage stored => Store.settle (saveToLocalStorage stored w) w
  | OUpdateCanvasSettings st => on_store (updateCanvasSettings st) w
  | OUpdateTextSettings st => on_store (updateTextSettings st) w
  | OSetActiveObject o => on_store (setActiveObject o) w
  | OSetCanvas c => on_store (setCanvas c) w
  | OSaveToHistory act now => on_store (saveToHistory act now) w
  | OLoadFromLocalStorage => Store.settle (loadFromLocalStorage w) w
  end.

Definition run (ops : list Op) (w : World) : World := foldl (fun w op => exec op w) w ops.

Definition start (saved : option string) : World :=
  {| store := initial; localStorage := saved |}.

Definition reachable (w : World) : Prop :=
  exists saved ops, w = run ops (start saved).

(** A run of [saveToHistory] calls. *)
Definition recordings (acts : list (string * Z)) : list Op :=
  List.map (fun a => OSaveToHistory a.1 a.2) acts.

(** The cursor of the earlier store: [0] on an empty timeline, a valid index
    otherwise. *)
Definition cursor_ok (s : State) : Prop :=
  (history s = [] /\ historyIndex s = 0)
  \/ (0 <= historyIndex s < Z.of_nat (length (history s))).

End DraftStore.
End DraftStore.

(** ** Notions used to state further properties of the store *)

Module StoreNotions.
Import Store.
Section StoreNotions.
Context `{Cd : Codec}.

(** The entry under the cursor is the serialised canvas now on display. *)
Definition in_sync (s : EditorState) : Prop :=
  exists c item,
    canvas s = Some c
    /\ index (history s) (historyIndex s) = Some item
    /\ canvasState item = JSON_stringify (canvas_toJSON (scene c)).

(** The label of the entry under the cursor. *)
Definition current_action (s : EditorState) : option string :=
  action <$> index (history s) (historyIndex s).

(** While handlers record, the entry [item] stays at index [i], below or
    under the cursor, in a timeline of at most [n] entries. *)
Definition keeps_entry (i : Z) (item : HistoryState) (n : nat) (s : EditorState) : Prop :=
  is_Some (canvas s)
  /\ index (history s) i = Some item
  /\ 0 <= i <= historyIndex s
  /\ historyIndex s < Z.of_nat (length (history s))
  /\ (length (history s) <= n)%nat.

End StoreNotions.
End StoreNotions.

(** ** Notions used to state further properties of the catalog *)

Module PresetNotions.

(** The test [p => p.id === presetId] of [getPreset] and [removePreset]. *)
Definition has_id (presetId : string) (p : PresetState) : bool :=
  String.eqb (preset_id p) presetId.

End PresetNotions.

(** ** Concrete instances for the examples *)

Module Samples.
Import Stdlib.Strings.Ascii.

(** A surface whose scenes are lists of object names, bottom first, written
    out as comma-separated text. *)
Fixpoint split_commas (s cur : string) : list string :=
  match s with
  | EmptyString => [cur]
  | String c s' =>
      if Ascii.eqb c ","%char then cur :: split_commas s' EmptyString
      else split_commas s' (cur +:+ String c EmptyString)
  end.

Definition names_of (s : string) : list string :=
  match s with
  | EmptyString => []
  | _ => split_commas s EmptyString
  end.

Definition without (o : string) (sc : list string) : list string :=
  List.filter (fun x => negb (String.eqb x o)) sc.

(** An object whose name is an object URL is an image. *)
Definition is_image (o : string) : bool := String.prefix "blob:" o.

(** Emptying the canvas removes the objects one by one, bottom first, and
    raises [object:removed] after each; inserting raises [object:added]
    after each. *)
Fixpoint removals (sc : list string) : list (CanvasEvent string * list string) :=
  match sc with
  | [] => []
  | _ :: rest => (object_removed, rest) :: removals rest
  end.

Definition insertions (sc : list string) : list (CanvasEvent string * list string) :=
  List.map (fun k => (object_added, take (S k) sc)) (seq 0 (length sc)).

Definition load (target sc : list string) : Effect string (list string) :=
  {| fired := removals sc ++ insertions target; result := target |}.

Definition quiet (sc : list string) : Effect string (list string) :=
  {| fired := []; result := sc |}.

(** The canvas of the examples. A load is late when the snapshot holds an
    image, a clone when the object is one, and an image always is. Moving an
    object in the stack raises nothing; the selection events that the canvas
    raises on its own account are not described. *)
Definition list_surface : Surface := {|
  Scene := list string;
  Obj := string;
  SceneJSON := list string;
  canvas_toJSON := fun sc => sc;
  JSON_stringify := String.concat ",";
  canvas_loadFromJSON := fun text => load (names_of text);
  canvas_loadFromObject := load;
  text_loads_late := fun text => existsb is_image (names_of text);
  object_loads_late := existsb is_image;
  canvas_remove := fun o sc =>
    if existsb (String.eqb o) sc
    then {| fired := [(object_removed, without o sc)]; result := without o sc |}
    else quiet sc;
  canvas_add := fun o sc => sc ++ [o];
  canvas_bringToFront := fun o sc => quiet (without o sc ++ [o]);
  canvas_sendToBack := fun o sc => quiet (o :: without o sc);
  canvas_setActiveObject := fun o sc =>
    {| fired := [(selection_created [o], sc)]; result := sc |};
  canvas_setBackgroundColor := fun _ sc => sc;
  canvas_toDataURL := fun mime _ sc => mime +:+ ":" +:+ String.concat "," sc;
  canvas_toSVG := String.concat ",";
  obj_clone := fun o => o +:+ "-copy";
  clone_is_late := is_image;
  obj_left := fun _ => None;
  obj_top := fun _ => None;
  obj_set_left_top := fun _ _ o => o;
  float_add := Qplus;
  image_place := fun url _ sc =>
    {| fired := [(object_added, sc ++ [url])]; result := sc ++ [url] |};
  image_is_late := fun _ => true
|}.

(** A codec that persists the scene only. *)
Definition list_codec : @Codec list_surface := {|
  session_stringify := fun d =>
    match @sd_canvasData list_surface d with
    | Some j => String.concat "," j
    | None => EmptyString
    end;
  session_parse := fun text =>
    Some {| sr_presets := None; sr_canvasSettings := JUndefined;
            sr_textSettings := JUndefined;
            sr_canvasData := Some (names_of text) : option (@SceneJSON list_surface) |}
|}.

#[local] Existing Instance list_surface.
#[local] Existing Instance list_codec.

Definition canvas_ab : Store.Canvas :=
  {| Store.scene := ["a"; "b"]; Store.width := JNum 800; Store.height := JNum 600 |}.

(** A session that bound a canvas and recorded it twice. *)
Definition two_records : Store.World :=
  Store.run [Store.OSetCanvas canvas_ab;
             Store.OSaveToHistory "Object added" "h1" 1;
             Store.OSaveToHistory "Object modified" "h2" 2]
    (Store.start None).

(** Ids and times for the handlers and callbacks of one operation. *)
Definition numbered (tag : string) (k : nat) : string * Z :=
  (tag +:+ pretty k, Z.of_nat k).

(** The same session after one [undo]. *)
Definition one_undone : Store.World := Store.run [Store.OUndo (numbered "u")] two_records.

(** A session with a bound canvas and unsaved changes. *)
Definition dirty_session : Store.World :=
  Store.run [Store.OSetCanvas canvas_ab; Store.OSaveToHistory "Object added" "h1" 1]
    (Store.start None).

(** A session that starts with a scene in local storage, changes the text
    settings and resets the dirty flag, all before a canvas is bound. *)
Definition restorable_session : Store.World :=
  Store.run [Store.OUpdateTextSettings (obj [("fontSize", JNum 20)]);
             Store.OSetIsDirty false]
    (Store.start (Some "x,y")).

(** An empty canvas, as [CanvasRenderer] creates it. *)
Definition canvas_empty : Store.Canvas :=
  {| Store.scene := []; Store.width := JNum 800; Store.height := JNum 600 |}.

(** A session in which a tool puts 18 shapes on the canvas, one after the
    other. *)
Definition shapes_18 : list string := List.map (fun k : nat => "o" +:+ pretty k) (seq 1 18).

Definition crowded_ops : list Store.Op :=
  Store.OSetCanvas canvas_empty
    :: List.map (fun o => Store.OCanvasAdd o (numbered o)) shapes_18.

Definition crowded_session : Store.World := Store.run crowded_ops (Store.start None).

(** A session with a shape and an image in which a [redo] whose snapshot
    holds the image is overtaken by two [undo]s:
    the shape is drawn, selected and deleted; an image is imported and
    arrives; [undo] (late, it arrives) and [undo] again lead back to the
    empty canvas; [redo] starts loading the image snapshot; two more [undo]s
    lead back to the shape. The load of [redo] is still waiting. *)
Definition overtaken_ops : list Store.Op :=
  [Store.OSetCanvas canvas_empty;
     Store.OCanvasAdd "a" (numbered "s1-");
     Store.OSetActiveObject (Some "a");
     Store.ODeleteSelectedObject (numbered "s2-");
     Store.OImportImage "blob:1" (numbered "s3-");
     Store.OCallback 0 (numbered "s3-");
     Store.OUndo (numbered "s4-");
     Store.OCallback 0 (numbered "s4-");
     Store.OUndo (numbered "s5-");
     Store.ORedo (numbered "s6-");
     Store.OUndo (numbered "s7-");
     Store.OUndo (numbered "s8-")].

Definition overtaken_session : Store.World := Store.run overtaken_ops (Store.start None).

(** 51 recordable actions, numbered from 0. *)
Definition actions_51 : list (string * string * Z) :=
  List.map (fun k : nat => ("Object modified", pretty k, Z.of_nat k)) (seq 0 51).

(** JSON texts are written with apostrophes in place of double quotes. *)
Fixpoint json_text (s : string) : string :=
  match s with
  | EmptyString => EmptyString
  | String c s' => String (if Ascii.eqb c "'"%char then "034"%char else c) (json_text s')
  end.

Definition text_missing_preset : string := json_text "{'category':'text'}".
Definition text_empty_category : string :=
  json_text "{'category':'','preset':{'name':'Mine','settings':{}}}".
Definition text_unknown_category : string :=
  json_text "{'category':'stickers','preset':{'name':'Mine','settings':{}}}".
Definition text_not_json : string := "{category: text".

(** [JSON.parse] on the four texts above; the last one is malformed. *)
Definition sample_parse (data : string) : option jsval :=
  if String.eqb data text_missing_preset then
    Some (obj [("category", JStr "text")])
  else if String.eqb data text_empty_category then
    Some (obj [("category", JStr "");
               ("preset", obj [("name", JStr "Mine"); ("settings", obj [])])])
  else if String.eqb data text_unknown_category then
    Some (obj [("category", JStr "stickers");
               ("preset", obj [("name", JStr "Mine"); ("settings", obj [])])])
  else None.

(** Number-to-string conversion on integers. *)
Definition sample_number_toString (q : Q) : string := pretty (Qnum q / Z.pos (Qden q)).

(** The catalog the constructor builds, with ids [p0], [p1], ... *)
Definition default_catalog : gmap string ToolPresets.PresetCategory :=
  ToolPresets.initializeDefaultPresets (fun k => "p" +:+ pretty k) (fun _ => 0).

(** Its first text preset. *)
Definition headline : PresetState :=
  ToolPresets.make_preset (fun k => "p" +:+ pretty k) (fun _ => 0) 0 "Headline Bold"
    (obj [("textSettings",
           ToolPresets.text_style "Inter" 48 "bold" "#1a1a1a" "center" "" 0)]).

(** A canvas object for the tool hooks, held under reference 0. *)
Definition one_canvas : ToolRegistry.Env ToolRegistry.FabricCanvas :=
  {| ToolRegistry.canvases := {[ 0%nat := ToolRegistry.blank_canvas ]};
     ToolRegistry.calls := [] |}.

(** A tool registered under the empty id. *)
Definition namelessTool
    : ToolRegistry.ToolDefinition ToolRegistry.FabricCanvas ToolRegistry.Pointer := {|
  ToolRegistry.tool_id := "";
  ToolRegistry.tool_name := "Nameless";
  ToolRegistry.icon := "Circle";
  ToolRegistry.category := ToolRegistry.shapes;
  ToolRegistry.tool_description := "A tool whose id is the empty string";
  ToolRegistry.shortcut := None;
  ToolRegistry.handler := ToolRegistry.handler ToolRegistry.circleTool |}.

(** *** Further samples *)

(** A session in which recording and undoing were tried before any canvas
    was bound. *)
Definition unbound_session : Store.World :=
  Store.run [Store.OSaveToHistory "Object added" "h1" 1; Store.OUndo (numbered "u");
             Store.OUpdateTextSettings (obj [("fontSize", JNum 20)])]
    (Store.start None).

(** A session with a selection. *)
Definition selecting_session : Store.World :=
  Store.run [Store.OSetCanvas canvas_ab; Store.OSetActiveObject (Some "a")]
    (Store.start None).

(** A preset as a user hands it to [addPreset]. *)
Definition mine : ToolPresets.PresetDraft :=
  {| ToolPresets.draft_name := "Mine";
     ToolPresets.draft_settings := obj [("textSettings", obj [("fontSize", JNum 20)])];
     ToolPresets.draft_thumbnail := None |}.

(** The default text category. *)
Definition text_category : ToolPresets.PresetCategory :=
  {| ToolPresets.category_id := "text"; ToolPresets.category_name := "Text Styles";
     ToolPresets.description := "Pre-configured text styling presets";
     ToolPresets.category_presets :=
       ToolPresets.textPresets (fun k => "p" +:+ pretty k) (fun _ => 0) |}.

(** Its first canvas preset. *)
Definition instagram_post : PresetState :=
  ToolPresets.make_preset (fun k => "p" +:+ pretty k) (fun _ => 0) 4 "Instagram Post"
    (obj [("canvasSettings", ToolPresets.canvas_size 1080 1080 "#ffffff" "fill")]).

Definition text_into_text : string :=
  json_text "{'category':'text','preset':{'name':'Mine','settings':{}}}".
Definition text_bare_preset : string :=
  json_text "{'category':'text','preset':{'name':'Bare'}}".

(** [JSON.parse] on the two texts above as well. *)
Definition sample_parse_more (data : string) : option jsval :=
  if String.eqb data text_into_text then
    Some (obj [("category", JStr "text");
               ("preset", obj [("name", JStr "Mine"); ("settings", obj [])])])
  else if String.eqb data text_bare_preset then
    Some (obj [("category", JStr "text"); ("preset", obj [("name", JStr "Bare")])])
  else sample_parse data.

(** Three tool selections, the second for an id that is not registered. *)
Definition three_selections : list (string * ToolRegistry.ref) :=
  [("text", 0%nat); ("eraser", 0%nat); ("rectangle", 0%nat)].

(** The application with a canvas bound and the built-in registry. *)
Definition sample_app
    : @EditorLayout.App list_surface ToolRegistry.FabricCanvas ToolRegistry.Pointer :=
  {| EditorLayout.app_store := Store.store dirty_session;
     EditorLayout.app_registry := ToolRegistry.ToolRegistry;
     EditorLayout.app_env := one_canvas |}.

(** An export panel over a white canvas, a renderer that works and one that
    refuses (a tainted canvas). *)
Definition white_canvas : ExportPanel.ExportCanvas :=
  {| ExportPanel.canvas_backgroundColor := JStr "#ffffff";
     ExportPanel.canvas_width := 800; ExportPanel.canvas_height := 600;
     ExportPanel.canvas_zoom := 1 |}.

Definition idle_panel : ExportPanel.Panel :=
  {| ExportPanel.canvas := Some white_canvas; ExportPanel.isExporting := false;
     ExportPanel.toasts := []; ExportPanel.downloads := [] |}.

Definition web_png : ExportPanel.ExportSettings :=
  {| ExportPanel.format := ExportPanel.png; ExportPanel.quality := 1;
     ExportPanel.scale := 1; ExportPanel.backgroundColor := "#ffffff";
     ExportPanel.transparent := true |}.

Definition renders_svg (c : ExportPanel.ExportCanvas) : outcome string := Ret "<svg/>".
Definition renders_url (mime : string) (q : Q) (c : ExportPanel.ExportCanvas)
    : outcome string := Ret ("data:" +:+ mime).
Definition refuses_url (mime : string) (q : Q) (c : ExportPanel.ExportCanvas)
    : outcome string := Throw.
Definition blob_url (text : string) : string := "blob:" +:+ text.

(** The earlier store after it bound a canvas, and two recordings. *)
Definition draft_bound : @DraftStore.World list_surface :=
  DraftStore.run (fun text => Some (names_of text)) [DraftStore.OSetCanvas canvas_ab]
    (DraftStore.start None).

Definition two_actions : list (string * Z) := [("Add text", 1); ("Update text fill", 2)].

End Samples.

(** * Properties *)

(** ** Array slicing *)

Module SliceFacts.
Section SliceFacts.
Context {A : Type}.
Implicit Types l : list A.

Lemma slice_from_50 l : slice_from (-50) l = drop (length l - 50) l.
Proof.
  unfold slice_from, relative_index. simpl. f_equal. lia.
Qed.

Lemma length_slice_from_50 l :
  length (slice_from (-50) l) = Nat.min (length l) 50.
Proof. rewrite slice_from_50, length_drop. lia. Qed.

(** [slice(0, k)] with [0 <= k] keeps the first [k] entries. *)
Lemma slice_prefix l (k : Z) :
  0 <= k -> slice 0 k l = take (Z.to_nat k) l.
Proof.
  intros Hk. unfold slice, relative_index. simpl.
  replace (Z.to_nat (Z.min 0 (Z.of_nat (length l)))) with 0%nat by lia.
  destruct (Z.ltb_spec k 0) as [? | _]; [lia |].
  rewrite drop_0, Nat.sub_0_r.
  destruct (Z.le_ge_cases k (Z.of_nat (length l))) as [Hle | Hge].
  - f_equal. lia.
  - replace (Z.to_nat (Z.min k (Z.of_nat (length l)))) with (length l) by lia.
    rewrite !take_ge; [reflexivity | lia | lia].
Qed.

Lemma length_slice_le l (i j : Z) : (length (slice i j l) <= length l)%nat.
Proof.
  unfold slice. rewrite length_take, length_drop. lia.
Qed.

(** Keeping the last 50 twice, with entries appended in between, is keeping
    the last 50 once. *)
Lemma slice_from_50_app l1 l2 :
  slice_from (-50) (slice_from (-50) l1 ++ l2) = slice_from (-50) (l1 ++ l2).
Proof.
  rewrite !slice_from_50, !length_app, length_drop.
  destruct (Nat.le_gt_cases (length l1) 50) as [Hle | Hgt].
  - replace (length l1 - 50)%nat with 0%nat by lia.
    rewrite drop_0. f_equal. lia.
  - set (d := (length l1 - 50)%nat).
    replace (length l1 + length l2 - 50)%nat with (d + length l2)%nat by lia.
    replace (length l1 - d + length l2 - 50)%nat with (length l2) by lia.
    rewrite <- drop_drop.
    rewrite (drop_app_le l1 l2 d) by lia. reflexivity.
Qed.

Lemma index_Some l (i : Z) :
  0 <= i < Z.of_nat (length l) -> is_Some (index l i).
Proof.
  intros Hi. unfold index.
  destruct (Z.ltb_spec i 0) as [? | _]; [lia |].
  apply lookup_lt_is_Some. lia.
Qed.

End SliceFacts.
End SliceFacts.

(** ** The history timeline *)

Module StoreFacts.
Import Store SliceFacts.
Section StoreFacts.
Context `{Cd : Codec}.
Implicit Types (s : EditorState) (w : World) (fresh : nat -> string * Z) (t : Task).

(** *** What [saveToHistory] leaves *)

(** What [saveToHistory] leaves in the timeline when a canvas is bound. *)
Lemma saveToHistory_bound act id now s c :
  canvas s = Some c ->
  let s' := saveToHistory act id now s in
  history s' =
    slice_from (-50) (slice 0 (historyIndex s + 1) (history s) ++ [newHistoryItem c act id now])
  /\ historyIndex s' = Z.of_nat (length (history s')) - 1
  /\ canvas s' = Some c
  /\ isDirty s' = true.
Proof.
  intros Hc. unfold saveToHistory. rewrite Hc. simpl. auto.
Qed.

Lemma saveToHistory_unbound act id now s :
  canvas s = None -> saveToHistory act id now s = s.
Proof. intros Hc. unfold saveToHistory. rewrite Hc. reflexivity. Qed.

Lemma saveToHistory_keeps_canvas act id now s :
  canvas (saveToHistory act id now s) = canvas s.
Proof. unfold saveToHistory. destruct (canvas s) eqn:Hc; simpl; exact Hc. Qed.

(** After a recording the timeline has between 1 and 50 entries and the
    cursor is on the last. *)
Lemma saveToHistory_tail act id now s :
  is_Some (canvas s) ->
  (1 <= length (history (saveToHistory act id now s)) <= 50)%nat
  /\ historyIndex (saveToHistory act id now s)
     = Z.of_nat (length (history (saveToHistory act id now s))) - 1.
Proof.
  intros [c Hc].
  destruct (saveToHistory_bound act id now s c Hc) as (Hh & Hi & _).
  split; [| exact Hi].
  rewrite Hh, length_slice_from_50, length_app. simpl. lia.
Qed.

Lemma saveToHistory_history_ok act id now s :
  history_ok s -> history_ok (saveToHistory act id now s).
Proof.
  intros Hok. destruct (canvas s) as [c |] eqn:Hc.
  - destruct (saveToHistory_tail act id now s) as [Hlen Hi]; [eauto |].
    unfold history_ok. rewrite Hi, saveToHistory_keeps_canvas, Hc.
    split; [right; lia |]. split; [lia | intros _; eauto].
  - rewrite saveToHistory_unbound by assumption. exact Hok.
Qed.

Lemma saveToHistory_timeline_ok act id now s :
  timeline_ok s -> timeline_ok (saveToHistory act id now s).
Proof.
  intros Hok. destruct (canvas s) as [c |] eqn:Hc.
  - destruct (saveToHistory_tail act id now s) as [Hlen Hi]; [eauto |].
    unfold timeline_ok. rewrite Hi, saveToHistory_keeps_canvas, Hc.
    split; [right; split; [| lia] |].
    + intros Hnil. rewrite Hnil in Hlen. simpl in Hlen. lia.
    + split; [lia | intros _; eauto].
  - rewrite saveToHistory_unbound by assumption. exact Hok.
Qed.

Lemma saveToHistory_entries act id now s :
  history s <> [] -> history (saveToHistory act id now s) <> [].
Proof.
  intros Hne. destruct (canvas s) as [c |] eqn:Hc.
  - destruct (saveToHistory_tail act id now s) as [Hlen _]; [eauto |].
    intros Hnil. rewrite Hnil in Hlen. simpl in Hlen. lia.
  - rewrite saveToHistory_unbound by assumption. exact Hne.
Qed.

(** The length of the timeline after a recording from a cursor inside it. *)
Lemma saveToHistory_length act id now s :
  is_Some (canvas s) ->
  -1 <= historyIndex s < Z.of_nat (length (history s)) ->
  Z.of_nat (length (history (saveToHistory act id now s)))
  = Z.min (historyIndex s + 2) 50.
Proof.
  intros [c Hc] Hidx.
  destruct (saveToHistory_bound act id now s c Hc) as (Hh & _).
  rewrite Hh, length_slice_from_50, length_app, slice_prefix, length_take by lia.
  simpl. lia.
Qed.

Lemma saveToHistory_keeps b act id now s : keeps b s -> keeps b (saveToHistory act id now s).
Proof.
  intros (Hc & Hlen & Hb & Hbi & Hidx).
  destruct (saveToHistory_tail act id now s Hc) as [Hlen' Hi].
  pose proof (saveToHistory_length act id now s Hc Hidx) as HL.
  unfold keeps. rewrite saveToHistory_keeps_canvas, Hi.
  split; [exact Hc |]. split; [lia |]. split; [lia |]. split; lia.
Qed.

(** *** Handlers *)

Lemma canvas_show sc s : is_Some (canvas s) -> is_Some (canvas (show sc s)).
Proof. intros [c Hc]. unfold show. rewrite Hc. simpl. eauto. Qed.

Lemma history_show sc s : history (show sc s) = history s.
Proof. unfold show. destruct (canvas s); reflexivity. Qed.

Lemma historyIndex_show sc s : historyIndex (show sc s) = historyIndex s.
Proof. unfold show. destruct (canvas s); reflexivity. Qed.

Lemma show_bound sc s c :
  canvas s = Some c -> canvas (show sc s) = Some (on_scene (fun _ => sc) c).
Proof. intros Hc. unfold show. rewrite Hc. reflexivity. Qed.

Lemma show_unbound sc s : canvas s = None -> show sc s = s.
Proof. intros Hc. unfold show. rewrite Hc. reflexivity. Qed.

(** A predicate that recording, a change of the canvas content and a change
    of the selection keep is kept by everything the handlers do. *)
Section Stable.
Variable P : EditorState -> Prop.
Hypothesis P_saveToHistory : forall act id now s, P s -> P (saveToHistory act id now s).
Hypothesis P_show : forall sc s, P s -> P (show sc s).
Hypothesis P_activeObject : forall o s, P s -> P (set_activeObject o s).

Lemma listener_stable ev id now s : P s -> P (listener ev id now s).
Proof.
  intros Hs. destruct ev; simpl; unfold setActiveObject; auto.
Qed.

Lemma raise_stable fresh evs : forall k s, P s -> P (raise fresh k evs s).
Proof.
  induction evs as [| [ev sc] evs IH]; intros k s Hs; simpl; [exact Hs |].
  apply IH, listener_stable, P_show, Hs.
Qed.

Lemma perform_stable fresh k e s : P s -> P (perform fresh k e s).
Proof. intros Hs. unfold perform. apply P_show, raise_stable, Hs. Qed.

Lemma deleteSelectedObject_stable fresh s : P s -> P (deleteSelectedObject fresh s).
Proof.
  intros Hs. unfold deleteSelectedObject.
  destruct (canvas s), (activeObject s); try exact Hs.
  apply P_activeObject, P_saveToHistory, perform_stable, Hs.
Qed.

Lemma bringToFront_stable fresh s : P s -> P (bringToFront fresh s).
Proof.
  intros Hs. unfold bringToFront.
  destruct (canvas s), (activeObject s); try exact Hs.
  apply P_saveToHistory, perform_stable, Hs.
Qed.

Lemma sendToBack_stable fresh s : P s -> P (sendToBack fresh s).
Proof.
  intros Hs. unfold sendToBack.
  destruct (canvas s), (activeObject s); try exact Hs.
  apply P_saveToHistory, perform_stable, Hs.
Qed.

Lemma canvas_edit_add_stable o fresh s : P s -> P (canvas_edit_add o fresh s).
Proof.
  intros Hs. unfold canvas_edit_add. destruct (canvas s); [| exact Hs].
  apply perform_stable, Hs.
Qed.

Hypothesis P_currentImage : forall v s, P s -> P (set_currentImage v s).

(** So is it by every callback but that of [undo] and [redo], which writes
    the cursor. *)
Lemma complete_stable fresh t s : history_load t = false -> P s -> P (complete fresh t s).
Proof.
  intros Hk Hs. unfold complete. destruct (canvas s) as [c |]; [| exact Hs].
  destruct t; [discriminate | | |].
  - apply perform_stable, Hs.
  - apply P_activeObject, P_saveToHistory, perform_stable, perform_stable, Hs.
  - apply P_currentImage, P_saveToHistory, perform_stable, Hs.
Qed.

End Stable.

(** The three predicates that are kept outright. *)
Lemma frame_timeline_ok s s' :
  history s' = history s -> historyIndex s' = historyIndex s ->
  (is_Some (canvas s) -> is_Some (canvas s')) ->
  timeline_ok s -> timeline_ok s'.
Proof.
  unfold timeline_ok. intros -> -> Hcv (Hidx & Hlen & Hb). auto.
Qed.

Lemma history_ok_frame s s' :
  history s' = history s -> historyIndex s' = historyIndex s ->
  (is_Some (canvas s) -> is_Some (canvas s')) ->
  history_ok s -> history_ok s'.
Proof.
  unfold history_ok. intros -> -> Hcv (Hidx & Hlen & Hb). auto.
Qed.

Lemma keeps_frame b s s' :
  history s' = history s -> historyIndex s' = historyIndex s ->
  (is_Some (canvas s) -> is_Some (canvas s')) ->
  keeps b s -> keeps b s'.
Proof.
  unfold keeps. intros -> -> Hcv (Hc & Hrest). auto.
Qed.

Lemma show_timeline_ok sc s : timeline_ok s -> timeline_ok (show sc s).
Proof.
  apply frame_timeline_ok;
    [apply history_show | apply historyIndex_show | apply canvas_show].
Qed.

Lemma show_history_ok sc s : history_ok s -> history_ok (show sc s).
Proof.
  apply history_ok_frame;
    [apply history_show | apply historyIndex_show | apply canvas_show].
Qed.

Lemma show_keeps b sc s : keeps b s -> keeps b (show sc s).
Proof.
  apply keeps_frame; [apply history_show | apply historyIndex_show | apply canvas_show].
Qed.

Lemma activeObject_timeline_ok o s : timeline_ok s -> timeline_ok (set_activeObject o s).
Proof. apply frame_timeline_ok; simpl; auto. Qed.

Lemma show_entries sc s : history s <> [] -> history (show sc s) <> [].
Proof. rewrite history_show. auto. Qed.

Lemma activeObject_entries o s : history s <> [] -> history (set_activeObject o s) <> [].
Proof. simpl. auto. Qed.

Ltac timeline_stable lem :=
  apply lem;
    [intros ? ? ?; apply saveToHistory_timeline_ok
    | apply show_timeline_ok
    | apply activeObject_timeline_ok
    | try assumption ..].

Ltac entries_stable lem :=
  apply (lem (fun s0 => history s0 <> []));
    [intros ? ? ?; apply saveToHistory_entries
    | apply show_entries
    | apply activeObject_entries
    | try assumption ..].

Lemma perform_timeline_ok fresh k e s : timeline_ok s -> timeline_ok (perform fresh k e s).
Proof. timeline_stable perform_stable. Qed.

Lemma perform_history_ok fresh k e s : history_ok s -> history_ok (perform fresh k e s).
Proof.
  apply perform_stable.
  - intros act id now. apply saveToHistory_history_ok.
  - apply show_history_ok.
  - intros o s0. apply history_ok_frame; simpl; auto.
Qed.

Lemma perform_keeps b fresh k e s : keeps b s -> keeps b (perform fresh k e s).
Proof.
  apply perform_stable.
  - intros act id now. apply saveToHistory_keeps.
  - apply show_keeps.
  - intros o s0. apply keeps_frame; simpl; auto.
Qed.

Lemma perform_entries fresh k e s : history s <> [] -> history (perform fresh k e s) <> [].
Proof. entries_stable perform_stable. Qed.

Lemma perform_canvas fresh k e s : is_Some (canvas s) -> is_Some (canvas (perform fresh k e s)).
Proof.
  apply (perform_stable (fun s0 => is_Some (canvas s0))).
  - intros act id now s0. rewrite saveToHistory_keeps_canvas. auto.
  - apply canvas_show.
  - intros o s0. simpl. auto.
Qed.

(** The callback of [undo] and [redo] writes a cursor that the timeline may
    not reach; all that is kept then is that it is not negative. *)
Lemma complete_timeline_ok fresh t s :
  task_ok s t -> timeline_ok s -> timeline_ok (complete fresh t s).
Proof.
  intros Ht Hok. unfold complete. destruct (canvas s) as [c |] eqn:Hc; [| exact Hok].
  destruct t as [text cursor | canvasData | o | imageUrl st].
  - destruct Ht as [Hne Hcur].
    set (s1 := perform fresh 0 (canvas_loadFromJSON text (scene c)) s).
    destruct (perform_timeline_ok fresh 0 (canvas_loadFromJSON text (scene c)) s Hok)
      as (Hidx & Hlen & Hcv).
    pose proof (perform_entries fresh 0 (canvas_loadFromJSON text (scene c)) s Hne) as Hne1.
    unfold timeline_ok. simpl. split; [right; auto |]. split; [exact Hlen |].
    intros H0. destruct (Hcv H0) as [c1 Hc1]. eauto.
  - apply perform_timeline_ok, Hok.
  - eapply frame_timeline_ok; [reflexivity | reflexivity | simpl; auto |].
    apply saveToHistory_timeline_ok, perform_timeline_ok, perform_timeline_ok, Hok.
  - eapply frame_timeline_ok; [reflexivity | reflexivity | simpl; auto |].
    apply saveToHistory_timeline_ok, perform_timeline_ok, Hok.
Qed.

(** A timeline with entries keeps having entries. *)
Lemma complete_entries fresh t s :
  history s <> [] -> history (complete fresh t s) <> [].
Proof.
  intros Hne. unfold complete. destruct (canvas s) as [c |]; [| exact Hne].
  destruct t; simpl; auto using saveToHistory_entries, perform_entries.
Qed.

(** Nor does a bound canvas get unbound. *)
Lemma complete_canvas fresh t s :
  is_Some (canvas s) -> is_Some (canvas (complete fresh t s)).
Proof.
  intros Hs. unfold complete. destruct (canvas s) as [c |] eqn:Hcs; [| rewrite Hcs; exact Hs].
  destruct t; simpl; rewrite ?saveToHistory_keeps_canvas; auto using perform_canvas.
Qed.

(** *** What every reachable session satisfies *)

Lemma task_ok_mono s s' t :
  (history s <> [] -> history s' <> []) -> task_ok s t -> task_ok s' t.
Proof. destruct t; simpl; [intros Hm [Hne Hc]; auto | auto | auto | auto]. Qed.

Lemma world_ok_step w s' l' p' :
  world_ok w ->
  timeline_ok s' ->
  (history (store w) <> [] -> history s' <> []) ->
  (forall t, t ∈ p' -> t ∈ pending w \/ task_ok s' t) ->
  world_ok {| store := s'; localStorage := l'; pending := p' |}.
Proof.
  intros [Hok Hp] Hok' Hm Hin. split; [exact Hok' |]. simpl.
  apply Forall_forall. intros t Ht. destruct (Hin t Ht) as [Hold | Hnew]; [| exact Hnew].
  apply (task_ok_mono (store w)); [exact Hm |].
  rewrite Forall_forall in Hp. apply Hp, Hold.
Qed.

Lemma on_store_world_ok f w :
  world_ok w ->
  timeline_ok (f (store w)) ->
  (history (store w) <> [] -> history (f (store w)) <> []) ->
  world_ok (on_store f w).
Proof.
  intros Hw Hok Hm. apply (world_ok_step w); auto.
Qed.

Lemma launch_world_ok fresh t w :
  world_ok w -> task_ok (store w) t -> world_ok (launch fresh t w).
Proof.
  intros Hw Ht. unfold launch. destruct (is_late t).
  - apply (world_ok_step w); [exact Hw | apply Hw | auto |].
    intros t' Hin. apply elem_of_app in Hin. destruct Hin as [Hin | Hin]; [auto |].
    apply list_elem_of_singleton in Hin. subst t'. auto.
  - apply on_store_world_ok; [exact Hw | | apply complete_entries].
    apply complete_timeline_ok; [exact Ht | apply Hw].
Qed.

Lemma finish_world_ok restoring k fresh w : world_ok w -> world_ok (finish restoring k fresh w).
Proof.
  intros Hw. unfold finish.
  destruct (pending w !! k) as [t |] eqn:Hk; [| exact Hw].
  case_bool_decide; [| exact Hw].
  assert (task_ok (store w) t) as Ht.
  { destruct Hw as [_ Hp]. rewrite Forall_forall in Hp.
    apply Hp. eapply list_elem_of_lookup_2, Hk. }
  apply (world_ok_step w); [exact Hw | | apply complete_entries |].
  - apply complete_timeline_ok; [exact Ht | apply Hw].
  - intros t' Hin. left. eapply list_elem_of_delete_inv, Hin.
Qed.

Lemma undo_request_task s t :
  timeline_ok s -> undo_request s = Ret (Some t) -> task_ok s t.
Proof.
  unfold undo_request. intros (Hidx & _ & _) Hu.
  destruct (canvas s); [| discriminate].
  destruct (Z.leb_spec (historyIndex s) 0) as [? | Hgt]; [discriminate |].
  destruct (index _ _) as [previousState |]; [| discriminate].
  injection Hu as <-. simpl. split; [| lia].
  destruct Hidx as [[_ Hm] | [Hne _]]; [lia | exact Hne].
Qed.

Lemma redo_request_task s t :
  timeline_ok s -> redo_request s = Ret (Some t) -> task_ok s t.
Proof.
  unfold redo_request. intros (Hidx & _ & _) Hr.
  destruct (canvas s); [| discriminate].
  destruct (Z.geb_spec (historyIndex s) (Z.of_nat (length (history s)) - 1)) as [? | Hlt];
    [discriminate |].
  destruct (index _ _) as [nextState |]; [| discriminate].
  injection Hr as <-. simpl.
  destruct Hidx as [[Hnil Hm] | [Hne Hnn]]; [| split; [exact Hne | lia]].
  rewrite Hnil in Hlt. simpl in Hlt. lia.
Qed.

Lemma request_world_ok fresh r w :
  world_ok w ->
  (forall t, r = Ret (Some t) -> task_ok (store w) t) ->
  world_ok (request fresh r w).
Proof.
  intros Hw Ht. destruct r as [[t |] |]; simpl; [| exact Hw | exact Hw].
  apply launch_world_ok; auto.
Qed.

Lemma loadPreset_frame presetId s :
  history (settle (loadPreset presetId s) s) = history s
  /\ historyIndex (settle (loadPreset presetId s) s) = historyIndex s
  /\ canvas (settle (loadPreset presetId s) s) = canvas s.
Proof.
  unfold loadPreset. destruct (find _ _); [| auto].
  destruct (canvas s) eqn:Hc; [| auto].
  destruct (get_prop _ _) as [ts |]; [| auto].
  destruct (truthy ts); simpl; auto.
Qed.

Lemma exec_world_ok op w : world_ok w -> world_ok (exec op w).
Proof.
  intros Hw. pose proof (proj1 Hw) as Hok.
  destruct op; simpl;
    try (apply on_store_world_ok; [exact Hw | | simpl; auto];
         apply (frame_timeline_ok (store w)); [reflexivity | reflexivity | simpl; eauto | exact Hok];
         fail).
  - (* saveToHistory *)
    apply on_store_world_ok;
      [exact Hw | apply saveToHistory_timeline_ok, Hok | apply saveToHistory_entries].
  - (* undo *)
    apply request_world_ok; [exact Hw | intros t Ht; eapply undo_request_task; eauto].
  - (* redo *)
    apply request_world_ok; [exact Hw | intros t Ht; eapply redo_request_task; eauto].
  - (* loadPreset *)
    destruct (loadPreset_frame presetId (store w)) as (Hh & Hi & Hc).
    apply on_store_world_ok; [exact Hw | | rewrite Hh; auto].
    apply (frame_timeline_ok (store w)); [exact Hh | exact Hi | rewrite Hc; auto | exact Hok].
  - (* updateCanvasSettings *)
    apply on_store_world_ok; [exact Hw | | simpl; auto].
    apply (frame_timeline_ok (store w)); [reflexivity | reflexivity | | exact Hok].
    simpl. destruct (canvas (store w)); eauto.
  - (* deleteSelectedObject *)
    apply on_store_world_ok; [exact Hw | |].
    + timeline_stable deleteSelectedObject_stable.
    + entries_stable deleteSelectedObject_stable.
  - (* duplicateSelectedObject *)
    apply (request_world_ok fresh (Ret (duplicate_request (store w))) w); [exact Hw |].
    intros t Ht. injection Ht as Ht. unfold duplicate_request in Ht.
    destruct (canvas (store w)), (activeObject (store w)); try discriminate.
    injection Ht as <-. exact I.
  - (* bringToFront *)
    apply on_store_world_ok; [exact Hw | |].
    + timeline_stable bringToFront_stable.
    + entries_stable bringToFront_stable.
  - (* sendToBack *)
    apply on_store_world_ok; [exact Hw | |].
    + timeline_stable sendToBack_stable.
    + entries_stable sendToBack_stable.
  - (* exportCanvas *)
    exact Hw.
  - (* importImage *)
    apply (request_world_ok fresh (Ret (import_request imageUrl (store w))) w); [exact Hw |].
    intros t Ht. injection Ht as Ht. unfold import_request in Ht.
    destruct (canvas (store w)); try discriminate.
    injection Ht as <-. exact I.
  - (* saveToLocalStorage *)
    unfold saveToLocalStorage. destruct stored; simpl; [| exact Hw].
    apply (world_ok_step w); [exact Hw | | simpl; auto | auto].
    apply (frame_timeline_ok (store w)); [reflexivity | reflexivity | simpl; eauto | exact Hok].
  - (* loadFromLocalStorage *)
    unfold loadFromLocalStorage.
    destruct (localStorage w) as [saved |]; [| exact Hw].
    destruct (negb (string_nonempty saved)); [exact Hw |].
    destruct (session_parse saved) as [data |]; [| exact Hw].
    match goal with
    | |- world_ok (match _ with Some _ => match _ with Some _ => launch _ _ ?w1 | None => _ end
                                | None => _ end) =>
        assert (world_ok w1) as Hw1
    end.
    { apply on_store_world_ok; [exact Hw | | simpl; auto].
      apply (frame_timeline_ok (store w)); [reflexivity | reflexivity | simpl; eauto | exact Hok]. }
    destruct (sr_canvasData data); [| exact Hw1].
    destruct (canvas (store w)); [| exact Hw1].
    apply launch_world_ok; [exact Hw1 | exact I].
  - (* an object added by a tool *)
    apply on_store_world_ok; [exact Hw | |].
    + timeline_stable canvas_edit_add_stable.
    + entries_stable canvas_edit_add_stable.
  - apply finish_world_ok, Hw.
  - apply finish_world_ok, Hw.
Qed.

Lemma run_world_ok ops w : world_ok w -> world_ok (run ops w).
Proof.
  revert w. induction ops as [| op ops IH]; intros w Hok; simpl; [exact Hok |].
  apply IH, exec_world_ok, Hok.
Qed.

Lemma reachable_world_ok w : reachable w -> world_ok w.
Proof.
  intros (saved & ops & ->). apply run_world_ok.
  split; [| apply Forall_nil; exact I].
  unfold timeline_ok. simpl. split; [left; split; reflexivity |].
  split; [lia | intros H0; contradiction].
Qed.

Lemma reachable_timeline_ok w : reachable w -> timeline_ok (store w).
Proof. intros Hr. apply reachable_world_ok, Hr. Qed.

(** *** The cap and the pruning of the redo branch *)

(** Recording on a full-length cursor appends and keeps the last 50. *)
Lemma run_recordings acts : forall w c,
  canvas (store w) = Some c ->
  (length (history (store w)) <= 50)%nat ->
  historyIndex (store w) = Z.of_nat (length (history (store w))) - 1 ->
  let s' := store (run (recordings acts) w) in
  history s' =
    slice_from (-50)
      (history (store w) ++ List.map (fun a => newHistoryItem c a.1.1 a.1.2 a.2) acts)
  /\ historyIndex s' = Z.of_nat (length (history s')) - 1
  /\ canvas s' = Some c.
Proof.
  induction acts as [| a acts IH]; intros w c Hc Hlen Hidx; simpl.
  - rewrite app_nil_r, slice_from_50.
    replace (length (history (store w)) - 50)%nat with 0%nat by lia.
    rewrite drop_0. auto.
  - destruct (saveToHistory_bound a.1.1 a.1.2 a.2 (store w) c Hc) as (Hh & Hi & Hc' & _).
    rewrite Hidx in Hh.
    rewrite slice_prefix in Hh by lia.
    replace (Z.to_nat (Z.of_nat (length (history (store w))) - 1 + 1))
      with (length (history (store w))) in Hh by lia.
    rewrite take_ge in Hh by lia.
    specialize (IH (on_store (saveToHistory a.1.1 a.1.2 a.2) w) c).
    simpl in IH. destruct IH as (IHh & IHi & IHc).
    + exact Hc'.
    + rewrite Hh, length_slice_from_50. lia.
    + exact Hi.
    + split; [| split; assumption].
      rewrite IHh, Hh, slice_from_50_app, <- app_assoc. reflexivity.
Qed.

(** C2. From an empty timeline with a canvas bound, 51 [saveToHistory] calls
    leave exactly 50 entries: those of the 2nd to the 51st call, in order (the
    first one recorded is the one dropped), with the cursor on the last. *)
Theorem cap_enforced w c acts :
  canvas (store w) = Some c ->
  history (store w) = [] ->
  historyIndex (store w) = -1 ->
  length acts = 51%nat ->
  let s' := store (run (recordings acts) w) in
  history s' = List.map (fun a => newHistoryItem c a.1.1 a.1.2 a.2) (drop 1 acts)
  /\ length (history s') = 50%nat
  /\ historyIndex s' = 49.
Proof.
  intros Hc Hh Hi Hn.
  destruct (run_recordings acts w c Hc) as (Hh' & Hi' & _).
  { rewrite Hh. simpl. lia. }
  { rewrite Hh, Hi. reflexivity. }
  rewrite Hh in Hh'. simpl in Hh'.
  rewrite slice_from_50, length_map, Hn in Hh'.
  replace (51 - 50)%nat with 1%nat in Hh' by lia.
  assert (history (store (run (recordings acts) w)) =
          List.map (fun a => newHistoryItem c a.1.1 a.1.2 a.2) (drop 1 acts)) as Heq.
  { rewrite Hh'. symmetry. apply fmap_drop. }
  assert (length (history (store (run (recordings acts) w))) = 50%nat) as Hlen.
  { rewrite Heq, length_map, length_drop, Hn. reflexivity. }
  simpl. split; [exact Heq |]. split; [exact Hlen |].
  rewrite Hi', Hlen. reflexivity.
Qed.

(** C3. In a reachable session whose cursor is below the last index and whose
    canvas is bound, [saveToHistory] keeps the entries up to the cursor,
    drops every entry beyond it, appends the new one, and [canRedo] is false
    afterwards. *)
Theorem redo_branch_pruned w c act id now :
  reachable w ->
  canvas (store w) = Some c ->
  historyIndex (store w) < Z.of_nat (length (history (store w))) - 1 ->
  let s' := store (exec (OSaveToHistory act id now) w) in
  history s' =
    take (Z.to_nat (historyIndex (store w) + 1)) (history (store w))
      ++ [newHistoryItem c act id now]
  /\ canRedo s' = false.
Proof.
  intros Hr Hc Hlt.
  destruct (reachable_timeline_ok w Hr) as (Hidx & Hlen & _).
  assert (-1 <= historyIndex (store w)) as Hnn by (destruct Hidx as [[_ ->] | [_ ?]]; lia).
  destruct (saveToHistory_bound act id now (store w) c Hc) as (Hh & Hi & _).
  simpl. split.
  - rewrite Hh, slice_prefix by lia.
    rewrite slice_from_50, length_app, length_take. simpl.
    replace (_ - 50)%nat with 0%nat by lia.
    apply drop_0.
  - unfold canRedo. rewrite Hi. apply Z.ltb_irrefl.
Qed.

(** *** The dirty flag *)

Lemma saveToHistory_dirty act id now s :
  saveToHistory act id now s = s \/ isDirty (saveToHistory act id now s) = true.
Proof.
  unfold saveToHistory. destruct (canvas s); [right; reflexivity | left; reflexivity].
Qed.

Lemma saveToHistory_bound_dirty act id now s :
  is_Some (canvas s) -> isDirty (saveToHistory act id now s) = true.
Proof.
  intros [c Hc]. unfold saveToHistory. rewrite Hc. reflexivity.
Qed.

Lemma saveToHistory_stays_dirty act id now s :
  isDirty s = true -> isDirty (saveToHistory act id now s) = true.
Proof.
  intros Hd. destruct (saveToHistory_dirty act id now s) as [-> | ->]; auto.
Qed.

Lemma isDirty_show sc s : isDirty (show sc s) = isDirty s.
Proof. unfold show. destruct (canvas s); reflexivity. Qed.

Ltac dirty_stable lem :=
  apply (lem (fun s0 => isDirty s0 = true));
    [intros ? ? ?; apply saveToHistory_stays_dirty
    | intros ? ?; rewrite isDirty_show; auto
    | intros ? ?; simpl; auto
    | try assumption ..].

Lemma perform_stays_dirty fresh k e s :
  isDirty s = true -> isDirty (perform fresh k e s) = true.
Proof. dirty_stable perform_stable. Qed.

(** No callback turns a set flag off. *)
Lemma complete_stays_dirty fresh t s :
  isDirty s = true -> isDirty (complete fresh t s) = true.
Proof.
  intros Hd. unfold complete. destruct (canvas s) as [c |]; [| exact Hd].
  destruct t; simpl; auto using perform_stays_dirty, saveToHistory_stays_dirty.
Qed.

(** A callback other than the load of a saved session leaves the flag set,
    unless no canvas is bound and it does nothing. *)
Lemma complete_dirty fresh t s :
  session_load t = false ->
  complete fresh t s = s \/ isDirty (complete fresh t s) = true.
Proof.
  intros Hk. unfold complete. destruct (canvas s) as [c |] eqn:Hc; [| left; reflexivity].
  assert (is_Some (canvas s)) as Hs by (rewrite Hc; eauto).
  right. destruct t; [reflexivity | discriminate | |]; simpl;
    apply saveToHistory_bound_dirty; auto using perform_canvas.
Qed.

Lemma launch_dirty fresh t w :
  session_load t = false ->
  store (launch fresh t w) = store w \/ isDirty (store (launch fresh t w)) = true.
Proof.
  intros Hk. unfold launch. destruct (is_late t); [left; reflexivity |].
  simpl. apply complete_dirty, Hk.
Qed.

Lemma launch_stays_dirty fresh t w :
  isDirty (store w) = true -> isDirty (store (launch fresh t w)) = true.
Proof.
  intros Hd. unfold launch. destruct (is_late t); [exact Hd |].
  simpl. apply complete_stays_dirty, Hd.
Qed.

Lemma undo_request_kind s t : undo_request s = Ret (Some t) -> session_load t = false.
Proof.
  unfold undo_request. destruct (canvas s); [| discriminate].
  destruct (historyIndex s <=? 0); [discriminate |].
  destruct (index _ _); [| discriminate]. intros Ht. injection Ht as <-. reflexivity.
Qed.

Lemma redo_request_kind s t : redo_request s = Ret (Some t) -> session_load t = false.
Proof.
  unfold redo_request. destruct (canvas s); [| discriminate].
  destruct (historyIndex s >=? _); [discriminate |].
  destruct (index _ _); [| discriminate]. intros Ht. injection Ht as <-. reflexivity.
Qed.

Lemma duplicate_request_kind s t : duplicate_request s = Some t -> session_load t = false.
Proof.
  unfold duplicate_request. destruct (canvas s), (activeObject s); try discriminate.
  intros Ht. injection Ht as <-. reflexivity.
Qed.

Lemma import_request_kind imageUrl s t :
  import_request imageUrl s = Some t -> session_load t = false.
Proof.
  unfold import_request. destruct (canvas s); try discriminate.
  intros Ht. injection Ht as <-. reflexivity.
Qed.

Lemma request_dirty fresh r w :
  (forall t, r = Ret (Some t) -> session_load t = false) ->
  store (request fresh r w) = store w \/ isDirty (store (request fresh r w)) = true.
Proof.
  intros Hk. destruct r as [[t |] |]; simpl; [| left; reflexivity | left; reflexivity].
  apply launch_dirty, Hk. reflexivity.
Qed.

Lemma request_stays_dirty fresh r w :
  isDirty (store w) = true -> isDirty (store (request fresh r w)) = true.
Proof.
  intros Hd. destruct r as [[t |] |]; simpl; [| exact Hd | exact Hd].
  apply launch_stays_dirty, Hd.
Qed.

Lemma loadPreset_dirty presetId s :
  settle (loadPreset presetId s) s = s \/ isDirty (settle (loadPreset presetId s) s) = true.
Proof.
  unfold loadPreset. destruct (find _ _); [| left; reflexivity].
  destruct (canvas s); [| left; reflexivity].
  destruct (get_prop _ _) as [ts |]; [| left; reflexivity].
  destruct (truthy ts); [right; reflexivity | left; reflexivity].
Qed.

(** The operations that record after a call into the canvas. *)
Lemma deleteSelectedObject_dirty fresh s :
  deleteSelectedObject fresh s = s \/ isDirty (deleteSelectedObject fresh s) = true.
Proof.
  unfold deleteSelectedObject. destruct (canvas s) as [c |] eqn:Hc; [| left; reflexivity].
  destruct (activeObject s); [| left; reflexivity].
  right. simpl. apply saveToHistory_bound_dirty, perform_canvas. rewrite Hc. eauto.
Qed.

Lemma bringToFront_dirty fresh s :
  bringToFront fresh s = s \/ isDirty (bringToFront fresh s) = true.
Proof.
  unfold bringToFront. destruct (canvas s) as [c |] eqn:Hc; [| left; reflexivity].
  destruct (activeObject s); [| left; reflexivity].
  right. apply saveToHistory_bound_dirty, perform_canvas. rewrite Hc. eauto.
Qed.

Lemma sendToBack_dirty fresh s :
  sendToBack fresh s = s \/ isDirty (sendToBack fresh s) = true.
Proof.
  unfold sendToBack. destruct (canvas s) as [c |] eqn:Hc; [| left; reflexivity].
  destruct (activeObject s); [| left; reflexivity].
  right. apply saveToHistory_bound_dirty, perform_canvas. rewrite Hc. eauto.
Qed.

Lemma canvas_edit_add_dirty o fresh s :
  canvas_edit_add o fresh s = s \/ isDirty (canvas_edit_add o fresh s) = true.
Proof.
  unfold canvas_edit_add. destruct (canvas s) as [c |] eqn:Hc; [| left; reflexivity].
  right. unfold perform. simpl. rewrite isDirty_show.
  apply saveToHistory_bound_dirty, canvas_show. rewrite Hc. eauto.
Qed.

Lemma finish_dirty k fresh w :
  store (finish false k fresh w) = store w
  \/ isDirty (store (finish false k fresh w)) = true.
Proof.
  unfold finish. destruct (pending w !! k) as [t |]; [| left; reflexivity].
  case_bool_decide as Hk; [| left; reflexivity].
  simpl. apply complete_dirty, Hk.
Qed.

Lemma finish_stays_dirty restoring k fresh w :
  isDirty (store w) = true -> isDirty (store (finish restoring k fresh w)) = true.
Proof.
  intros Hd. unfold finish. destruct (pending w !! k) as [t |]; [| exact Hd].
  case_bool_decide; [| exact Hd].
  simpl. apply complete_stays_dirty, Hd.
Qed.

(** An operation either leaves the session's content as it was, or binds a
    canvas or restores a saved session, or leaves the flag set. *)
Lemma exec_content_dirty op w :
  content (store (exec op w)) = content (store w)
  \/ binds_or_restores op
  \/ isDirty (store (exec op w)) = true.
Proof.
  assert (forall s', s' = store w \/ isDirty s' = true ->
            content s' = content (store w) \/ binds_or_restores op \/ isDirty s' = true)
    as Hor.
  { intros s' [-> | Hd]; auto. }
  destruct op; simpl;
    try (left; reflexivity);
    try (right; right; reflexivity).
  - right; left; left; eauto.
  - apply Hor, saveToHistory_dirty.
  - apply Hor, request_dirty. intros t. apply undo_request_kind.
  - apply Hor, request_dirty. intros t. apply redo_request_kind.
  - apply Hor, loadPreset_dirty.
  - apply Hor, deleteSelectedObject_dirty.
  - apply Hor, (request_dirty fresh (Ret (duplicate_request (store w)))).
    intros t Ht. injection Ht as Ht. eapply duplicate_request_kind, Ht.
  - apply Hor, bringToFront_dirty.
  - apply Hor, sendToBack_dirty.
  - apply Hor, (request_dirty fresh (Ret (import_request imageUrl (store w)))).
    intros t Ht. injection Ht as Ht. eapply import_request_kind, Ht.
  - destruct stored; left; reflexivity.
  - right; left; right; left; eauto.
  - apply Hor, canvas_edit_add_dirty.
  - apply Hor, finish_dirty.
  - right; left; right; right; eauto.
Qed.

(** Apart from the three operations that write [isDirty: false], no operation
    turns a set flag off. *)
Lemma exec_keeps_dirty op w :
  isDirty (store w) = true ->
  writes_clean op \/ isDirty (store (exec op w)) = true.
Proof.
  intros Hd. unfold writes_clean.
  destruct op; simpl; try (right; exact Hd); try (right; reflexivity); auto.
  - destruct dirty; auto.
  - right. apply saveToHistory_stays_dirty, Hd.
  - right. apply request_stays_dirty, Hd.
  - right. apply request_stays_dirty, Hd.
  - destruct (loadPreset_dirty presetId (store w)) as [-> | ->]; auto.
  - destruct (deleteSelectedObject_dirty fresh (store w)) as [-> | ->]; auto.
  - right. apply (request_stays_dirty fresh (Ret (duplicate_request (store w)))), Hd.
  - destruct (bringToFront_dirty fresh (store w)) as [-> | ->]; auto.
  - destruct (sendToBack_dirty fresh (store w)) as [-> | ->]; auto.
  - right. apply (request_stays_dirty fresh (Ret (import_request imageUrl (store w)))), Hd.
  - destruct stored; auto.
  - right. unfold loadFromLocalStorage.
    destruct (localStorage w) as [saved |]; [| exact Hd].
    destruct (negb (string_nonempty saved)); [exact Hd |].
    destruct (session_parse saved) as [data |]; [| exact Hd].
    destruct (sr_canvasData data); [| exact Hd].
    destruct (canvas (store w)); [| exact Hd].
    apply launch_stays_dirty. exact Hd.
  - destruct (canvas_edit_add_dirty o fresh (store w)) as [-> | ->]; auto.
  - right. apply finish_stays_dirty, Hd.
  - right. apply finish_stays_dirty, Hd.
Qed.

(** C5, amended. Every operation other than [setCanvas] and
    [loadFromLocalStorage] that changes the canvas, the timeline, the cursor
    or a settings record leaves the dirty flag set; and the only operations
    that turn a set flag off are a [saveToLocalStorage] whose write
    succeeded, [clearLocalStorage] and [setIsDirty(false)]. *)
Theorem dirty_flag_discipline op w :
  (content (store (exec op w)) <> content (store w) ->
   ~ binds_or_restores op ->
   isDirty (store (exec op w)) = true)
  /\ (clears_dirty op w -> writes_clean op).
Proof.
  split.
  - intros Hch Hnb.
    destruct (exec_content_dirty op w) as [Hsame | [Hb | Hd]];
      [contradiction | contradiction | exact Hd].
  - intros [Hd Hc].
    destruct (exec_keeps_dirty op w Hd) as [Hw | Hd']; [exact Hw |].
    rewrite Hd' in Hc. discriminate.
Qed.

End StoreFacts.


(** *** The properties above at concrete sessions *)

Section StoreExamples.
#[local] Existing Instance Samples.list_surface.
#[local] Existing Instance Samples.list_codec.
Import Samples.

Lemma two_records_reachable : reachable two_records.
Proof.
  exists None,
    [OSetCanvas canvas_ab; OSaveToHistory "Object added" "h1" 1;
     OSaveToHistory "Object modified" "h2" 2].
  reflexivity.
Defined.

Lemma one_undone_reachable : reachable one_undone.
Proof.
  exists None,
    [OSetCanvas canvas_ab; OSaveToHistory "Object added" "h1" 1;
     OSaveToHistory "Object modified" "h2" 2; OUndo (numbered "u")].
  vm_compute. reflexivity.
Defined.

Lemma crowded_session_reachable : reachable crowded_session.
Proof. exists None, crowded_ops. reflexivity. Defined.

(** C1, at a failing input. A tool has put 18 shapes on the canvas, one
    after the other, and the handler of [object:added] has recorded each:
    [canUndo] holds and the snapshot under the cursor is the canvas on
    display. [undo] and then [redo], each of which completes at once, put the
    cursor back on its index, 17, but leave the canvas with the 15 shapes
    [o4] to [o18]. While [undo] emptied and refilled the canvas the handlers
    recorded 35 more snapshots, the cap dropped the 3 oldest entries, and the
    entry [redo] finds above the cursor is no longer the one undone. *)
Theorem undo_redo_loses_objects :
  let w := crowded_session in
  let w' := run [OUndo (numbered "u"); ORedo (numbered "r")] w in
  reachable w
  /\ canUndo (store w) = true
  /\ scene <$> canvas (store w) = Some shapes_18
  /\ canvasState <$> index (history (store w)) (historyIndex (store w))
     = Some (JSON_stringify (canvas_toJSON shapes_18))
  /\ historyIndex (store w) = 17
  /\ pending (run [OUndo (numbered "u")] w) = []
  /\ pending w' = []
  /\ historyIndex (store w') = 17
  /\ scene <$> canvas (store w') = Some (drop 3 shapes_18)
  /\ scene <$> canvas (store w') <> scene <$> canvas (store w).
Proof.
  split; [exact crowded_session_reachable |].
  repeat (split; [vm_compute; reflexivity |]).
  vm_compute. discriminate.
Qed.

Lemma overtaken_session_reachable :
  reachable (exec (OCallback 0 (numbered "s9-")) overtaken_session).
Proof.
  exists None, (overtaken_ops ++ [OCallback 0 (numbered "s9-")]).
  vm_compute. reflexivity.
Defined.

(** C4, at a failing input. A shape is drawn and deleted and an image is
    imported; after two [undo]s, [redo] asks for the snapshot that holds the
    image, which is not ready at once, and its callback is going to write the
    cursor 3, computed from the cursor [redo] read. Two more [undo]s, on
    snapshots without image, complete at once and prune the timeline: it has
    3 entries and the cursor is 0 when the image arrives. The load of [redo]
    then records 2 snapshots from the cursor 0, which leaves 3 entries, and
    its callback writes the cursor 3: the length of the timeline, not an index
    into it. *)
Theorem late_redo_leaves_cursor_outside :
  let w := overtaken_session in
  let w' := exec (OCallback 0 (numbered "s9-")) w in
  reachable w'
  /\ pending w = [HistoryLoad "blob:1" 3]
  /\ length (history (store w)) = 3%nat
  /\ historyIndex (store w) = 0
  /\ scene <$> canvas (store w) = Some ["a"]
  /\ pending w' = []
  /\ scene <$> canvas (store w') = Some ["blob:1"]
  /\ length (history (store w')) = 3%nat
  /\ historyIndex (store w') = 3
  /\ ~ (0 <= historyIndex (store w') < Z.of_nat (length (history (store w'))))
  /\ index (history (store w')) (historyIndex (store w')) = None.
Proof.
  split; [exact overtaken_session_reachable |].
  do 8 (split; [vm_compute; reflexivity |]).
  split; [vm_compute; intros [_ Hlt]; discriminate | vm_compute; reflexivity].
Qed.

Lemma cap_enforced_witness :
  length actions_51 = 51%nat
  /\ let s' := store (run (recordings actions_51) (run [OSetCanvas canvas_ab] (start None))) in
     history s' =
       List.map (fun a => newHistoryItem canvas_ab a.1.1 a.1.2 a.2) (drop 1 actions_51)
     /\ length (history s') = 50%nat
     /\ historyIndex s' = 49.
Proof.
  split; [reflexivity |].
  apply (cap_enforced (run [OSetCanvas canvas_ab] (start None)) canvas_ab actions_51);
    reflexivity.
Defined.

Lemma redo_branch_pruned_witness :
  reachable one_undone
  /\ canvas (store one_undone) = Some canvas_ab
  /\ historyIndex (store one_undone) < Z.of_nat (length (history (store one_undone))) - 1
  /\ let s' := store (exec (OSaveToHistory "Object added" "h3" 3) one_undone) in
     history s' =
       take (Z.to_nat (historyIndex (store one_undone) + 1)) (history (store one_undone))
         ++ [newHistoryItem canvas_ab "Object added" "h3" 3]
     /\ canRedo s' = false.
Proof.
  split; [exact one_undone_reachable |].
  split; [reflexivity |]. split; [reflexivity |].
  apply (redo_branch_pruned one_undone); [exact one_undone_reachable | reflexivity | reflexivity].
Defined.

(** C5 as stated fails. [clearLocalStorage] and [setIsDirty(false)] turn a
    set dirty flag off although neither is a persistence save; [savePreset]
    changes the store's presets, [loadFromLocalStorage] the text settings
    and [setCanvas] the canvas that is bound, all without setting the flag. *)
Lemma dirty_flag_counterexample :
  (isDirty (store dirty_session) = true
   /\ isDirty (store (exec OClearLocalStorage dirty_session)) = false
   /\ OClearLocalStorage <> OSaveToLocalStorage true
   /\ isDirty (store (exec (OSetIsDirty false) dirty_session)) = false)
  /\ (presets (store (exec (OSavePreset "Mine" (obj []) "p1" 5) (start None)))
        <> presets (store (start None))
      /\ isDirty (store (exec (OSavePreset "Mine" (obj []) "p1" 5) (start None))) = false)
  /\ (field (textSettings (store restorable_session)) "fontSize" = JNum 20
      /\ field (textSettings
                  (store (exec (OLoadFromLocalStorage (numbered "l")) restorable_session)))
           "fontSize" = JNum 32
      /\ isDirty (store (exec (OLoadFromLocalStorage (numbered "l")) restorable_session))
         = false)
  /\ (canvas (store (start None)) = None
      /\ canvas (store (exec (OSetCanvas canvas_ab) (start None))) = Some canvas_ab
      /\ isDirty (store (exec (OSetCanvas canvas_ab) (start None))) = false).
Proof.
  split; [repeat split; (reflexivity || discriminate) |].
  split; [split; [discriminate | reflexivity] |].
  split; repeat split; vm_compute; reflexivity.
Qed.

Lemma dirty_flag_discipline_witness :
  (content (store (exec (OUpdateTextSettings (obj [("fontSize", JNum 20)])) (start None)))
     <> content (store (start None))
   /\ ~ binds_or_restores (OUpdateTextSettings (obj [("fontSize", JNum 20)]))
   /\ isDirty (store (exec (OUpdateTextSettings (obj [("fontSize", JNum 20)])) (start None)))
      = true)
  /\ (clears_dirty OClearLocalStorage dirty_session /\ writes_clean OClearLocalStorage).
Proof.
  assert (content (store (exec (OUpdateTextSettings (obj [("fontSize", JNum 20)]))
                            (start None)))
          <> content (store (start None))) as Hch.
  { intros Heq. apply (f_equal snd) in Heq. simpl in Heq.
    apply (f_equal (fun v => field v "fontSize")) in Heq.
    vm_compute in Heq. discriminate. }
  assert (~ binds_or_restores (OUpdateTextSettings (obj [("fontSize", JNum 20)]))) as Hnb.
  { intros [[c Hc] | [[fresh Hl] | (k & fresh & Hl)]]; discriminate. }
  assert (clears_dirty OClearLocalStorage dirty_session) as Hcl.
  { split; reflexivity. }
  split.
  - split; [exact Hch |]. split; [exact Hnb |].
    exact (proj1 (dirty_flag_discipline _ (start None)) Hch Hnb).
  - split; [exact Hcl |].
    exact (proj2 (dirty_flag_discipline _ dirty_session) Hcl).
Defined.

End StoreExamples.
End StoreFacts.

(** ** The tool registry *)

Module ToolRegistryFacts.
Import ToolRegistry.
Section ToolRegistryFacts.
Context {Canvas Event : Type}.
Implicit Types (r : Registry Canvas Event) (e : Env Canvas).

(** What the first block of [activateTool] does when the active tool has a
    non-empty id and is still registered with a handler. *)
Lemma deactivateCurrent_registered r e a c defA hA :
  activeTool r = Some a -> activeCanvas r = Some c ->
  string_nonempty a = true ->
  tools r !! a = Some defA -> handler defA = Some hA ->
  deactivateCurrent r e = invoke (deactivate hA) (Deactivate a c) c e.
Proof.
  intros Ha Hc Hne Hreg Hh. unfold deactivateCurrent.
  rewrite Ha, Hc, Hne, Hreg, Hh. reflexivity.
Qed.

(** The first block invokes at most one hook, and never an [activate]. *)
Lemma deactivateCurrent_calls r e :
  calls (deactivateCurrent r e) = calls e
  \/ exists a c, calls (deactivateCurrent r e) = calls e ++ [Deactivate a c].
Proof.
  unfold deactivateCurrent.
  destruct (activeTool r) as [a |]; [| left; reflexivity].
  destruct (activeCanvas r) as [c |]; [| left; reflexivity].
  destruct (string_nonempty a); [| left; reflexivity].
  destruct (tools r !! a) as [t |]; [| left; reflexivity].
  destruct (handler t); [right; simpl; eauto | left; reflexivity].
Qed.

(** C6, amended. When the active tool [a] has a non-empty id and is still
    registered with a handler, [activateTool b surface] for a registered [b]
    with a handler invokes exactly two hooks, [a]'s [deactivate] on the bound
    canvas and then [b]'s [activate] on [surface], in this order, and leaves
    [b] as the one active tool, bound to [surface]. *)
Theorem activate_deactivates_first r e a c b surface defA hA defB hB :
  activeTool r = Some a -> activeCanvas r = Some c ->
  string_nonempty a = true ->
  tools r !! a = Some defA -> handler defA = Some hA ->
  tools r !! b = Some defB -> handler defB = Some hB ->
  calls (activateTool b surface r e).2 = calls e ++ [Deactivate a c; Activate b surface]
  /\ canvases (activateTool b surface r e).2 =
       alter (activate hB) surface (alter (deactivate hA) c (canvases e))
  /\ getActiveTool (activateTool b surface r e).1 = Some b
  /\ activeCanvas (activateTool b surface r e).1 = Some surface
  /\ tools (activateTool b surface r e).1 = tools r.
Proof.
  intros Ha Hc Hne HregA HhA HregB HhB. unfold activateTool.
  rewrite HregB, HhB.
  rewrite (deactivateCurrent_registered r e a c defA hA) by assumption.
  simpl. rewrite <- app_assoc. auto.
Qed.

(** C7, amended. For an id that is not registered, [activateTool] leaves the
    registry as it was (same active tool, same bound canvas, same catalog)
    and invokes no [activate] hook; but the first block has already run, so
    an active tool with a non-empty id that is still registered with a
    handler has had its [deactivate] hook invoked on the bound canvas. *)
Theorem unknown_tool_keeps_registry r e toolId surface :
  tools r !! toolId = None ->
  (activateTool toolId surface r e).1 = r
  /\ (exists l, calls (activateTool toolId surface r e).2 = calls e ++ l
               /\ forall b s, Activate b s ∉ l)
  /\ (forall a c defA hA,
        activeTool r = Some a -> activeCanvas r = Some c ->
        string_nonempty a = true ->
        tools r !! a = Some defA -> handler defA = Some hA ->
        (activateTool toolId surface r e).2
          = invoke (deactivate hA) (Deactivate a c) c e).
Proof.
  intros Hnone. unfold activateTool. rewrite Hnone. simpl.
  split; [reflexivity |]. split.
  - destruct (deactivateCurrent_calls r e) as [-> | (a & c & ->)].
    + exists []. rewrite app_nil_r. split; [reflexivity |].
      intros b s Hin. inversion Hin.
    + exists [Deactivate a c]. split; [reflexivity |].
      intros b s Hin. apply list_elem_of_singleton in Hin. discriminate.
  - intros a c defA hA. apply deactivateCurrent_registered.
Qed.

End ToolRegistryFacts.

(** *** The built-in tools *)

Section ToolRegistryExamples.
Import Samples.

(** The registry and the canvases once the text tool is active on canvas 0. *)
Lemma text_active :
  activateTool "text" 0%nat ToolRegistry one_canvas
  = ({| tools := tools ToolRegistry; activeTool := Some "text"; activeCanvas := Some 0%nat |},
     {| canvases := {[ 0%nat := configure false false (Some "text") blank_canvas ]};
        calls := [Activate "text" 0%nat] |}).
Proof. reflexivity. Qed.

(** C6 as stated fails for a tool registered under the empty id: it is the
    active tool, it has a handler, and activating the text tool does not
    invoke its [deactivate] hook. It also fails for a tool that was
    unregistered while active. *)
Lemma exclusivity_counterexample :
  (let r0 := register namelessTool ToolRegistry in
   let r1 := (activateTool "" 0%nat r0 one_canvas).1 in
   let e1 := (activateTool "" 0%nat r0 one_canvas).2 in
   getActiveTool r1 = Some ""
   /\ tools r1 !! "" = Some namelessTool
   /\ is_Some (handler namelessTool)
   /\ is_Some (handler textTool)
   /\ tools r1 !! "text" = Some textTool
   /\ calls (activateTool "text" 0%nat r1 e1).2 = calls e1 ++ [Activate "text" 0%nat])
  /\ (let r1 := unregister "select" (activateTool "select" 0%nat ToolRegistry one_canvas).1 in
      let e1 := (activateTool "select" 0%nat ToolRegistry one_canvas).2 in
      getActiveTool r1 = Some "select"
      /\ calls (activateTool "text" 0%nat r1 e1).2 = calls e1 ++ [Activate "text" 0%nat]).
Proof.
  split.
  - simpl. repeat split; eauto.
  - simpl. repeat split; eauto.
Qed.

Lemma activate_deactivates_first_witness :
  let r1 := (activateTool "text" 0%nat ToolRegistry one_canvas).1 in
  let e1 := (activateTool "text" 0%nat ToolRegistry one_canvas).2 in
  (activeTool r1 = Some "text" /\ activeCanvas r1 = Some 0%nat
   /\ string_nonempty "text" = true
   /\ tools r1 !! "text" = Some textTool
   /\ tools r1 !! "rectangle" = Some rectangleTool)
  /\ calls (activateTool "rectangle" 0%nat r1 e1).2
       = calls e1 ++ [Deactivate "text" 0%nat; Activate "rectangle" 0%nat]
  /\ getActiveTool (activateTool "rectangle" 0%nat r1 e1).1 = Some "rectangle".
Proof.
  intros r1 e1.
  split; [repeat split; reflexivity |].
  destruct (activate_deactivates_first r1 e1 "text" 0%nat "rectangle" 0%nat
              textTool
              {| activate := configure false false (Some "text");
                 deactivate := shape_tool_deactivate;
                 onMouseDown := Some (fun p =>
                   add_active (IText "Edit text" (pointer_x p) (pointer_y p)
                                 "Arial" 32 "#000000"));
                 onMouseMove := None; onMouseUp := None |}
              rectangleTool
              {| activate := configure false false (Some "crosshair");
                 deactivate := shape_tool_deactivate;
                 onMouseDown := Some (fun p =>
                   add_active (Rect (pointer_x p) (pointer_y p) 100 100
                                 "rgba(0, 123, 255, 0.3)" "#007bff" 2));
                 onMouseMove := None; onMouseUp := None |})
    as (Hcalls & _ & Hact & _); try reflexivity.
  split; [exact Hcalls | exact Hact].
Defined.

(** C7 as stated fails: with the text tool active on canvas 0, asking for an
    unregistered tool leaves the registry as it was, yet the text tool's
    [deactivate] hook runs and changes the canvas. *)
Lemma unknown_tool_counterexample :
  let r1 := (activateTool "text" 0%nat ToolRegistry one_canvas).1 in
  let e1 := (activateTool "text" 0%nat ToolRegistry one_canvas).2 in
  tools r1 !! "eraser" = None
  /\ getActiveTool r1 = Some "text"
  /\ (activateTool "eraser" 0%nat r1 e1).1 = r1
  /\ calls (activateTool "eraser" 0%nat r1 e1).2 = calls e1 ++ [Deactivate "text" 0%nat]
  /\ selection <$> (canvases e1 !! 0%nat) = Some false
  /\ selection <$> (canvases (activateTool "eraser" 0%nat r1 e1).2 !! 0%nat) = Some true
  /\ defaultCursor <$> (canvases e1 !! 0%nat) = Some "text"
  /\ defaultCursor <$> (canvases (activateTool "eraser" 0%nat r1 e1).2 !! 0%nat)
     = Some "default".
Proof. simpl. repeat split. Qed.

Lemma unknown_tool_keeps_registry_witness :
  let r1 := (activateTool "text" 0%nat ToolRegistry one_canvas).1 in
  let e1 := (activateTool "text" 0%nat ToolRegistry one_canvas).2 in
  tools r1 !! "eraser" = None
  /\ (activateTool "eraser" 0%nat r1 e1).1 = r1
  /\ (exists l, calls (activateTool "eraser" 0%nat r1 e1).2 = calls e1 ++ l
                /\ forall b s, Activate b s ∉ l).
Proof.
  intros r1 e1.
  split; [reflexivity |].
  destruct (unknown_tool_keeps_registry r1 e1 "eraser" 0%nat) as (Hr & Hl & _);
    [reflexivity |].
  split; [exact Hr | exact Hl].
Defined.

End ToolRegistryExamples.
End ToolRegistryFacts.

(** ** The preset catalog *)

Module ToolPresetsFacts.
Import ToolPresets.
Section ToolPresetsFacts.
Context `{Cd : Codec}.
Variable JSON_parse : string -> option jsval.
Variable number_toString : Q -> string.
Implicit Types (cat : gmap string PresetCategory) (s : Store.EditorState).

(** Merging the same settings a second time changes nothing. *)
Lemma spread_idempotent (a b : jsval) : spread (spread a b) b = spread a b.
Proof.
  unfold spread. simpl. f_equal.
  rewrite (assoc_L (∪)), (idemp_L (∪)). reflexivity.
Qed.

Lemma updateTextSettings_idempotent ts s :
  Store.updateTextSettings ts (Store.updateTextSettings ts s) = Store.updateTextSettings ts s.
Proof.
  unfold Store.updateTextSettings. simpl. rewrite spread_idempotent. reflexivity.
Qed.

Lemma updateTextSettings_canvasSettings ts s :
  Store.canvasSettings (Store.updateTextSettings ts s) = Store.canvasSettings s.
Proof. reflexivity. Qed.

(** [applyPreset] on a preset whose payload has no other key than
    [textSettings]. *)
Lemma applyPreset_text_only cat categoryId presetId p m s :
  getPreset categoryId presetId cat = Some p ->
  settings p = JObj m ->
  (forall k, k <> "textSettings" -> m !! k = None) ->
  applyPreset categoryId presetId cat s =
    (Ret (Some p),
     if truthy (field (settings p) "textSettings")
     then Store.updateTextSettings (field (settings p) "textSettings") s
     else s).
Proof.
  intros Hp Hm Honly. unfold applyPreset. rewrite Hp, Hm.
  unfold get_prop, field. simpl.
  rewrite (Honly "canvasSettings"), (Honly "objects") by discriminate.
  simpl. reflexivity.
Qed.

(** C8. For a preset whose settings payload holds a [textSettings] domain
    and nothing else, [applyPreset] returns the preset and leaves
    [canvasSettings] as they were; applying it a second time returns it again
    and leaves the whole store, [textSettings] and [canvasSettings] included,
    as the first application left it. *)
Theorem text_only_preset_idempotent cat categoryId presetId p m s :
  getPreset categoryId presetId cat = Some p ->
  settings p = JObj m ->
  (forall k, k <> "textSettings" -> m !! k = None) ->
  let once := applyPreset categoryId presetId cat s in
  let twice := applyPreset categoryId presetId cat once.2 in
  once.1 = Ret (Some p)
  /\ Store.canvasSettings once.2 = Store.canvasSettings s
  /\ twice.1 = Ret (Some p)
  /\ Store.textSettings twice.2 = Store.textSettings once.2
  /\ Store.canvasSettings twice.2 = Store.canvasSettings once.2
  /\ twice.2 = once.2.
Proof.
  intros Hp Hm Honly. simpl.
  rewrite !(applyPreset_text_only cat categoryId presetId p m) by assumption.
  simpl.
  destruct (truthy (field (settings p) "textSettings")).
  - rewrite updateTextSettings_idempotent. repeat split; reflexivity.
  - repeat split; reflexivity.
Qed.

(** A property that is absent cannot pass the truthiness check. *)
Lemma absent_not_truthy (v : jsval) (k : string) :
  own_props v !! k = None -> truthy (field v k) = false.
Proof. intros Hk. unfold field. rewrite Hk. reflexivity. Qed.

Lemma get_prop_Ret (v : jsval) (k : string) (x : jsval) :
  get_prop v k = Ret x -> x = field v k.
Proof.
  unfold get_prop, field. destruct v; intros Hx; try discriminate; congruence.
Qed.

(** A property that passes the truthiness check is present. *)
Lemma truthy_field (v : jsval) (k : string) :
  truthy (field v k) = true -> own_props v !! k = Some (field v k).
Proof.
  unfold field. destruct (own_props v !! k); [reflexivity | discriminate].
Qed.

Lemma addPreset_any_unknown category preset id now cat :
  (forall k, category = JStr k -> cat !! k = None) ->
  addPreset_any category preset id now cat = cat.
Proof.
  intros Hunknown. destruct category; try reflexivity.
  simpl. unfold addPreset. rewrite (Hunknown s) by reflexivity. reflexivity.
Qed.

(** C9. [importPreset] returns [false] and leaves the catalog untouched when
    the text does not parse, when the parsed record has no [category] and
    when it has no [preset]; whenever it returns [false] the catalog is
    untouched; and it returns [true] only for a record in which both fields
    are present (and truthy), so nothing is inserted before the check. *)
Theorem importPreset_fails_closed data id now cat :
  ((JSON_parse data = None
    \/ exists parsed, JSON_parse data = Some parsed
         /\ (own_props parsed !! "category" = None \/ own_props parsed !! "preset" = None))
   -> importPreset JSON_parse number_toString data id now cat = (false, cat))
  /\ ((importPreset JSON_parse number_toString data id now cat).1 = false
      -> (importPreset JSON_parse number_toString data id now cat).2 = cat)
  /\ ((importPreset JSON_parse number_toString data id now cat).1 = true
      -> exists parsed category preset,
           JSON_parse data = Some parsed
           /\ own_props parsed !! "category" = Some category /\ truthy category = true
           /\ own_props parsed !! "preset" = Some preset /\ truthy preset = true).
Proof.
  unfold importPreset. split; [| split].
  - intros [-> | (parsed & -> & Hmiss)]; [reflexivity |].
    unfold get_prop.
    destruct parsed; try reflexivity;
      (destruct Hmiss as [Hc | Hp];
       [ fold (field (JBool b) "category") || fold (field (JNum q) "category")
         || fold (field (JStr s) "category") || fold (field (JArr l) "category")
         || fold (field (JObj m) "category");
         rewrite absent_not_truthy by exact Hc; reflexivity
       | rewrite (absent_not_truthy _ "preset") by exact Hp;
         rewrite orb_true_r; reflexivity ]).
  - destruct (JSON_parse data) as [parsed |]; [| reflexivity].
    destruct (get_prop parsed "category") as [category |]; [| reflexivity].
    destruct (negb (truthy category) || negb (truthy (field parsed "preset")));
      [reflexivity | discriminate].
  - destruct (JSON_parse data) as [parsed |]; [| discriminate].
    destruct (get_prop parsed "category") as [category |] eqn:Hg; [| discriminate].
    apply get_prop_Ret in Hg. subst category.
    destruct (truthy (field parsed "category")) eqn:Htc; [| discriminate].
    destruct (truthy (field parsed "preset")) eqn:Htp; [| discriminate].
    intros _. exists parsed, (field parsed "category"), (field parsed "preset").
    split; [reflexivity |].
    split; [apply truthy_field, Htc |]. split; [exact Htc |].
    split; [apply truthy_field, Htp | exact Htp].
Qed.

(** C10, amended. For a record whose [category] and [preset] fields are both
    present and truthy, and whose [category] names no category of the
    catalog, [importPreset] returns [true] and leaves the catalog as it
    was. *)
Theorem import_unknown_category_reports_success data parsed category preset id now cat :
  JSON_parse data = Some parsed ->
  own_props parsed !! "category" = Some category -> truthy category = true ->
  own_props parsed !! "preset" = Some preset -> truthy preset = true ->
  (forall k, category = JStr k -> cat !! k = None) ->
  importPreset JSON_parse number_toString data id now cat = (true, cat).
Proof.
  intros Hparse Hc Htc Hp Htp Hunknown. unfold importPreset. rewrite Hparse.
  assert (get_prop parsed "category" = Ret category) as ->.
  { unfold get_prop. destruct parsed; try (rewrite Hc; reflexivity); discriminate. }
  unfold field at 1. rewrite Hp. simpl. rewrite Htc, Htp. simpl.
  rewrite addPreset_any_unknown by exact Hunknown. reflexivity.
Qed.

End ToolPresetsFacts.

(** *** The default catalog *)

Section ToolPresetsExamples.
#[local] Existing Instance Samples.list_surface.
#[local] Existing Instance Samples.list_codec.
Import Samples.

Lemma text_only_preset_idempotent_witness :
  getPreset "text" "p0" default_catalog = Some headline
  /\ (let once := applyPreset "text" "p0" default_catalog Store.initial in
      let twice := applyPreset "text" "p0" default_catalog once.2 in
      once.1 = Ret (Some headline)
      /\ Store.canvasSettings once.2 = Store.canvasSettings Store.initial
      /\ twice.1 = Ret (Some headline)
      /\ Store.textSettings twice.2 = Store.textSettings once.2
      /\ Store.canvasSettings twice.2 = Store.canvasSettings once.2
      /\ twice.2 = once.2).
Proof.
  split; [reflexivity |].
  apply (text_only_preset_idempotent default_catalog "text" "p0" headline
           {[ "textSettings" := text_style "Inter" 48 "bold" "#1a1a1a" "center" "" 0 ]});
    [reflexivity | reflexivity |].
  intros k Hk. apply lookup_singleton_ne. congruence.
Defined.

Lemma importPreset_fails_closed_witness :
  sample_parse text_not_json = None
  /\ importPreset sample_parse sample_number_toString text_not_json "new" 7 default_catalog
     = (false, default_catalog)
  /\ sample_parse text_missing_preset = Some (obj [("category", JStr "text")])
  /\ importPreset sample_parse sample_number_toString text_missing_preset "new" 7
       default_catalog
     = (false, default_catalog).
Proof.
  split; [reflexivity |].
  split.
  - apply (proj1 (importPreset_fails_closed sample_parse sample_number_toString
                    text_not_json "new" 7 default_catalog)).
    left. reflexivity.
  - split; [reflexivity |].
    apply (proj1 (importPreset_fails_closed sample_parse sample_number_toString
                    text_missing_preset "new" 7 default_catalog)).
    right. exists (obj [("category", JStr "text")]).
    split; [reflexivity | right; reflexivity].
Defined.

(** C10 as stated fails: a record with both fields present whose category is
    the empty string names no category of the default catalog, and
    [importPreset] returns [false] for it. *)
Lemma import_unknown_category_counterexample :
  (exists parsed,
     sample_parse text_empty_category = Some parsed
     /\ own_props parsed !! "category" = Some (JStr "")
     /\ is_Some (own_props parsed !! "preset"))
  /\ default_catalog !! "" = None
  /\ importPreset sample_parse sample_number_toString text_empty_category "new" 7
       default_catalog
     = (false, default_catalog).
Proof.
  split; [| split; reflexivity].
  eexists. split; [reflexivity |]. split; [reflexivity | eexists; reflexivity].
Qed.

Lemma import_unknown_category_reports_success_witness :
  default_catalog !! "stickers" = None
  /\ importPreset sample_parse sample_number_toString text_unknown_category "new" 7
       default_catalog
     = (true, default_catalog).
Proof.
  split; [reflexivity |].
  apply (import_unknown_category_reports_success sample_parse sample_number_toString
           text_unknown_category
           (obj [("category", JStr "stickers");
                 ("preset", obj [("name", JStr "Mine"); ("settings", obj [])])])
           (JStr "stickers")
           (obj [("name", JStr "Mine"); ("settings", obj [])]));
    try reflexivity.
  intros k Hk. injection Hk as <-. reflexivity.
Defined.

End ToolPresetsExamples.
End ToolPresetsFacts.

(** * Further properties of the store *)

Module StoreMore.
Import Store StoreNotions SliceFacts StoreFacts.
Section StoreMore.
Context `{Cd : Codec}.
Implicit Types (s : EditorState) (w : World) (fresh : nat -> string * Z) (t : Task).

(** X1. In every reachable session the timeline holds at most 50 entries,
    whatever operations led there, whatever the handlers recorded and
    whichever callbacks were late. *)
Theorem history_never_exceeds_cap w :
  reachable w -> (length (history (store w)) <= 50)%nat.
Proof.
  intros Hr. destruct (reachable_timeline_ok w Hr) as (_ & Hlen & _). exact Hlen.
Qed.

Lemma launch_canvas fresh t w :
  is_Some (canvas (store w)) -> is_Some (canvas (store (launch fresh t w))).
Proof.
  intros Hc. unfold launch. destruct (is_late t); [exact Hc |].
  simpl. apply complete_canvas, Hc.
Qed.

Lemma request_canvas fresh r w :
  is_Some (canvas (store w)) -> is_Some (canvas (store (request fresh r w))).
Proof.
  intros Hc. destruct r as [[t |] |]; simpl; [| exact Hc | exact Hc].
  apply launch_canvas, Hc.
Qed.

Ltac canvas_stable lem :=
  apply (lem (fun s0 => is_Some (canvas s0)));
    [intros ? ? ? ?; rewrite saveToHistory_keeps_canvas; auto
    | apply canvas_show
    | intros ? ?; simpl; auto
    | try assumption ..].

(** X2. No operation of the store, no handler and no callback unbinds the
    canvas: once one is bound, one stays bound. *)
Theorem canvas_stays_bound op w :
  is_Some (canvas (store w)) -> is_Some (canvas (store (exec op w))).
Proof.
  intros Hc.
  destruct op; simpl; try exact Hc; try (simpl; eauto; fail).
  - rewrite saveToHistory_keeps_canvas. exact Hc.
  - apply request_canvas, Hc.
  - apply request_canvas, Hc.
  - destruct (loadPreset_frame presetId (store w)) as (_ & _ & ->). exact Hc.
  - destruct Hc as [c ->]. eauto.
  - canvas_stable deleteSelectedObject_stable.
  - apply (request_canvas fresh (Ret (duplicate_request (store w)))), Hc.
  - canvas_stable bringToFront_stable.
  - canvas_stable sendToBack_stable.
  - apply (request_canvas fresh (Ret (import_request imageUrl (store w)))), Hc.
  - unfold saveToLocalStorage. destruct stored; exact Hc.
  - unfold loadFromLocalStorage.
    destruct (localStorage w) as [saved |]; [| exact Hc].
    destruct (negb (string_nonempty saved)); [exact Hc |].
    destruct (session_parse saved) as [data |]; [| exact Hc].
    destruct (sr_canvasData data); [| simpl; exact Hc].
    destruct Hc as [c Hc]. rewrite Hc.
    apply launch_canvas. simpl. rewrite Hc. eauto.
  - canvas_stable canvas_edit_add_stable.
  - unfold finish. destruct (pending w !! k); [| exact Hc].
    case_bool_decide; [| exact Hc]. simpl. apply complete_canvas, Hc.
  - unfold finish. destruct (pending w !! k); [| exact Hc].
    case_bool_decide; [| exact Hc]. simpl. apply complete_canvas, Hc.
Qed.

(** X3. While no canvas is bound the timeline is empty: the cursor is [-1]
    and neither undo nor redo is offered, whatever was attempted. *)
Theorem no_history_without_canvas w :
  reachable w ->
  canvas (store w) = None ->
  history (store w) = [] /\ historyIndex (store w) = -1
  /\ canUndo (store w) = false /\ canRedo (store w) = false.
Proof.
  intros Hr Hc. destruct (reachable_timeline_ok w Hr) as (Hidx & _ & Hcv).
  destruct (history (store w)) as [| x l] eqn:Hh.
  - destruct Hidx as [[_ Hm] | [Hne _]]; [| contradiction].
    unfold canUndo, canRedo. rewrite Hm, Hh. auto.
  - destruct Hcv as [c Hc']; [discriminate | congruence].
Qed.

(** *** Sessions in which no load of [undo] or [redo] is left waiting *)




(** The callback of [undo] or [redo] leaves a valid cursor when the handlers
    have kept the timeline long enough for it. *)
Lemma complete_history_load fresh text cursor b s c :
  canvas s = Some c ->
  keeps b s -> 0 <= cursor < b ->
  let s' := complete fresh (HistoryLoad text cursor) s in
  history_ok s'
  /\ historyIndex s' = cursor
  /\ cursor < Z.of_nat (length (history s'))
  /\ b <= Z.of_nat (length (history s'))
  /\ scene <$> canvas s' = Some (result (canvas_loadFromJSON text (scene c)))
  /\ activeObject s' = None
  /\ isDirty s' = true.
Proof.
  intros Hc Hk Hcur. unfold complete. rewrite Hc. simpl.
  pose proof (perform_keeps b fresh 0 (canvas_loadFromJSON text (scene c)) s Hk)
    as (Hc1 & Hlen & Hb & _ & _).
  split; [| split; [reflexivity |]; split; [lia |]; split; [exact Hb |]].
  - unfold history_ok. simpl. split; [right; lia |]. split; [exact Hlen | intros _; exact Hc1].
  - split; [| auto].
    unfold perform. set (s1 := raise _ _ _ _).
    assert (is_Some (canvas s1)) as [c1 Hs1].
    { unfold s1. apply (raise_stable (fun s0 => is_Some (canvas s0))).
      - intros act id now s0. rewrite saveToHistory_keeps_canvas. auto.
      - apply canvas_show.
      - intros o s0. simpl. auto.
      - rewrite Hc. eauto. }
    rewrite (show_bound _ s1 c1 Hs1). reflexivity.
Qed.

Lemma history_ok_keeps s b :
  history_ok s -> is_Some (canvas s) ->
  0 <= historyIndex s < Z.of_nat (length (history s)) ->
  b <= Z.of_nat (length (history s)) -> b <= historyIndex s + 2 ->
  keeps b s.
Proof.
  intros (_ & Hlen & _) Hc Hidx Hb Hbi. unfold keeps. repeat split; auto; lia.
Qed.

(** What [undo] asks for on a well-formed timeline. *)
Lemma undo_request_ok s t :
  history_ok s -> undo_request s = Ret (Some t) ->
  exists c prev,
    canvas s = Some c
    /\ index (history s) (historyIndex s - 1) = Some prev
    /\ t = HistoryLoad (canvasState prev) (historyIndex s - 1)
    /\ 0 < historyIndex s
    /\ keeps (historyIndex s + 1) s.
Proof.
  intros Hok Hu. pose proof Hok as (Hidx & _ & _). unfold undo_request in Hu.
  destruct (canvas s) as [c |] eqn:Hc; [| discriminate].
  destruct (Z.leb_spec (historyIndex s) 0) as [? | Hgt]; [discriminate |].
  destruct (index _ _) as [prev |] eqn:Hp; [| discriminate].
  injection Hu as <-. exists c, prev.
  split; [reflexivity |]. split; [reflexivity |]. split; [reflexivity |].
  split; [exact Hgt |].
  apply history_ok_keeps; [exact Hok | rewrite Hc; eauto | | |];
    destruct Hidx as [[_ Hm] | Hin]; lia.
Qed.


(** On a well-formed timeline neither [undo] nor [redo] throws. *)
Lemma undo_returns fresh s : history_ok s -> exists s', undo fresh s = Ret s'.
Proof.
  unfold undo, undo_request, history_ok. intros (Hidx & _ & _).
  destruct (canvas s) as [c |]; [| eauto].
  destruct (Z.leb_spec (historyIndex s) 0) as [Hle | Hgt]; [eauto |].
  destruct (index_Some (history s) (historyIndex s - 1)) as [prev ->]; [lia | eauto].
Qed.



Lemma launch_late_settled fresh t w :
  settled (launch fresh t w) -> history_load t = true -> is_late t = false.
Proof.
  intros Hs Hk. unfold launch in Hs. destruct (is_late t); [| reflexivity].
  rewrite (Hs t) in Hk; [discriminate |].
  simpl. apply elem_of_app. right. apply list_elem_of_singleton. reflexivity.
Qed.




(** *** Undo and redo while handlers record *)

Lemma show_keeps_entry i item n sc s : keeps_entry i item n s -> keeps_entry i item n (show sc s).
Proof.
  unfold keeps_entry. rewrite history_show, historyIndex_show.
  intros (Hc & Hrest). split; [apply canvas_show, Hc | exact Hrest].
Qed.

Lemma keeps_entry_more i item n s : keeps_entry i item n s -> keeps_entry i item (S n) s.
Proof.
  intros (Hc & He & Hi & Hlt & Hn). unfold keeps_entry. repeat split; auto; lia.
Qed.

(** A recording with room left in the timeline drops nothing at or below the
    cursor. *)
Lemma saveToHistory_keeps_entry i item n act id now s :
  (n < 50)%nat -> keeps_entry i item n s ->
  keeps_entry i item (S n) (saveToHistory act id now s).
Proof.
  intros Hroom ([c Hc] & He & Hi & Hlt & Hn).
  destruct (saveToHistory_bound act id now s c Hc) as (Hh & Hidx & Hc' & _).
  assert (history (saveToHistory act id now s) =
          take (Z.to_nat (historyIndex s + 1)) (history s) ++ [newHistoryItem c act id now])
    as Hh'.
  { rewrite Hh, slice_prefix by lia.
    rewrite slice_from_50, length_app, length_take. simpl.
    replace (_ - 50)%nat with 0%nat by lia. apply drop_0. }
  assert (length (history (saveToHistory act id now s)) = Z.to_nat (historyIndex s + 2)) as Hlen.
  { rewrite Hh', length_app, length_take. simpl. lia. }
  unfold keeps_entry. rewrite Hc', Hidx, Hlen.
  split; [eauto |]. split; [| lia].
  rewrite Hh'. unfold index in *.
  destruct (Z.ltb_spec i 0) as [? | _]; [lia |].
  rewrite lookup_app_l by (rewrite length_take; lia).
  rewrite lookup_take_lt by lia. exact He.
Qed.

Lemma raise_keeps_entry fresh i item evs : forall k n s,
  (n + length evs <= 50)%nat -> keeps_entry i item n s ->
  keeps_entry i item (n + length evs) (raise fresh k evs s).
Proof.
  induction evs as [| [ev sc] evs IH]; intros k n s Hroom Hk; simpl.
  - rewrite Nat.add_0_r. exact Hk.
  - simpl in Hroom. replace (n + S (length evs))%nat with (S n + length evs)%nat by lia.
    apply IH; [lia |].
    apply (show_keeps_entry _ _ _ sc) in Hk.
    destruct ev; simpl;
      first [apply saveToHistory_keeps_entry; [lia | exact Hk]
            | apply keeps_entry_more;
              destruct Hk as (Hc & Hrest); split; [exact Hc | exact Hrest]].
Qed.

Lemma perform_scene fresh k e s :
  is_Some (canvas s) -> scene <$> canvas (perform fresh k e s) = Some (result e).
Proof.
  intros Hc. unfold perform. set (s1 := raise _ _ _ _).
  assert (is_Some (canvas s1)) as [c1 Hs1].
  { unfold s1. apply (raise_stable (fun s0 => is_Some (canvas s0))); [| | | exact Hc].
    - intros act id now s0. rewrite saveToHistory_keeps_canvas. auto.
    - apply canvas_show.
    - intros o s0. simpl. auto. }
  rewrite (show_bound _ s1 c1 Hs1). reflexivity.
Qed.

(** X5. [undo] followed by [redo], each completing at once, puts the canvas
    and the cursor back when the timeline has room for what the handlers
    record while [undo] loads: for a session whose cursor is a valid index
    above 0 and whose snapshot under the cursor is the canvas on display, and
    a canvas that loads its own snapshot back to what it shows, if the
    entries of the timeline and the events of the load make no more than 50,
    the canvas is as before [undo] and so is the cursor. *)
Theorem undo_redo_round_trip_with_room fresh1 fresh2 s c snap prev :
  history_ok s ->
  canvas s = Some c ->
  canUndo s = true ->
  index (history s) (historyIndex s) = Some snap ->
  canvasState snap = JSON_stringify (canvas_toJSON (scene c)) ->
  (forall sc0,
     result (canvas_loadFromJSON (JSON_stringify (canvas_toJSON (scene c))) sc0) = scene c) ->
  index (history s) (historyIndex s - 1) = Some prev ->
  (length (history s) + length (fired (canvas_loadFromJSON (canvasState prev) (scene c)))
   <= 50)%nat ->
  exists s1 s2,
    undo fresh1 s = Ret s1 /\ redo fresh2 s1 = Ret s2
    /\ scene <$> canvas s2 = Some (scene c)
    /\ historyIndex s2 = historyIndex s.
Proof.
  intros Hok Hc Hu Hsnap Hsync Hload Hprev Hroom.
  unfold canUndo in Hu. apply Z.gtb_lt in Hu.
  destruct Hok as (Hidx & Hlen & _).
  assert (0 <= historyIndex s < Z.of_nat (length (history s))) as Hin.
  { destruct Hidx as [[_ Hm] | Hin]; [lia | exact Hin]. }
  set (e := canvas_loadFromJSON (canvasState prev) (scene c)) in *.
  set (s0 := raise fresh1 0 (fired e) s).
  assert (keeps_entry (historyIndex s) snap (length (history s) + length (fired e)) s0)
    as ([c0 Hc0] & He0 & Hi0 & Hlt0 & Hn0).
  { apply raise_keeps_entry; [exact Hroom |].
    unfold keeps_entry. rewrite Hc. repeat split; eauto; lia. }
  set (s1 := set_isDirty true (set_activeObject None
               (set_historyIndex (historyIndex s - 1) (show (result e) s0)))).
  assert (undo fresh1 s = Ret s1) as Hundo.
  { unfold undo, undo_request. rewrite Hc.
    destruct (Z.leb_spec (historyIndex s) 0) as [? | _]; [lia |].
    rewrite Hprev. unfold complete. rewrite Hc. reflexivity. }
  assert (canvas s1 = Some (on_scene (fun _ => result e) c0)) as Hc1.
  { unfold s1. simpl. apply show_bound, Hc0. }
  assert (history s1 = history s0) as Hh1 by (unfold s1; simpl; apply history_show).
  set (e2 := canvas_loadFromJSON (canvasState snap) (scene (on_scene (fun _ => result e) c0))).
  exists s1.
  exists (set_isDirty true (set_activeObject None
            (set_historyIndex (historyIndex s) (perform fresh2 0 e2 s1)))).
  split; [exact Hundo |]. split.
  - unfold redo, redo_request. rewrite Hc1, Hh1.
    change (historyIndex s1) with (historyIndex s - 1).
    destruct (Z.geb_spec (historyIndex s - 1) (Z.of_nat (length (history s0)) - 1)) as [? | _];
      [lia |].
    replace (historyIndex s - 1 + 1) with (historyIndex s) by lia.
    rewrite He0. unfold complete. rewrite Hc1. reflexivity.
  - simpl. split; [| reflexivity].
    rewrite perform_scene by (rewrite Hc1; eauto). unfold e2. rewrite Hsync, Hload. reflexivity.
Qed.

(** X6. The first recording cannot be undone: after [saveToHistory] on an
    empty timeline the timeline holds that one entry, [canUndo] is false, and
    [undo] leaves the session as it is. *)
Theorem first_recording_cannot_be_undone act id now fresh s c :
  canvas s = Some c ->
  history s = [] ->
  let s' := saveToHistory act id now s in
  history s' = [newHistoryItem c act id now]
  /\ historyIndex s' = 0
  /\ canUndo s' = false
  /\ undo fresh s' = Ret s'.
Proof.
  intros Hc Hh. unfold saveToHistory. rewrite Hc, Hh. simpl.
  assert (slice 0 (historyIndex s + 1) ([] : list HistoryState) = []) as ->.
  { apply nil_length_inv.
    pose proof (length_slice_le ([] : list HistoryState) 0 (historyIndex s + 1)) as Hle.
    simpl in Hle. lia. }
  simpl. unfold undo, undo_request. simpl. rewrite Hc. auto.
Qed.

(** X7. On a timeline whose cursor is a valid index above 0, an [undo] that
    completes at once steps back one entry: the canvas holds what the load of
    the previous snapshot leaves, the cursor is one lower and still a valid
    index, the selection is cleared, the session is dirty, and redo is on
    offer, whatever the handlers recorded during the load. *)
Theorem undo_steps_back_and_enables_redo fresh s c :
  history_ok s ->
  canvas s = Some c ->
  canUndo s = true ->
  exists prev s',
    index (history s) (historyIndex s - 1) = Some prev
    /\ undo fresh s = Ret s'
    /\ scene <$> canvas s' = Some (result (canvas_loadFromJSON (canvasState prev) (scene c)))
    /\ historyIndex s' = historyIndex s - 1
    /\ 0 <= historyIndex s' < Z.of_nat (length (history s'))
    /\ activeObject s' = None
    /\ isDirty s' = true
    /\ canRedo s' = true.
Proof.
  intros Hok Hc Hu. unfold canUndo in Hu. apply Z.gtb_lt in Hu.
  destruct (undo_request s) as [[t |] |] eqn:Hr.
  - destruct (undo_request_ok s t Hok Hr) as (c' & prev & Hc' & Hprev & -> & _ & Hk).
    assert (c' = c) as -> by congruence.
    exists prev, (complete fresh (HistoryLoad (canvasState prev) (historyIndex s - 1)) s).
    destruct (complete_history_load fresh (canvasState prev) (historyIndex s - 1)
                (historyIndex s + 1) s c Hc Hk) as (_ & Hi & Hlt & Hb & Hsc & Ha & Hd);
      [lia |].
    split; [exact Hprev |]. split; [unfold undo; rewrite Hr; reflexivity |].
    split; [exact Hsc |]. split; [exact Hi |]. split; [lia |].
    split; [exact Ha |]. split; [exact Hd |].
    unfold canRedo. apply Z.ltb_lt. lia.
  - exfalso. unfold undo_request in Hr. rewrite Hc in Hr.
    destruct (Z.leb_spec (historyIndex s) 0) as [? | _]; [lia |].
    destruct (index _ _); discriminate.
  - exfalso. destruct (undo_returns fresh s Hok) as [s' Hs'].
    unfold undo in Hs'. rewrite Hr in Hs'. discriminate.
Qed.

(** *** Object operations *)

(** Right after a recording the entry under the cursor is the one just
    built. *)
Lemma recorded_snapshot act id now s c :
  canvas s = Some c ->
  let s' := saveToHistory act id now s in
  index (history s') (historyIndex s') = Some (newHistoryItem c act id now).
Proof.
  intros Hc.
  destruct (saveToHistory_bound act id now s c Hc) as (Hh & Hi & _).
  simpl. rewrite Hi, Hh. unfold index.
  set (l := slice 0 (historyIndex s + 1) (history s)).
  set (x := newHistoryItem c act id now).
  rewrite slice_from_50.
  set (d := (length (l ++ [x]) - 50)%nat).
  assert (length (drop d (l ++ [x])) = (length l + 1 - d)%nat) as Hlen.
  { rewrite length_drop, length_app. simpl. reflexivity. }
  assert (d <= length l)%nat as Hd.
  { unfold d. rewrite length_app. simpl. lia. }
  destruct (Z.ltb_spec (Z.of_nat (length (drop d (l ++ [x]))) - 1) 0) as [Hneg | _];
    [rewrite Hlen in Hneg; lia |].
  rewrite lookup_drop, Hlen.
  replace (d + Z.to_nat (Z.of_nat (length l + 1 - d) - 1))%nat with (length l + 0)%nat by lia.
  rewrite lookup_app_r by lia.
  replace (length l + 0 - length l)%nat with 0%nat by lia. reflexivity.
Qed.

Lemma saveToHistory_in_sync act id now s :
  is_Some (canvas s) ->
  in_sync (saveToHistory act id now s)
  /\ current_action (saveToHistory act id now s) = Some act
  /\ canRedo (saveToHistory act id now s) = false.
Proof.
  intros [c Hc].
  pose proof (recorded_snapshot act id now s c Hc) as Hidx.
  destruct (saveToHistory_bound act id now s c Hc) as (_ & Hi & Hc' & _).
  simpl in Hidx, Hi, Hc'.
  split; [| split].
  - exists c, (newHistoryItem c act id now). auto.
  - unfold current_action. rewrite Hidx. reflexivity.
  - unfold canRedo. rewrite Hi. apply Z.ltb_irrefl.
Qed.

Lemma in_sync_frame s s' :
  canvas s' = canvas s -> history s' = history s -> historyIndex s' = historyIndex s ->
  in_sync s -> in_sync s'.
Proof.
  unfold in_sync. intros -> -> ->. auto.
Qed.

(** X8. Every object operation that acts leaves the cursor on a new entry
    that carries the operation's label and the serialised canvas as it is
    after the operation, with nothing left to redo: [deleteSelectedObject],
    [bringToFront] and [sendToBack] with a canvas and a selection, and the
    callbacks of [duplicateSelectedObject] and of [importImage] when they
    run. [importImage] itself records nothing while the image is not ready:
    it leaves the store as it was. *)
Theorem object_operations_record_the_result fresh s c o :
  canvas s = Some c ->
  activeObject s = Some o ->
  (in_sync (deleteSelectedObject fresh s)
   /\ current_action (deleteSelectedObject fresh s) = Some "Delete object"
   /\ canRedo (deleteSelectedObject fresh s) = false
   /\ activeObject (deleteSelectedObject fresh s) = None
   /\ scene <$> canvas (deleteSelectedObject fresh s)
      = Some (result (canvas_remove o (scene c))))
  /\ (in_sync (bringToFront fresh s)
      /\ current_action (bringToFront fresh s) = Some "Bring to front"
      /\ canRedo (bringToFront fresh s) = false)
  /\ (in_sync (sendToBack fresh s)
      /\ current_action (sendToBack fresh s) = Some "Send to back"
      /\ canRedo (sendToBack fresh s) = false)
  /\ (in_sync (complete fresh (Clone o) s)
      /\ current_action (complete fresh (Clone o) s) = Some "Duplicate object"
      /\ canRedo (complete fresh (Clone o) s) = false)
  /\ (forall imageUrl st,
        in_sync (complete fresh (ImageLoad imageUrl st) s)
        /\ current_action (complete fresh (ImageLoad imageUrl st) s) = Some "Import image"
        /\ canRedo (complete fresh (ImageLoad imageUrl st) s) = false
        /\ currentImage (complete fresh (ImageLoad imageUrl st) s) = Some imageUrl)
  /\ (forall imageUrl w,
        image_is_late imageUrl = true ->
        store (exec (OImportImage imageUrl fresh) w) = store w).
Proof.
  intros Hc Ho.
  assert (is_Some (canvas s)) as Hs by (rewrite Hc; eauto).
  assert (forall act id now s1 s',
            is_Some (canvas s1) ->
            canvas s' = canvas (saveToHistory act id now s1) ->
            history s' = history (saveToHistory act id now s1) ->
            historyIndex s' = historyIndex (saveToHistory act id now s1) ->
            in_sync s' /\ current_action s' = Some act /\ canRedo s' = false) as Hrec.
  { intros act id now s1 s' H1 Hcv Hh Hi.
    destruct (saveToHistory_in_sync act id now s1 H1) as (Hsy & Hact & Hre).
    split; [eapply in_sync_frame; eauto |].
    unfold current_action, canRedo in *. rewrite Hh, Hi. auto. }
  split; [| split; [| split; [| split; [| split]]]].
  - unfold deleteSelectedObject. rewrite Hc, Ho.
    destruct (Hrec "Delete object"
                (fresh (length (fired (canvas_remove o (scene c))))).1
                (fresh (length (fired (canvas_remove o (scene c))))).2
                (perform fresh 0 (canvas_remove o (scene c)) s)
                (set_activeObject None
                   (saveToHistory "Delete object"
                      (fresh (length (fired (canvas_remove o (scene c))))).1
                      (fresh (length (fired (canvas_remove o (scene c))))).2
                      (perform fresh 0 (canvas_remove o (scene c)) s))))
      as (H1 & H2 & H3); try reflexivity; [apply perform_canvas, Hs |].
    split; [exact H1 |]. split; [exact H2 |]. split; [exact H3 |].
    split; [reflexivity |].
    simpl. rewrite saveToHistory_keeps_canvas. apply perform_scene, Hs.
  - unfold bringToFront. rewrite Hc, Ho.
    eapply Hrec; try reflexivity. apply perform_canvas, Hs.
  - unfold sendToBack. rewrite Hc, Ho.
    eapply Hrec; try reflexivity. apply perform_canvas, Hs.
  - unfold complete. rewrite Hc.
    eapply Hrec; try reflexivity. apply perform_canvas, perform_canvas, Hs.
  - intros imageUrl st. unfold complete. rewrite Hc.
    edestruct Hrec as (H1 & H2 & H3);
      [| | | | split; [exact H1 |]; split; [exact H2 |]; split; [exact H3 |]];
      try reflexivity.
    apply perform_canvas, Hs.
  - intros imageUrl w Hlate. simpl. unfold import_request.
    destruct (canvas (store w)); [| reflexivity].
    simpl. unfold launch. simpl. rewrite Hlate. reflexivity.
Qed.

(** Deleting by an id that no preset carries leaves the list as it is. *)
Lemma filter_other_ids (l : list PresetState) (id : string) :
  (forall p, p ∈ l -> preset_id p <> id) ->
  List.filter (fun p => negb (String.eqb (preset_id p) id)) l = l.
Proof.
  induction l as [| p l IH]; intros Hfresh; [reflexivity |].
  simpl. destruct (String.eqb_spec (preset_id p) id) as [Heq | Hne].
  - exfalso. apply (Hfresh p); [left | exact Heq].
  - simpl. f_equal. apply IH. intros q Hq. apply Hfresh. right. exact Hq.
Qed.

(** X9. Saving a preset under an id that no stored preset carries and then
    deleting that id leaves the store exactly as it was. *)
Theorem savePreset_deletePreset_round_trip name st id now s :
  (forall p, p ∈ presets s -> preset_id p <> id) ->
  deletePreset id (savePreset name st id now s) = s.
Proof.
  intros Hfresh. unfold deletePreset, savePreset. simpl.
  rewrite List.filter_app. simpl. rewrite String.eqb_refl. simpl.
  rewrite app_nil_r, filter_other_ids by exact Hfresh.
  destruct s; reflexivity.
Qed.

(** X10. After [deletePreset] no stored preset carries the deleted id, every
    other preset is still there, and [loadPreset] of the deleted id does
    nothing. *)
Theorem deletePreset_removes_every_match presetId s :
  (forall p, p ∈ presets (deletePreset presetId s) -> preset_id p <> presetId)
  /\ (forall p, p ∈ presets s -> preset_id p <> presetId ->
               p ∈ presets (deletePreset presetId s))
  /\ loadPreset presetId (deletePreset presetId s) = Ret (deletePreset presetId s).
Proof.
  assert (forall p, p ∈ presets (deletePreset presetId s) -> preset_id p <> presetId)
    as Hgone.
  { intros p Hin. unfold deletePreset in Hin. simpl in Hin.
    apply list_elem_of_In, List.filter_In in Hin. destruct Hin as [_ Hne].
    destruct (String.eqb_spec (preset_id p) presetId); [discriminate | assumption]. }
  split; [exact Hgone |]. split.
  - intros p Hin Hne. unfold deletePreset. simpl.
    apply list_elem_of_In, List.filter_In. split; [apply list_elem_of_In, Hin |].
    destruct (String.eqb_spec (preset_id p) presetId); [contradiction | reflexivity].
  - unfold loadPreset.
    destruct (find _ (presets (deletePreset presetId s))) as [p |] eqn:Hf; [| reflexivity].
    exfalso. apply List.find_some in Hf. destruct Hf as [Hin Heq].
    apply (Hgone p); [apply list_elem_of_In, Hin |].
    apply String.eqb_eq. exact Heq.
Qed.

(** The presets and the two settings records are not touched by handlers
    or by the load of a saved session. *)
Lemma complete_session_load_settings fresh canvasData s :
  presets (complete fresh (SessionLoad canvasData) s) = presets s
  /\ canvasSettings (complete fresh (SessionLoad canvasData) s) = canvasSettings s
  /\ textSettings (complete fresh (SessionLoad canvasData) s) = textSettings s.
Proof.
  apply (complete_stable
           (fun s0 => presets s0 = presets s /\ canvasSettings s0 = canvasSettings s
                      /\ textSettings s0 = textSettings s)); auto.
  - intros act id now s0 Hs0. unfold saveToHistory. destruct (canvas s0); exact Hs0.
  - intros sc s0 Hs0. unfold show. destruct (canvas s0); exact Hs0.
Qed.

(** X11. [loadFromLocalStorage] is safe on bad input: with nothing stored,
    with an empty text or with a text that does not parse, the session is
    left exactly as it was. With a text that parses, the presets and the two
    settings records are the ones read, or the defaults where the text has
    none, whether the canvas load runs at once, waits or does not start, and
    whatever the handlers record during it. The stored text is never
    touched, and without a bound canvas neither are the timeline, the
    cursor, the selection and the dirty flag. *)
Theorem loadFromLocalStorage_fails_safe fresh w :
  ((localStorage w = None
    \/ localStorage w = Some EmptyString
    \/ exists saved, localStorage w = Some saved /\ session_parse saved = None)
   -> exec (OLoadFromLocalStorage fresh) w = w)
  /\ (forall saved data,
        localStorage w = Some saved -> string_nonempty saved = true ->
        session_parse saved = Some data ->
        presets (store (exec (OLoadFromLocalStorage fresh) w)) = default [] (sr_presets data)
        /\ canvasSettings (store (exec (OLoadFromLocalStorage fresh) w))
           = or_default (sr_canvasSettings data) defaultCanvasSettings
        /\ textSettings (store (exec (OLoadFromLocalStorage fresh) w))
           = or_default (sr_textSettings data) defaultTextSettings)
  /\ localStorage (exec (OLoadFromLocalStorage fresh) w) = localStorage w
  /\ (canvas (store w) = None ->
      history (store (exec (OLoadFromLocalStorage fresh) w)) = history (store w)
      /\ historyIndex (store (exec (OLoadFromLocalStorage fresh) w)) = historyIndex (store w)
      /\ activeObject (store (exec (OLoadFromLocalStorage fresh) w)) = activeObject (store w)
      /\ isDirty (store (exec (OLoadFromLocalStorage fresh) w)) = isDirty (store w)
      /\ pending (exec (OLoadFromLocalStorage fresh) w) = pending w).
Proof.
  simpl. unfold loadFromLocalStorage. split; [| split; [| split]].
  - intros [-> | [-> | (saved & -> & Hp)]]; [reflexivity | reflexivity |].
    destruct (negb (string_nonempty saved)); [reflexivity |].
    rewrite Hp. reflexivity.
  - intros saved data -> -> ->. simpl.
    destruct (sr_canvasData data) as [canvasData |]; [| simpl; auto].
    destruct (canvas (store w)); [| simpl; auto].
    unfold launch. destruct (is_late _); [simpl; auto |].
    simpl. apply complete_session_load_settings.
  - destruct (localStorage w) as [saved |] eqn:Hl; [| exact Hl].
    destruct (negb (string_nonempty saved)); [exact Hl |].
    destruct (session_parse saved) as [data |]; [| exact Hl].
    destruct (sr_canvasData data); [| exact Hl].
    destruct (canvas (store w)); [| exact Hl].
    unfold launch. destruct (is_late _); exact Hl.
  - intros Hc. rewrite Hc.
    destruct (localStorage w) as [saved |]; [| auto].
    destruct (negb (string_nonempty saved)); [auto |].
    destruct (session_parse saved) as [data |]; [| auto].
    destruct (sr_canvasData data); simpl; auto.
Qed.

Lemma field_spread (a b : jsval) (k : string) :
  field (spread a b) k =
    match own_props b !! k with
    | Some v => v
    | None => field a k
    end.
Proof.
  unfold field, spread. simpl. rewrite lookup_union.
  destruct (own_props b !! k), (own_props a !! k); reflexivity.
Qed.

(** X12. [updateCanvasSettings] merges key by key: a key of the argument
    takes the argument's value, every other key keeps its value; a bound
    canvas takes its width and height from the merged settings; the timeline
    is not touched (the change is not recorded) and the session is dirty. *)
Theorem updateCanvasSettings_merges st s :
  (forall k v, own_props st !! k = Some v ->
               field (canvasSettings (updateCanvasSettings st s)) k = v)
  /\ (forall k, own_props st !! k = None ->
               field (canvasSettings (updateCanvasSettings st s)) k
               = field (canvasSettings s) k)
  /\ (forall c, canvas s = Some c ->
        exists c', canvas (updateCanvasSettings st s) = Some c'
          /\ width c' = field (canvasSettings (updateCanvasSettings st s)) "width"
          /\ height c' = field (canvasSettings (updateCanvasSettings st s)) "height")
  /\ history (updateCanvasSettings st s) = history s
  /\ historyIndex (updateCanvasSettings st s) = historyIndex s
  /\ isDirty (updateCanvasSettings st s) = true.
Proof.
  unfold updateCanvasSettings. simpl. repeat split.
  - intros k v Hk. rewrite field_spread, Hk. reflexivity.
  - intros k Hk. rewrite field_spread, Hk. reflexivity.
  - intros c ->. eexists. split; [reflexivity |]. simpl. auto.
Qed.

End StoreMore.

(** *** The properties above at concrete sessions *)

Section StoreMoreExamples.
#[local] Existing Instance Samples.list_surface.
#[local] Existing Instance Samples.list_codec.
Import Samples.

Lemma history_never_exceeds_cap_witness :
  reachable two_records /\ (length (history (store two_records)) <= 50)%nat.
Proof.
  split; [exact two_records_reachable |].
  apply (history_never_exceeds_cap two_records). exact two_records_reachable.
Defined.

Lemma canvas_stays_bound_witness :
  is_Some (canvas (store two_records))
  /\ is_Some (canvas (store (exec (OUndo (numbered "u")) two_records))).
Proof.
  split; [eexists; reflexivity |].
  apply (canvas_stays_bound (OUndo (numbered "u")) two_records). eexists. reflexivity.
Defined.

Lemma unbound_session_reachable : reachable unbound_session.
Proof.
  exists None,
    [OSaveToHistory "Object added" "h1" 1; OUndo (numbered "u");
     OUpdateTextSettings (obj [("fontSize", JNum 20)])].
  reflexivity.
Defined.

Lemma no_history_without_canvas_witness :
  reachable unbound_session
  /\ canvas (store unbound_session) = None
  /\ history (store unbound_session) = [] /\ historyIndex (store unbound_session) = -1
  /\ canUndo (store unbound_session) = false /\ canRedo (store unbound_session) = false.
Proof.
  split; [exact unbound_session_reachable |]. split; [reflexivity |].
  apply (no_history_without_canvas unbound_session);
    [exact unbound_session_reachable | reflexivity].
Defined.



Lemma undo_redo_round_trip_with_room_witness :
  let s := store two_records in
  history_ok s
  /\ canUndo s = true
  /\ exists s1 s2,
       undo (numbered "u") s = Ret s1 /\ redo (numbered "r") s1 = Ret s2
       /\ scene <$> canvas s2 = Some ["a"; "b"]
       /\ historyIndex s2 = historyIndex s.
Proof.
  assert (history_ok (store two_records)) as Hok.
  { unfold history_ok. split; [right; vm_compute; split; [discriminate | reflexivity] |].
    split; [vm_compute; lia | intros _; eexists; reflexivity]. }
  split; [exact Hok |]. split; [reflexivity |].
  apply (undo_redo_round_trip_with_room (numbered "u") (numbered "r") (store two_records)
           canvas_ab (newHistoryItem canvas_ab "Object modified" "h2" 2)
           (newHistoryItem canvas_ab "Object added" "h1" 1));
    [exact Hok | reflexivity | reflexivity | reflexivity | reflexivity
    | intros sc0; reflexivity | reflexivity | vm_compute; lia].
Defined.

Lemma first_recording_cannot_be_undone_witness :
  let s := store (run [OSetCanvas canvas_ab] (start None)) in
  let s' := saveToHistory "Object added" "h1" 1 s in
  canvas s = Some canvas_ab /\ history s = []
  /\ history s' = [newHistoryItem canvas_ab "Object added" "h1" 1]
  /\ historyIndex s' = 0
  /\ canUndo s' = false
  /\ undo (numbered "u") s' = Ret s'.
Proof.
  split; [reflexivity |]. split; [reflexivity |].
  apply (first_recording_cannot_be_undone "Object added" "h1" 1 (numbered "u")
           (store (run [OSetCanvas canvas_ab] (start None))) canvas_ab);
    reflexivity.
Defined.

Lemma undo_steps_back_and_enables_redo_witness :
  let s := store two_records in
  history_ok s
  /\ canUndo s = true
  /\ exists prev s',
       index (history s) (historyIndex s - 1) = Some prev
       /\ undo (numbered "u") s = Ret s'
       /\ scene <$> canvas s'
          = Some (result (canvas_loadFromJSON (canvasState prev) (scene canvas_ab)))
       /\ historyIndex s' = historyIndex s - 1
       /\ 0 <= historyIndex s' < Z.of_nat (length (history s'))
       /\ activeObject s' = None
       /\ isDirty s' = true
       /\ canRedo s' = true.
Proof.
  assert (history_ok (store two_records)) as Hok.
  { unfold history_ok. split; [right; vm_compute; split; [discriminate | reflexivity] |].
    split; [vm_compute; lia | intros _; eexists; reflexivity]. }
  split; [exact Hok |]. split; [reflexivity |].
  apply (undo_steps_back_and_enables_redo (numbered "u") (store two_records) canvas_ab);
    [exact Hok | reflexivity | reflexivity].
Defined.

Lemma object_operations_record_the_result_witness :
  let s := store selecting_session in
  canvas s = Some canvas_ab /\ activeObject s = Some "a"
  /\ in_sync (deleteSelectedObject (numbered "d") s)
  /\ current_action (deleteSelectedObject (numbered "d") s) = Some "Delete object"
  /\ List.map action (history (deleteSelectedObject (numbered "d") s))
     = ["Object removed"; "Delete object"]
  /\ scene <$> canvas (deleteSelectedObject (numbered "d") s) = Some ["b"]
  /\ in_sync (complete (numbered "i") (ImageLoad "blob:1" (canvasSettings s)) s)
  /\ store (exec (OImportImage "blob:1" (numbered "i")) selecting_session) = s.
Proof.
  split; [reflexivity |]. split; [reflexivity |].
  destruct (object_operations_record_the_result (numbered "d") (store selecting_session)
              canvas_ab "a" eq_refl eq_refl)
    as ((Hd1 & Hd2 & _) & _ & _ & _ & _).
  destruct (object_operations_record_the_result (numbered "i") (store selecting_session)
              canvas_ab "a" eq_refl eq_refl)
    as (_ & _ & _ & _ & Hi & Hlate).
  split; [exact Hd1 |]. split; [exact Hd2 |].
  split; [vm_compute; reflexivity |]. split; [vm_compute; reflexivity |].
  split; [apply Hi | apply Hlate; reflexivity].
Defined.

Lemma savePreset_deletePreset_round_trip_witness :
  presets initial = []
  /\ deletePreset "p1" (savePreset "Mine" (obj []) "p1" 5 initial) = initial.
Proof.
  split; [reflexivity |].
  apply (savePreset_deletePreset_round_trip "Mine" (obj []) "p1" 5 initial).
  intros p Hin. apply not_elem_of_nil in Hin. contradiction.
Defined.

Lemma loadFromLocalStorage_fails_safe_witness :
  localStorage dirty_session = None
  /\ exec (OLoadFromLocalStorage (numbered "l")) dirty_session = dirty_session.
Proof.
  split; [reflexivity |].
  apply (proj1 (loadFromLocalStorage_fails_safe (numbered "l") dirty_session)).
  left. reflexivity.
Defined.

End StoreMoreExamples.
End StoreMore.

(** * Further properties of the preset catalog *)

Module PresetsMore.
Import ToolPresets PresetNotions ToolPresetsFacts.
Section PresetsMore.
Context `{Cd : Codec}.
Variable JSON_parse : string -> option jsval.
Variable number_toString : Q -> string.
Implicit Types (cat : gmap string PresetCategory) (s : Store.EditorState)
  (l : list PresetState).

Lemma find_fresh l presetId :
  (forall p, p ∈ l -> preset_id p <> presetId) -> List.find (has_id presetId) l = None.
Proof.
  induction l as [| p l IH]; intros Hfresh; [reflexivity |].
  simpl. destruct (has_id presetId p) eqn:Hp.
  - exfalso. apply (Hfresh p); [left |].
    unfold has_id in Hp. apply String.eqb_eq in Hp. exact Hp.
  - apply IH. intros q Hq. apply Hfresh. right. exact Hq.
Qed.

Lemma find_None_fresh l presetId :
  List.find (has_id presetId) l = None -> forall p, p ∈ l -> preset_id p <> presetId.
Proof.
  intros Hf p Hin Heq.
  pose proof (List.find_none _ _ Hf p) as Hfalse.
  unfold has_id in Hfalse. rewrite Heq, String.eqb_refl in Hfalse.
  specialize (Hfalse (proj1 (list_elem_of_In _ _) Hin)). discriminate.
Qed.

Lemma find_app_last l (x : PresetState) presetId :
  List.find (has_id presetId) (l ++ [x]) =
    match List.find (has_id presetId) l with
    | Some p => Some p
    | None => if has_id presetId x then Some x else None
    end.
Proof.
  induction l as [| p l IH]; simpl; [reflexivity |].
  destruct (has_id presetId p); [reflexivity | exact IH].
Qed.

Lemma find_filter_other l presetId other :
  other <> presetId ->
  List.find (has_id other) (List.filter (fun p => negb (has_id presetId p)) l)
  = List.find (has_id other) l.
Proof.
  intros Hne. induction l as [| p l IH]; simpl; [reflexivity |].
  destruct (has_id presetId p) eqn:Hp; simpl.
  - destruct (has_id other p) eqn:Ho; [| exact IH].
    unfold has_id in Hp, Ho. apply String.eqb_eq in Hp, Ho. congruence.
  - destruct (has_id other p); [reflexivity | exact IH].
Qed.

Lemma find_filter_same l presetId :
  List.find (has_id presetId) (List.filter (fun p => negb (has_id presetId p)) l) = None.
Proof.
  induction l as [| p l IH]; simpl; [reflexivity |].
  destruct (has_id presetId p) eqn:Hp; simpl; [exact IH |].
  rewrite Hp. exact IH.
Qed.

Lemma filter_fresh l presetId :
  (forall p, p ∈ l -> preset_id p <> presetId) ->
  List.filter (fun p => negb (has_id presetId p)) l = l.
Proof.
  induction l as [| p l IH]; intros Hfresh; [reflexivity |].
  simpl. destruct (has_id presetId p) eqn:Hp; simpl.
  - exfalso. apply (Hfresh p); [left |].
    unfold has_id in Hp. apply String.eqb_eq in Hp. exact Hp.
  - f_equal. apply IH. intros q Hq. apply Hfresh. right. exact Hq.
Qed.

Lemma with_presets_same (c : PresetCategory) : with_presets (category_presets c) c = c.
Proof. destruct c; reflexivity. Qed.

(** [getPreset] after [addPreset]. *)
Lemma getPreset_addPreset cat categoryId preset id now c categoryId' presetId :
  cat !! categoryId = Some c ->
  getPreset categoryId' presetId (addPreset categoryId preset id now cat) =
    if bool_decide (categoryId' = categoryId) then
      List.find (has_id presetId)
        (category_presets c ++
           [{| preset_id := id; preset_name := draft_name preset;
               settings := draft_settings preset; thumbnail := draft_thumbnail preset;
               createdAt := now |}])
    else getPreset categoryId' presetId cat.
Proof.
  intros Hc. unfold getPreset, addPreset. rewrite Hc.
  case_bool_decide as Heq.
  - subst. rewrite lookup_insert_eq. reflexivity.
  - rewrite lookup_insert_ne by congruence. reflexivity.
Qed.

(** X14. A preset added to an existing category under an id that the
    category does not use yet is found by [getPreset] under that id, with the
    name, settings and thumbnail it was given. *)
Theorem addPreset_then_getPreset cat categoryId preset id now c :
  cat !! categoryId = Some c ->
  (forall p, p ∈ category_presets c -> preset_id p <> id) ->
  getPreset categoryId id (addPreset categoryId preset id now cat) =
    Some {| preset_id := id; preset_name := draft_name preset;
            settings := draft_settings preset; thumbnail := draft_thumbnail preset;
            createdAt := now |}.
Proof.
  intros Hc Hfresh.
  rewrite (getPreset_addPreset cat categoryId preset id now c) by exact Hc.
  rewrite bool_decide_eq_true_2 by reflexivity.
  rewrite find_app_last, find_fresh by exact Hfresh.
  unfold has_id. simpl. rewrite String.eqb_refl. reflexivity.
Qed.

(** X15. [addPreset] never hides or changes a preset that was there: what
    [getPreset] found before it still finds, also under the new preset's own
    id, and every lookup under another category or id answers as before. *)
Theorem addPreset_keeps_existing cat categoryId preset id now categoryId' presetId :
  (forall p0, getPreset categoryId' presetId cat = Some p0 ->
     getPreset categoryId' presetId (addPreset categoryId preset id now cat) = Some p0)
  /\ ((categoryId' <> categoryId \/ presetId <> id) ->
      getPreset categoryId' presetId (addPreset categoryId preset id now cat)
      = getPreset categoryId' presetId cat).
Proof.
  destruct (cat !! categoryId) as [c |] eqn:Hc.
  - rewrite (getPreset_addPreset cat categoryId preset id now c) by exact Hc.
    case_bool_decide as Heq; [| auto]. subst categoryId'.
    rewrite find_app_last. unfold getPreset. rewrite Hc.
    fold (has_id presetId). split.
    + intros p0 ->. reflexivity.
    + intros [Hne | Hne]; [contradiction |].
      destruct (List.find (has_id presetId) (category_presets c)); [reflexivity |].
      unfold has_id. simpl.
      destruct (String.eqb_spec id presetId); [congruence | reflexivity].
  - unfold addPreset. rewrite Hc. auto.
Qed.

(** [getPreset] after [removePreset]. *)
Lemma getPreset_removePreset cat categoryId presetId c categoryId' presetId' :
  cat !! categoryId = Some c ->
  getPreset categoryId' presetId' (removePreset categoryId presetId cat) =
    if bool_decide (categoryId' = categoryId) then
      List.find (has_id presetId')
        (List.filter (fun p => negb (has_id presetId p)) (category_presets c))
    else getPreset categoryId' presetId' cat.
Proof.
  intros Hc. unfold getPreset, removePreset. rewrite Hc.
  case_bool_decide as Heq.
  - subst. rewrite lookup_insert_eq. reflexivity.
  - rewrite lookup_insert_ne by congruence. reflexivity.
Qed.

(** X16. After [removePreset] the id is gone from the category, however many
    presets carried it, and every lookup under another category or id
    answers as before. *)
Theorem removePreset_removes_only_that_id cat categoryId presetId :
  getPreset categoryId presetId (removePreset categoryId presetId cat) = None
  /\ (forall categoryId' presetId',
        categoryId' <> categoryId \/ presetId' <> presetId ->
        getPreset categoryId' presetId' (removePreset categoryId presetId cat)
        = getPreset categoryId' presetId' cat).
Proof.
  destruct (cat !! categoryId) as [c |] eqn:Hc.
  - split.
    + rewrite (getPreset_removePreset cat categoryId presetId c) by exact Hc.
      rewrite bool_decide_eq_true_2 by reflexivity. apply find_filter_same.
    + intros categoryId' presetId' Hne.
      rewrite (getPreset_removePreset cat categoryId presetId c) by exact Hc.
      case_bool_decide as Heq; [| reflexivity]. subst categoryId'.
      destruct Hne as [Hne | Hne]; [contradiction |].
      rewrite find_filter_other by exact Hne.
      unfold getPreset. rewrite Hc. reflexivity.
  - unfold removePreset. rewrite Hc. split; [| reflexivity].
    unfold getPreset. rewrite Hc. reflexivity.
Qed.

(** X17. Removing what is not there changes nothing: when [getPreset] finds
    no preset under the category and id (unknown category included),
    [removePreset] leaves the catalog as it was. *)
Theorem removePreset_absent_is_noop cat categoryId presetId :
  getPreset categoryId presetId cat = None ->
  removePreset categoryId presetId cat = cat.
Proof.
  unfold getPreset, removePreset. intros Hg.
  destruct (cat !! categoryId) as [c |] eqn:Hc; [| reflexivity].
  change (List.filter _ (category_presets c))
    with (List.filter (fun p => negb (has_id presetId p)) (category_presets c)).
  rewrite filter_fresh by (apply find_None_fresh; exact Hg).
  rewrite with_presets_same. apply insert_id. exact Hc.
Qed.

(** X18. Adding a preset under an id the category does not use and removing
    that id again restores the catalog. *)
Theorem addPreset_removePreset_round_trip cat categoryId preset id now c :
  cat !! categoryId = Some c ->
  (forall p, p ∈ category_presets c -> preset_id p <> id) ->
  removePreset categoryId id (addPreset categoryId preset id now cat) = cat.
Proof.
  intros Hc Hfresh. unfold removePreset, addPreset. rewrite Hc.
  rewrite lookup_insert_eq. simpl.
  rewrite List.filter_app. simpl. rewrite String.eqb_refl. simpl.
  rewrite app_nil_r.
  change (List.filter _ (category_presets c))
    with (List.filter (fun p => negb (has_id id p)) (category_presets c)).
  rewrite (filter_fresh (category_presets c) id) by exact Hfresh.
  rewrite insert_insert_eq.
  unfold with_presets. simpl.
  replace {| category_id := category_id c; category_name := category_name c;
             description := description c; category_presets := category_presets c |}
    with c by (destruct c; reflexivity).
  apply insert_id. exact Hc.
Qed.

(** X19. Applying a preset is never recorded: whatever [applyPreset]
    returns or throws, the timeline, the cursor, the stored presets, the
    selection, the selected tool and the current image are as before; and
    when the category or the preset is not found it returns [undefined] and
    leaves the whole store as it was. *)
Theorem applyPreset_is_not_recorded categoryId presetId cat s :
  Store.history (applyPreset categoryId presetId cat s).2 = Store.history s
  /\ Store.historyIndex (applyPreset categoryId presetId cat s).2 = Store.historyIndex s
  /\ Store.presets (applyPreset categoryId presetId cat s).2 = Store.presets s
  /\ Store.activeObject (applyPreset categoryId presetId cat s).2 = Store.activeObject s
  /\ Store.selectedTool (applyPreset categoryId presetId cat s).2 = Store.selectedTool s
  /\ Store.currentImage (applyPreset categoryId presetId cat s).2 = Store.currentImage s
  /\ (getPreset categoryId presetId cat = None ->
      applyPreset categoryId presetId cat s = (Ret None, s)).
Proof.
  unfold applyPreset.
  destruct (getPreset categoryId presetId cat) as [p |]; [| simpl; auto 10].
  destruct (get_prop (settings p) "textSettings") as [ts |]; [| simpl; repeat split; discriminate].
  destruct (truthy ts), (truthy (field (settings p) "canvasSettings")),
    (truthy (field (settings p) "objects") && bool_decide (is_Some (Store.canvas s))
       && negb (is_array (field (settings p) "objects")));
    simpl; repeat split; discriminate.
Qed.

(** What [importPreset] does with a record that passes its check and names
    a category by a string. *)
Lemma importPreset_valid data parsed categoryId preset id now cat :
  JSON_parse data = Some parsed ->
  own_props parsed !! "category" = Some (JStr categoryId) ->
  string_nonempty categoryId = true ->
  own_props parsed !! "preset" = Some preset ->
  truthy preset = true ->
  importPreset JSON_parse number_toString data id now cat =
    (true,
     addPreset categoryId
       {| draft_name := to_string number_toString (field preset "name") +:+ " (Imported)";
          draft_settings := field preset "settings";
          draft_thumbnail := None |}
       id now cat).
Proof.
  intros Hparse Hc Hne Hp Htp. unfold importPreset. rewrite Hparse.
  assert (get_prop parsed "category" = Ret (JStr categoryId)) as ->.
  { unfold get_prop. destruct parsed; try (rewrite Hc; reflexivity); discriminate. }
  assert (field parsed "preset" = preset) as Hfp.
  { unfold field. rewrite Hp. reflexivity. }
  cbv zeta. rewrite Hfp. simpl. rewrite Hne, Htp. reflexivity.
Qed.

(** X20. Importing a record that has a non-empty [category] string naming an
    existing category and a truthy [preset] returns [true] and adds one
    preset to that category: under the fresh id [getPreset] finds a preset
    named after the record's name with " (Imported)" appended, carrying the
    record's settings and no thumbnail. *)
Theorem importPreset_adds_to_named_category data parsed categoryId preset id now cat c :
  JSON_parse data = Some parsed ->
  own_props parsed !! "category" = Some (JStr categoryId) ->
  string_nonempty categoryId = true ->
  own_props parsed !! "preset" = Some preset ->
  truthy preset = true ->
  cat !! categoryId = Some c ->
  (forall p, p ∈ category_presets c -> preset_id p <> id) ->
  (importPreset JSON_parse number_toString data id now cat).1 = true
  /\ getPreset categoryId id (importPreset JSON_parse number_toString data id now cat).2 =
       Some {| preset_id := id;
               preset_name :=
                 to_string number_toString (field preset "name") +:+ " (Imported)";
               settings := field preset "settings";
               thumbnail := None;
               createdAt := now |}.
Proof.
  intros Hparse Hc Hne Hp Htp Hcat Hfresh.
  rewrite (importPreset_valid data parsed categoryId preset) by assumption.
  simpl. split; [reflexivity |].
  rewrite (getPreset_addPreset cat categoryId _ id now c) by exact Hcat.
  rewrite bool_decide_eq_true_2 by reflexivity.
  rewrite find_app_last, find_fresh by exact Hfresh.
  unfold has_id. simpl. rewrite String.eqb_refl. reflexivity.
Qed.

(** X21. A record whose [preset] has no [settings] is imported all the same
    ([importPreset] returns [true]), and the preset it adds cannot be
    applied: [applyPreset] throws on it and leaves the store as it was. *)
Theorem imported_preset_without_settings_throws
    data parsed categoryId preset id now cat c s :
  JSON_parse data = Some parsed ->
  own_props parsed !! "category" = Some (JStr categoryId) ->
  string_nonempty categoryId = true ->
  own_props parsed !! "preset" = Some preset ->
  truthy preset = true ->
  own_props preset !! "settings" = None ->
  cat !! categoryId = Some c ->
  (forall p, p ∈ category_presets c -> preset_id p <> id) ->
  (importPreset JSON_parse number_toString data id now cat).1 = true
  /\ applyPreset categoryId id
       (importPreset JSON_parse number_toString data id now cat).2 s = (Throw, s).
Proof.
  intros Hparse Hc Hne Hp Htp Hns Hcat Hfresh.
  rewrite (importPreset_valid data parsed categoryId preset) by assumption.
  simpl. split; [reflexivity |].
  unfold applyPreset.
  rewrite (getPreset_addPreset cat categoryId _ id now c) by exact Hcat.
  rewrite bool_decide_eq_true_2 by reflexivity.
  rewrite find_app_last, find_fresh by exact Hfresh.
  unfold has_id. simpl. rewrite String.eqb_refl.
  unfold field. rewrite Hns. reflexivity.
Qed.

Lemma updateCanvasSettings_settings_idempotent cs s :
  Store.canvasSettings (Store.updateCanvasSettings cs (Store.updateCanvasSettings cs s))
  = Store.canvasSettings (Store.updateCanvasSettings cs s).
Proof.
  unfold Store.updateCanvasSettings. simpl. apply spread_idempotent.
Qed.

(** [applyPreset] on a preset whose payload has no other key than
    [canvasSettings]. *)
Lemma applyPreset_canvas_only cat categoryId presetId p m s :
  getPreset categoryId presetId cat = Some p ->
  settings p = JObj m ->
  (forall k, k <> "canvasSettings" -> m !! k = None) ->
  applyPreset categoryId presetId cat s =
    (Ret (Some p),
     if truthy (field (settings p) "canvasSettings")
     then Store.updateCanvasSettings (field (settings p) "canvasSettings") s
     else s).
Proof.
  intros Hp Hm Honly. unfold applyPreset. rewrite Hp, Hm.
  unfold get_prop, field. simpl.
  rewrite (Honly "textSettings"), (Honly "objects") by discriminate.
  simpl. reflexivity.
Qed.

(** X22. For a preset whose settings payload holds a [canvasSettings] domain
    and nothing else, [applyPreset] leaves [textSettings] as they were, and
    applying it twice gives the same [canvasSettings], and the same width and
    height of a bound canvas, as applying it once. *)
Theorem canvas_only_preset_idempotent cat categoryId presetId p m s :
  getPreset categoryId presetId cat = Some p ->
  settings p = JObj m ->
  (forall k, k <> "canvasSettings" -> m !! k = None) ->
  let once := applyPreset categoryId presetId cat s in
  let twice := applyPreset categoryId presetId cat once.2 in
  once.1 = Ret (Some p)
  /\ Store.textSettings once.2 = Store.textSettings s
  /\ twice.1 = Ret (Some p)
  /\ Store.textSettings twice.2 = Store.textSettings s
  /\ Store.canvasSettings twice.2 = Store.canvasSettings once.2
  /\ Store.width <$> Store.canvas twice.2 = Store.width <$> Store.canvas once.2
  /\ Store.height <$> Store.canvas twice.2 = Store.height <$> Store.canvas once.2.
Proof.
  intros Hp Hm Honly. simpl.
  rewrite !(applyPreset_canvas_only cat categoryId presetId p m) by assumption.
  simpl.
  destruct (truthy (field (settings p) "canvasSettings")); [| auto 10].
  split; [reflexivity |]. split; [reflexivity |]. split; [reflexivity |].
  split; [reflexivity |].
  split; [apply updateCanvasSettings_settings_idempotent |].
  unfold Store.updateCanvasSettings. simpl.
  rewrite !spread_idempotent.
  destruct (Store.canvas s); simpl; auto.
Qed.

End PresetsMore.

(** *** The properties above on the default catalog *)

Section PresetsMoreExamples.
#[local] Existing Instance Samples.list_surface.
#[local] Existing Instance Samples.list_codec.
Import Samples.

(** None of the default text presets has the id [new]. *)
Lemma new_is_fresh (p : PresetState) :
  p ∈ category_presets text_category -> preset_id p <> "new".
Proof.
  intros Hin.
  repeat (apply elem_of_cons in Hin; destruct Hin as [-> | Hin]; [discriminate |]).
  apply not_elem_of_nil in Hin. contradiction.
Qed.

Lemma addPreset_then_getPreset_witness :
  default_catalog !! "text" = Some text_category
  /\ getPreset "text" "new" (addPreset "text" mine "new" 7 default_catalog) =
       Some {| preset_id := "new"; preset_name := "Mine";
               settings := obj [("textSettings", obj [("fontSize", JNum 20)])];
               thumbnail := None; createdAt := 7 |}.
Proof.
  split; [reflexivity |].
  apply (addPreset_then_getPreset default_catalog "text" mine "new" 7 text_category);
    [reflexivity | exact new_is_fresh].
Defined.

Lemma removePreset_absent_is_noop_witness :
  getPreset "text" "nope" default_catalog = None
  /\ removePreset "text" "nope" default_catalog = default_catalog.
Proof.
  split; [reflexivity |].
  apply (removePreset_absent_is_noop default_catalog "text" "nope"). reflexivity.
Defined.

Lemma addPreset_removePreset_round_trip_witness :
  default_catalog !! "text" = Some text_category
  /\ removePreset "text" "new" (addPreset "text" mine "new" 7 default_catalog)
     = default_catalog.
Proof.
  split; [reflexivity |].
  apply (addPreset_removePreset_round_trip default_catalog "text" mine "new" 7
           text_category); [reflexivity | exact new_is_fresh].
Defined.

Lemma importPreset_adds_to_named_category_witness :
  (importPreset sample_parse_more sample_number_toString text_into_text "new" 7
     default_catalog).1 = true
  /\ getPreset "text" "new"
       (importPreset sample_parse_more sample_number_toString text_into_text "new" 7
          default_catalog).2 =
       Some {| preset_id := "new"; preset_name := "Mine (Imported)";
               settings := obj []; thumbnail := None; createdAt := 7 |}.
Proof.
  apply (importPreset_adds_to_named_category sample_parse_more sample_number_toString
           text_into_text
           (obj [("category", JStr "text");
                 ("preset", obj [("name", JStr "Mine"); ("settings", obj [])])])
           "text" (obj [("name", JStr "Mine"); ("settings", obj [])])
           "new" 7 default_catalog text_category);
    try reflexivity.
  exact new_is_fresh.
Defined.

Lemma imported_preset_without_settings_throws_witness :
  (importPreset sample_parse_more sample_number_toString text_bare_preset "new" 7
     default_catalog).1 = true
  /\ applyPreset "text" "new"
       (importPreset sample_parse_more sample_number_toString text_bare_preset "new" 7
          default_catalog).2 Store.initial
     = (Throw, Store.initial).
Proof.
  apply (imported_preset_without_settings_throws sample_parse_more sample_number_toString
           text_bare_preset
           (obj [("category", JStr "text"); ("preset", obj [("name", JStr "Bare")])])
           "text" (obj [("name", JStr "Bare")])
           "new" 7 default_catalog text_category Store.initial);
    try reflexivity.
  exact new_is_fresh.
Defined.

Lemma canvas_only_preset_idempotent_witness :
  getPreset "canvas" "p4" default_catalog = Some instagram_post
  /\ (let once := applyPreset "canvas" "p4" default_catalog Store.initial in
      let twice := applyPreset "canvas" "p4" default_catalog once.2 in
      once.1 = Ret (Some instagram_post)
      /\ Store.textSettings once.2 = Store.textSettings Store.initial
      /\ twice.1 = Ret (Some instagram_post)
      /\ Store.textSettings twice.2 = Store.textSettings Store.initial
      /\ Store.canvasSettings twice.2 = Store.canvasSettings once.2
      /\ Store.width <$> Store.canvas twice.2 = Store.width <$> Store.canvas once.2
      /\ Store.height <$> Store.canvas twice.2 = Store.height <$> Store.canvas once.2).
Proof.
  split; [reflexivity |].
  apply (canvas_only_preset_idempotent default_catalog "canvas" "p4" instagram_post
           {[ "canvasSettings" := canvas_size 1080 1080 "#ffffff" "fill" ]});
    [reflexivity | reflexivity |].
  intros k Hk. apply lookup_singleton_ne. congruence.
Defined.

End PresetsMoreExamples.
End PresetsMore.

(** * Further properties of the tool registry *)

Module RegistryMore.
Import ToolRegistry RegistryRuns ToolRegistryFacts.
Section RegistryMore.
Context {Canvas Event : Type}.
Implicit Types (r : Registry Canvas Event) (e : Env Canvas).

Lemma activateTool_both_or_neither toolId canvas r e :
  (activeTool r = None <-> activeCanvas r = None) ->
  (activeTool (activateTool toolId canvas r e).1 = None
   <-> activeCanvas (activateTool toolId canvas r e).1 = None).
Proof.
  intros Hinv. unfold activateTool.
  destruct (tools r !! toolId) as [t |]; [| exact Hinv].
  destruct (handler t); [| exact Hinv].
  simpl. split; discriminate.
Qed.

Lemma exec_op_both_or_neither op (st : Registry Canvas Event * Env Canvas) :
  (activeTool st.1 = None <-> activeCanvas st.1 = None) ->
  (activeTool (exec_op op st).1 = None <-> activeCanvas (exec_op op st).1 = None).
Proof.
  destruct op; simpl; [auto | auto | apply activateTool_both_or_neither].
Qed.

Lemma exec_op_stays_active op (st : Registry Canvas Event * Env Canvas) :
  is_Some (activeTool st.1) -> is_Some (activeTool (exec_op op st).1).
Proof.
  intros Ha. destruct op; simpl; [exact Ha | exact Ha |].
  unfold activateTool.
  destruct (tools st.1 !! toolId) as [t |]; [| exact Ha].
  destruct (handler t); [simpl; eauto | exact Ha].
Qed.

(** X23. Whatever is registered, unregistered and activated, starting from
    an empty registry, the registry holds an active tool exactly when it
    holds an active canvas; and no operation takes an active registry back
    to having no active tool. *)
Theorem active_tool_and_canvas_go_together ops e :
  let st := run_ops ops ((empty_registry : Registry Canvas Event), e) in
  (activeTool st.1 = None <-> activeCanvas st.1 = None)
  /\ (forall op, is_Some (activeTool st.1) -> is_Some (activeTool (exec_op op st).1)).
Proof.
  simpl. split; [| intros op; apply exec_op_stays_active].
  assert (forall (st : Registry Canvas Event * Env Canvas),
            (activeTool st.1 = None <-> activeCanvas st.1 = None) ->
            (activeTool (run_ops ops st).1 = None
             <-> activeCanvas (run_ops ops st).1 = None)) as Hrun.
  { induction ops as [| op ops IH]; intros st Hst; simpl; [exact Hst |].
    apply IH, exec_op_both_or_neither, Hst. }
  apply Hrun. simpl. split; reflexivity.
Qed.

(** The log after the deactivation block of a disciplined registry. *)
Lemma deactivateCurrent_tracked r e d :
  (forall a, activeTool r = Some a ->
     string_nonempty a = true /\ is_Some (activeCanvas r)
     /\ exists t h, tools r !! a = Some t /\ handler t = Some h) ->
  foldl track (Some (None, false)) (calls e) = Some (current r, d) ->
  exists d1,
    foldl track (Some (None, false)) (calls (deactivateCurrent r e)) = Some (current r, d1)
    /\ (current r <> None -> d1 = true).
Proof.
  intros Hhook Htrack.
  destruct (activeTool r) as [a |] eqn:Ha.
  - destruct (Hhook a eq_refl) as (Hne & [c Hc] & t & h & Ht & Hh).
    rewrite (deactivateCurrent_registered r e a c t h) by assumption.
    simpl. rewrite foldl_app, Htrack. simpl.
    unfold current. rewrite Ha, Hc. simpl.
    rewrite bool_decide_eq_true_2 by (split; reflexivity).
    exists true. split; [destruct d; reflexivity | intros _; reflexivity].
  - assert (deactivateCurrent r e = e) as ->.
    { unfold deactivateCurrent. rewrite Ha. reflexivity. }
    exists d. split; [exact Htrack |].
    unfold current. rewrite Ha. intros Hcur. contradiction.
Qed.

Lemma activateTool_disciplined toolId canvas (st : Registry Canvas Event * Env Canvas) :
  disciplined st -> disciplined (activateTool toolId canvas st.1 st.2).
Proof.
  destruct st as [r e]. simpl. intros (Hnn & Hhook & d & Htrack). simpl in *.
  destruct (deactivateCurrent_tracked r e d Hhook Htrack) as (d1 & Htrack1 & Hd1).
  unfold activateTool.
  destruct (tools r !! toolId) as [t |] eqn:Ht;
    [| split; [exact Hnn |]; split; [exact Hhook |]; exists d1; exact Htrack1].
  destruct (handler t) as [h |] eqn:Hh;
    [| split; [exact Hnn |]; split; [exact Hhook |]; exists d1; exact Htrack1].
  split; [exact Hnn |]. simpl. split.
  - intros a Ha. injection Ha as <-.
    split; [| split; [eauto | eauto]].
    destruct toolId as [| ch rest]; [| reflexivity].
    rewrite (Hnn t Ht) in Hh. discriminate.
  - exists false. rewrite foldl_app, Htrack1. simpl.
    unfold current at 2. simpl.
    destruct (current r) as [[a0 c0] |]; [| reflexivity].
    rewrite Hd1 by discriminate. reflexivity.
Qed.

Lemma activations_disciplined acts : forall (st : Registry Canvas Event * Env Canvas),
  disciplined st -> disciplined (run_ops (activations acts) st).
Proof.
  induction acts as [| a acts IH]; intros st Hst; simpl; [exact Hst |].
  apply IH. apply activateTool_disciplined. exact Hst.
Qed.

(** X24. In a registry that has no handler under the empty id, any run of
    [activateTool] calls from the idle state, with known or unknown ids on
    any canvases, keeps the hooks exclusive: an [activate] hook is never
    invoked while the tool activated before it has not had its [deactivate]
    hook invoked, and every [deactivate] goes to the tool activated last, on
    the canvas it was activated on. *)
Theorem activations_keep_hooks_exclusive r e acts :
  activeTool r = None ->
  no_nameless r ->
  calls e = [] ->
  exclusive (calls (run_ops (activations acts) (r, e)).2).
Proof.
  intros Hidle Hnn Hlog.
  destruct (activations_disciplined acts (r, e)) as (_ & _ & d & Htrack).
  - split; [exact Hnn |]. simpl. split; [intros a Ha; congruence |].
    exists false. rewrite Hlog. unfold current. rewrite Hidle. reflexivity.
  - unfold exclusive. rewrite Htrack. eauto.
Qed.

End RegistryMore.

(** *** The built-in registry *)

Section BuiltIn.

(** X25. Every built-in tool switches drawing mode off when it is activated,
    and activating it and deactivating it again, on any canvas, leaves object
    selection enabled and the canvas objects as they were. *)
Theorem builtin_hooks_restore_selection id t h (c : FabricCanvas) :
  tools ToolRegistry !! id = Some t ->
  handler t = Some h ->
  isDrawingMode (activate h c) = false
  /\ selection (deactivate h (activate h c)) = true
  /\ objects (deactivate h (activate h c)) = objects c.
Proof.
  intros Ht Hh.
  unfold ToolRegistry, register, empty_registry in Ht. simpl in Ht.
  repeat (apply lookup_insert_Some in Ht; destruct Ht as [[<- <-] | [_ Ht]];
          [simpl in Hh; injection Hh as <-; simpl; auto |]).
  rewrite lookup_empty in Ht. discriminate.
Qed.

End BuiltIn.

(** *** The properties above on the built-in registry *)

Section RegistryMoreExamples.
Import Samples.

Lemma builtin_no_nameless : no_nameless ToolRegistry.
Proof. intros t Ht. vm_compute in Ht. discriminate. Qed.

Lemma activations_keep_hooks_exclusive_witness :
  activeTool ToolRegistry = None
  /\ calls (run_ops (activations three_selections) (ToolRegistry, one_canvas)).2
     = [Activate "text" 0%nat; Deactivate "text" 0%nat; Deactivate "text" 0%nat;
        Activate "rectangle" 0%nat]
  /\ exclusive (calls (run_ops (activations three_selections) (ToolRegistry, one_canvas)).2).
Proof.
  split; [reflexivity |]. split; [reflexivity |].
  apply (activations_keep_hooks_exclusive ToolRegistry one_canvas three_selections);
    [reflexivity | exact builtin_no_nameless | reflexivity].
Defined.

Lemma builtin_hooks_restore_selection_witness :
  tools ToolRegistry !! "text" = Some textTool
  /\ (exists h, handler textTool = Some h
       /\ isDrawingMode (activate h blank_canvas) = false
       /\ selection (deactivate h (activate h blank_canvas)) = true
       /\ objects (deactivate h (activate h blank_canvas)) = objects blank_canvas).
Proof.
  split; [reflexivity |].
  eexists. split; [reflexivity |].
  apply (builtin_hooks_restore_selection "text" textTool _ blank_canvas); reflexivity.
Defined.

End RegistryMoreExamples.
End RegistryMore.

(** * Tool selection in the editor layout *)

Module EditorLayoutFacts.
Import ToolRegistry EditorLayout.
Section EditorLayoutFacts.
Context `{Sf : Surface} {FCanvas Event : Type}.
Implicit Types a : @App Sf FCanvas Event.

(** X26. [handleToolSelect] does nothing at all when the canvas that its
    closure captured is [null], whatever the store holds by then. With a
    captured canvas it always sets the store's selected tool to the id it is
    given; the registry follows only for a registered tool with a handler,
    and for any other id it keeps the tool it had, so that store and
    registry then name different tools. *)
Theorem handleToolSelect_store_and_registry toolId canvasRef a :
  handleToolSelect None toolId a = a
  /\ Store.selectedTool (app_store (handleToolSelect (Some canvasRef) toolId a)) = toolId
  /\ (forall t h,
        tools (app_registry a) !! toolId = Some t -> handler t = Some h ->
        getActiveTool (app_registry (handleToolSelect (Some canvasRef) toolId a))
          = Some toolId
        /\ activeCanvas (app_registry (handleToolSelect (Some canvasRef) toolId a))
           = Some canvasRef)
  /\ ((tools (app_registry a) !! toolId = None
       \/ exists t, tools (app_registry a) !! toolId = Some t /\ handler t = None) ->
      app_registry (handleToolSelect (Some canvasRef) toolId a) = app_registry a).
Proof.
  unfold handleToolSelect. simpl.
  split; [reflexivity |]. split; [reflexivity |]. split.
  - intros t h Ht Hh. unfold activateTool. rewrite Ht, Hh. simpl. auto.
  - intros [Hn | (t & Ht & Hh)]; unfold activateTool.
    + rewrite Hn. reflexivity.
    + rewrite Ht, Hh. reflexivity.
Qed.

End EditorLayoutFacts.

(** *** Tool selection on the built-in registry *)

Section EditorLayoutExamples.
Import Samples.

(** The store of [sample_app] holds a canvas. A closure that captured
    [null] does nothing for the key [t]; one that captured the canvas sets
    the selected tool to an id that is not registered and leaves the
    registry idle. *)
Lemma handleToolSelect_store_and_registry_witness :
  is_Some (Store.canvas (app_store sample_app))
  /\ handleToolSelect None "text" sample_app = sample_app
  /\ Store.selectedTool (app_store (handleToolSelect (Some 0%nat) "eraser" sample_app))
     = "eraser"
  /\ tools (app_registry sample_app) !! "eraser" = None
  /\ getActiveTool (app_registry (handleToolSelect (Some 0%nat) "eraser" sample_app)) = None.
Proof.
  destruct (handleToolSelect_store_and_registry "text" 0%nat sample_app) as (Hnone & _).
  destruct (handleToolSelect_store_and_registry "eraser" 0%nat sample_app)
    as (_ & Hsel & _ & Hkeep).
  split; [eexists; reflexivity |]. split; [exact Hnone |]. split; [exact Hsel |].
  split; [reflexivity |].
  exact (f_equal getActiveTool (Hkeep (or_introl eq_refl))).
Defined.

End EditorLayoutExamples.
End EditorLayoutFacts.

(** * The export panel *)

Module ExportPanelFacts.
Import ExportPanel.
Section ExportPanelFacts.
Variable fmul fdiv : Q -> Q -> Q.
Variable canvas_toSVG : ExportCanvas -> outcome string.
Variable canvas_toDataURL : string -> Q -> ExportCanvas -> outcome string.
Variable createObjectURL : string -> string.

#[local] Abbreviation render :=
  (render fmul fdiv canvas_toSVG canvas_toDataURL createObjectURL).
#[local] Abbreviation handleExport :=
  (handleExport fmul fdiv canvas_toSVG canvas_toDataURL createObjectURL).

Lemma set_background_back (c : ExportCanvas) (v : jsval) :
  set_background (canvas_backgroundColor c) (set_background v c) = c.
Proof. destruct c; reflexivity. Qed.

Lemma restore_apply_background st (c : ExportCanvas) :
  set_background (canvas_backgroundColor c) (apply_background st c) = c.
Proof.
  unfold apply_background.
  destruct (negb (transparent st) && negb (is_svg (format st)));
    [apply set_background_back |].
  destruct (transparent st); [apply set_background_back | destruct c; reflexivity].
Qed.

(** X27. An export whose rendering does not throw puts the canvas
    background back to what it was and resets [isExporting]; a non-empty
    data URL is downloaded once, under the name image-editor-export with the
    format as extension, and announced by one toast, while an empty one is
    dropped without a word; and when the scale is 1 the whole canvas is left
    exactly as it was. *)
Theorem export_success_restores_background st p c dataUrl c' :
  canvas p = Some c ->
  render st c = (Ret dataUrl, c') ->
  (canvas_backgroundColor <$> canvas (handleExport st p))
    = Some (canvas_backgroundColor c)
  /\ isExporting (handleExport st p) = false
  /\ (string_nonempty dataUrl = true ->
      downloads (handleExport st p)
        = downloads p ++ [(dataUrl, "image-editor-export." +:+ format_name (format st))]
      /\ length (toasts (handleExport st p)) = S (length (toasts p)))
  /\ (string_nonempty dataUrl = false ->
      downloads (handleExport st p) = downloads p
      /\ toasts (handleExport st p) = toasts p)
  /\ (scaled st = false -> canvas (handleExport st p) = Some c).
Proof.
  intros Hc Hr. unfold handleExport. rewrite Hc, Hr.
  assert (scaled st = false -> c' = apply_background st c) as Hsame.
  { intros Hs. unfold ExportPanel.render in Hr. rewrite Hs in Hr.
    destruct (is_svg (format st)).
    - destruct (canvas_toSVG _); [| discriminate]. congruence.
    - destruct (canvas_toDataURL _ _ _); [| discriminate]. congruence. }
  destruct (string_nonempty dataUrl); simpl.
  - split; [reflexivity |]. split; [reflexivity |].
    split; [intros _; split; [reflexivity | rewrite length_app; simpl; lia] |].
    split; [discriminate |].
    intros Hs. rewrite (Hsame Hs), restore_apply_background. reflexivity.
  - split; [reflexivity |]. split; [reflexivity |].
    split; [discriminate |]. split; [auto |].
    intros Hs. rewrite (Hsame Hs), restore_apply_background. reflexivity.
Qed.

(** X28. An export whose rendering throws does not put anything back: the
    canvas keeps the export background (and, for a scaled raster export, the
    scaled zoom), nothing is downloaded, one failure toast is shown, and
    [isExporting] is reset. *)
Theorem export_failure_leaves_canvas_changed st p c c' :
  canvas p = Some c ->
  render st c = (Throw, c') ->
  canvas (handleExport st p) = Some c'
  /\ canvas_backgroundColor c' = canvas_backgroundColor (apply_background st c)
  /\ (transparent st = true -> canvas_backgroundColor c' = JStr "transparent")
  /\ (scaled st = true -> is_svg (format st) = false -> canvas_zoom c' = scale st)
  /\ downloads (handleExport st p) = downloads p
  /\ toasts (handleExport st p)
     = toasts p ++ [{| title := "Export Failed";
                       toast_description := "An error occurred while exporting the image";
                       destructive := true |}]
  /\ isExporting (handleExport st p) = false.
Proof.
  intros Hc Hr. unfold handleExport. rewrite Hc, Hr. simpl.
  split; [reflexivity |].
  assert (canvas_backgroundColor c' = canvas_backgroundColor (apply_background st c)
          /\ (scaled st = true -> is_svg (format st) = false -> canvas_zoom c' = scale st))
    as [Hbg Hzoom].
  { unfold ExportPanel.render in Hr.
    destruct (is_svg (format st)).
    - destruct (canvas_toSVG _); [discriminate |].
      injection Hr as <-. split; [reflexivity | discriminate].
    - destruct (canvas_toDataURL _ _ _); [discriminate |].
      injection Hr as <-. destruct (scaled st); simpl; split; auto; discriminate. }
  split; [exact Hbg |]. split.
  - intros Ht. rewrite Hbg. unfold apply_background. rewrite Ht. simpl. reflexivity.
  - auto.
Qed.

End ExportPanelFacts.

(** *** The properties above on a white canvas *)

Section ExportPanelExamples.
Import Samples.

Lemma export_success_restores_background_witness :
  render Qmult Qdiv renders_svg renders_url blob_url web_png white_canvas
    = (Ret "data:image/png", set_background (JStr "transparent") white_canvas)
  /\ canvas (handleExport Qmult Qdiv renders_svg renders_url blob_url web_png idle_panel)
     = Some white_canvas
  /\ downloads (handleExport Qmult Qdiv renders_svg renders_url blob_url web_png idle_panel)
     = [("data:image/png", "image-editor-export.png")].
Proof.
  split; [reflexivity |].
  destruct (export_success_restores_background Qmult Qdiv renders_svg renders_url blob_url
              web_png idle_panel white_canvas "data:image/png"
              (set_background (JStr "transparent") white_canvas) eq_refl eq_refl)
    as (_ & _ & Hdl & _ & Hsame).
  split; [apply Hsame; reflexivity |].
  exact (proj1 (Hdl eq_refl)).
Defined.

Lemma export_failure_leaves_canvas_changed_witness :
  render Qmult Qdiv renders_svg refuses_url blob_url web_png white_canvas
    = (Throw, set_background (JStr "transparent") white_canvas)
  /\ canvas_backgroundColor <$>
       canvas (handleExport Qmult Qdiv renders_svg refuses_url blob_url web_png idle_panel)
     = Some (JStr "transparent")
  /\ downloads (handleExport Qmult Qdiv renders_svg refuses_url blob_url web_png idle_panel)
     = [].
Proof.
  split; [reflexivity |].
  destruct (export_failure_leaves_canvas_changed Qmult Qdiv renders_svg refuses_url
              blob_url web_png idle_panel white_canvas
              (set_background (JStr "transparent") white_canvas) eq_refl eq_refl)
    as (Hc & _ & _ & _ & Hdl & _).
  split; [rewrite Hc; reflexivity | exact Hdl].
Defined.

End ExportPanelExamples.
End ExportPanelFacts.

(** * The earlier store *)

Module DraftStoreFacts.
Import SliceFacts DraftStore.
Section DraftStoreFacts.
Context `{Sf : Surface}.
Variable scene_parse : string -> option SceneJSON.
Implicit Types (s : State) (w : World).

#[local] Abbreviation exec := (exec scene_parse).
#[local] Abbreviation run := (run scene_parse).
#[local] Abbreviation reachable := (reachable scene_parse).

(** The entry [saveToHistory] appends in state [s]. *)
Lemma saveToHistory_appends act now s :
  Z.of_nat (length (history s)) <= historyIndex s + 1 ->
  history (saveToHistory act now s) =
    history s ++ [{| json := match canvas s with
                             | Some c => Some (canvas_toJSON (Store.scene c))
                             | None => None
                             end;
                     action := act; timestamp := now |}]
  /\ historyIndex (saveToHistory act now s)
     = Z.of_nat (length (history (saveToHistory act now s))) - 1
  /\ canvas (saveToHistory act now s) = canvas s.
Proof.
  intros Htail. unfold saveToHistory. simpl.
  rewrite slice_prefix by lia. rewrite take_ge by lia. auto.
Qed.

(** X29. The earlier store has no cap: with the cursor on (or past) the
    tail, a run of [saveToHistory] calls appends one entry per call, with or
    without a canvas bound, so the timeline grows by the number of calls. *)
Theorem draft_history_is_unbounded acts : forall w,
  Z.of_nat (length (history (store w))) <= historyIndex (store w) + 1 ->
  let s' := store (run (recordings acts) w) in
  length (history s') = (length (history (store w)) + length acts)%nat
  /\ take (length (history (store w))) (history s') = history (store w)
  /\ (acts <> [] -> historyIndex s' = Z.of_nat (length (history s')) - 1).
Proof.
  induction acts as [| a acts IH]; intros w Htail.
  - simpl. rewrite Nat.add_0_r, take_ge by lia. split; [reflexivity |].
    split; [reflexivity | intros Hne; contradiction].
  - destruct (saveToHistory_appends a.1 a.2 (store w) Htail) as (Hh & Hi & _).
    set (w1 := on_store (saveToHistory a.1 a.2) w).
    assert (store w1 = saveToHistory a.1 a.2 (store w)) as Hw1 by reflexivity.
    destruct (IH w1) as (IHlen & IHtake & IHidx).
    { rewrite Hw1, Hi. lia. }
    change (run (recordings (a :: acts)) w) with (run (recordings acts) w1).
    cbv zeta in *. rewrite Hw1, Hh, length_app in IHlen, IHtake.
    cbn [length] in IHlen, IHtake |- *.
    split; [lia |]. split.
    + apply (f_equal (take (length (history (store w))))) in IHtake.
      rewrite take_take in IHtake.
      replace (length (history (store w)) `min` (length (history (store w)) + 1))%nat
        with (length (history (store w))) in IHtake by lia.
      rewrite IHtake, take_app_length. reflexivity.
    + intros _. destruct acts as [| b acts']; [| apply IHidx; discriminate].
      change (store (run (recordings []) w1)) with (store w1).
      rewrite Hw1. exact Hi.
Qed.

Lemma cursor_ok_frame s s' :
  history s' = history s -> historyIndex s' = historyIndex s -> cursor_ok s -> cursor_ok s'.
Proof. unfold cursor_ok. intros -> ->. auto. Qed.

Lemma saveToHistory_cursor_ok act now s : cursor_ok (saveToHistory act now s).
Proof.
  unfold cursor_ok, saveToHistory. simpl. right.
  rewrite length_app. simpl. lia.
Qed.

Lemma undo_cursor_ok s : cursor_ok s -> cursor_ok (undo s).
Proof.
  unfold undo. intros Hok.
  destruct (Z.gtb_spec (historyIndex s) 0) as [Hgt | _]; simpl; [| exact Hok].
  destruct (bool_decide (is_Some (canvas s))); [| exact Hok].
  unfold cursor_ok in *. simpl. right. destruct Hok as [[_ Hz] | Hin]; lia.
Qed.

Lemma redo_cursor_ok s : cursor_ok s -> cursor_ok (redo s).
Proof.
  unfold redo. intros Hok.
  destruct (Z.ltb_spec (historyIndex s) (Z.of_nat (length (history s)) - 1)) as [Hlt | _];
    simpl; [| exact Hok].
  destruct (bool_decide (is_Some (canvas s))); [| exact Hok].
  unfold cursor_ok in *. simpl. right.
  destruct Hok as [[Hnil Hz] | Hin]; [rewrite Hnil in Hlt; simpl in Hlt; lia | lia].
Qed.

Lemma exec_cursor_ok op w : cursor_ok (store w) -> cursor_ok (store (exec op w)).
Proof.
  intros Hok. destruct op; simpl.
  - apply undo_cursor_ok, Hok.
  - apply redo_cursor_ok, Hok.
  - unfold deleteSelectedObject. destruct (canvas (store w)), (activeObject (store w));
      first [exact Hok | apply (cursor_ok_frame (store w)); [reflexivity | reflexivity | exact Hok]].
  - unfold duplicateSelectedObject. destruct (canvas (store w)), (activeObject (store w));
      first [exact Hok | apply (cursor_ok_frame (store w)); [reflexivity | reflexivity | exact Hok]].
  - unfold bringToFront. destruct (canvas (store w)), (activeObject (store w));
      first [exact Hok | apply (cursor_ok_frame (store w)); [reflexivity | reflexivity | exact Hok]].
  - unfold saveToLocalStorage. destruct (canvas (store w)); [destruct stored |]; simpl;
      first [exact Hok | apply (cursor_ok_frame (store w)); [reflexivity | reflexivity | exact Hok]].
  - apply (cursor_ok_frame (store w)); [reflexivity | reflexivity | exact Hok].
  - apply (cursor_ok_frame (store w)); [reflexivity | reflexivity | exact Hok].
  - apply (cursor_ok_frame (store w)); [reflexivity | reflexivity | exact Hok].
  - apply (cursor_ok_frame (store w)); [reflexivity | reflexivity | exact Hok].
  - apply saveToHistory_cursor_ok.
  - unfold loadFromLocalStorage.
    destruct (canvas (store w)); [| exact Hok].
    destruct (localStorage w) as [data |]; [| exact Hok].
    destruct (string_nonempty data); [| exact Hok].
    destruct (scene_parse data); simpl; [| exact Hok].
    apply (cursor_ok_frame (store w)); [reflexivity | reflexivity | exact Hok].
Qed.

(** X30. In every session the earlier store can reach, the cursor is [0] on
    an empty timeline and a valid index otherwise: it starts at [0], not at
    [-1], and [undo] and [redo] never move it out of the timeline. *)
Theorem draft_cursor_stays_valid w :
  reachable w ->
  (history (store w) = [] /\ historyIndex (store w) = 0)
  \/ (0 <= historyIndex (store w) < Z.of_nat (length (history (store w)))).
Proof.
  intros (saved & ops & ->).
  assert (forall w0, cursor_ok (store w0) -> cursor_ok (store (run ops w0))) as Hrun.
  { induction ops as [| op ops IH]; intros w0 Hok; simpl; [exact Hok |].
    apply IH, exec_cursor_ok, Hok. }
  apply Hrun. left. split; reflexivity.
Qed.

End DraftStoreFacts.

(** *** The properties above on a sample session *)

Section DraftStoreExamples.
#[local] Existing Instance Samples.list_surface.
Import Samples.

#[local] Abbreviation parse :=
  (fun text : string => Some (names_of text) : option (@SceneJSON list_surface)).

Lemma draft_history_is_unbounded_witness :
  history (store draft_bound) = [] /\ historyIndex (store draft_bound) = 0
  /\ (let s' :=
        store (run parse (recordings two_actions)
                 draft_bound) in
      length (history s') = (length (history (store draft_bound)) + length two_actions)%nat
      /\ take (length (history (store draft_bound))) (history s')
         = history (store draft_bound)
      /\ (two_actions <> [] -> historyIndex s' = Z.of_nat (length (history s')) - 1)).
Proof.
  split; [reflexivity |]. split; [reflexivity |].
  apply (draft_history_is_unbounded parse two_actions
           draft_bound).
  simpl. lia.
Defined.

Lemma draft_cursor_stays_valid_witness :
  reachable parse draft_bound
  /\ ((history (store draft_bound) = [] /\ historyIndex (store draft_bound) = 0)
      \/ (0 <= historyIndex (store draft_bound)
          < Z.of_nat (length (history (store draft_bound))))).
Proof.
  assert (reachable parse draft_bound) as Hr.
  { exists None, [OSetCanvas canvas_ab]. reflexivity. }
  split; [exact Hr |].
  apply (draft_cursor_stays_valid parse draft_bound). exact Hr.
Defined.

End DraftStoreExamples.
End DraftStoreFacts.
